(** * DxEngine: dirty-region accounting, paint session and overlay geometry

    A shallow embedding of [src/renderer/dx/DxRenderer.cpp] (class
    [Microsoft::Console::Render::DxEngine]).  The engine's member variables
    form a record, every member function becomes a function over that
    record, and every call that leaves the engine (Direct2D, DXGI,
    DirectWrite, User32) takes its outcome from an explicit argument.

    Integers are [Z] with the two's complement wrap-around of the Windows
    ABI written out ([LONG] 32 bit, [SHORT] 16 bit, [ULONG] 32 bit,
    [size_t] 64 bit); [float] is IEEE binary32 through [SpecFloat]. *)

From Stdlib Require Import ZArith List Bool Lia Permutation.
From Stdlib Require Import Floats.SpecFloat.
Import ListNotations.

Local Open Scope Z_scope.

(** ** Machine integers *)

Module Int.

(** Signed two's complement value of [x] in [w] bits. *)
Definition wrap (w : Z) (x : Z) : Z :=
  (x + 2 ^ (w - 1)) mod 2 ^ w - 2 ^ (w - 1).

Definition LONG (x : Z) : Z := wrap 32 x.
Definition SHORT (x : Z) : Z := wrap 16 x.
Definition UINT32 (x : Z) : Z := x mod 2 ^ 32.
Definition size_t (x : Z) : Z := x mod 2 ^ 64.

Definition isLONG (x : Z) : Prop := - 2 ^ 31 <= x < 2 ^ 31.
Definition isSHORT (x : Z) : Prop := - 2 ^ 15 <= x < 2 ^ 15.
Definition isULONG (x : Z) : Prop := 0 <= x < 2 ^ 32.

End Int.

(** ** Windows structures *)

Module RECT.
Record t : Set := mk { left : Z; top : Z; right : Z; bottom : Z }.

Definition eqb (a b : t) : bool :=
  (left a =? left b) && (top a =? top b)
  && (right a =? right b) && (bottom a =? bottom b).

End RECT.

Module SMALL_RECT.
Record t : Set := mk { Left : Z; Top : Z; Right : Z; Bottom : Z }.
End SMALL_RECT.

Module SIZE.
Record t : Set := mk { cx : Z; cy : Z }.
End SIZE.

Module POINT.
Record t : Set := mk { x : Z; y : Z }.
End POINT.

Module COORD.
Record t : Set := mk { X : Z; Y : Z }.
End COORD.

(** ** User32 rectangle functions

    [IsRectEmpty], [EqualRect], [SetRectEmpty], [OffsetRect],
    [IntersectRect], [UnionRect] and [SubtractRect] are imported from
    User32; the engine only calls them.  They are written here after their
    documented behaviour: an empty rectangle has no width or no height, an
    empty intersection or union is stored as the null rectangle, a union
    ignores an empty operand, and a subtraction only shrinks the first
    rectangle when the second one cuts it across a whole side. *)

Module User32.
Import RECT.

Definition SetRectEmpty : RECT.t := mk 0 0 0 0.

Definition IsRectEmpty (r : RECT.t) : bool :=
  (right r <=? left r) || (bottom r <=? top r).

Definition EqualRect (a b : RECT.t) : bool := RECT.eqb a b.

Definition OffsetRect (r : RECT.t) (dx dy : Z) : RECT.t :=
  mk (Int.LONG (left r + dx)) (Int.LONG (top r + dy))
     (Int.LONG (right r + dx)) (Int.LONG (bottom r + dy)).

(** The returned flag is the [BOOL] result, the rectangle what is stored
    in the destination. *)
Definition IntersectRect (a b : RECT.t) : bool * RECT.t :=
  if IsRectEmpty a || IsRectEmpty b
     || (right b <=? left a) || (right a <=? left b)
     || (bottom b <=? top a) || (bottom a <=? top b)
  then (false, SetRectEmpty)
  else (true, mk (Z.max (left a) (left b)) (Z.max (top a) (top b))
                 (Z.min (right a) (right b)) (Z.min (bottom a) (bottom b))).

Definition UnionRect (a b : RECT.t) : bool * RECT.t :=
  if IsRectEmpty a then
    if IsRectEmpty b then (false, SetRectEmpty) else (true, b)
  else if IsRectEmpty b then (true, a)
  else (true, mk (Z.min (left a) (left b)) (Z.min (top a) (top b))
                 (Z.max (right a) (right b)) (Z.max (bottom a) (bottom b))).

Definition SubtractRect (a b : RECT.t) : bool * RECT.t :=
  if IsRectEmpty a then (false, SetRectEmpty)
  else
    let (hit, tmp) := IntersectRect a b in
    if hit then
      if EqualRect tmp a then (false, SetRectEmpty)
      else if (top tmp =? top a) && (bottom tmp =? bottom a) then
        if left tmp =? left a then
          (true, mk (right tmp) (top a) (right a) (bottom a))
        else if right tmp =? right a then
          (true, mk (left a) (top a) (left tmp) (bottom a))
        else (true, a)
      else if (left tmp =? left a) && (right tmp =? right a) then
        if top tmp =? top a then
          (true, mk (left a) (bottom tmp) (right a) (bottom a))
        else if bottom tmp =? bottom a then
          (true, mk (left a) (top a) (right a) (top tmp))
        else (true, a)
      else (true, a)
    else (true, a).

End User32.

(** ** Result codes *)

Definition HRESULT : Set := Z.

Definition S_OK : HRESULT := 0.
Definition S_FALSE : HRESULT := 1.
Definition E_HANDLE : HRESULT := Eval cbv in Int.LONG 0x80070006.
Definition E_INVALIDARG : HRESULT := Eval cbv in Int.LONG 0x80070057.
(** [HRESULT_FROM_WIN32(ERROR_INVALID_STATE)], [ERROR_INVALID_STATE] = 5023. *)
Definition E_NOT_VALID_STATE : HRESULT := Eval cbv in Int.LONG 0x8007139F.

Definition SUCCEEDED (hr : HRESULT) : bool := 0 <=? hr.
Definition FAILED (hr : HRESULT) : bool := hr <? 0.

Definition HWND : Set := Z.
Definition INVALID_HANDLE_VALUE : HWND := -1.

(** ** Presentation parameters

    [DXGI_PRESENT_PARAMETERS] holds pointers.  The engine only ever stores
    the addresses of three of its own members there, so a pointer is
    either null or names one of these members, and what the swap chain
    reads through it is the member's value at the time of the call. *)

Inductive Member : Set := m_presentDirty | m_presentScroll | m_presentOffset.

Inductive Ptr : Set := nullptr | addr (m : Member).

Record DXGI_PRESENT_PARAMETERS : Set := mkParams {
  DirtyRectsCount : Z;
  pDirtyRects : Ptr;
  pScrollRect : Ptr;
  pScrollOffset : Ptr
}.

Definition zeroParams : DXGI_PRESENT_PARAMETERS :=
  mkParams 0 nullptr nullptr nullptr.

(** ** Device resources

    The [ComPtr] members.  A pointer is held ([true]) or null; the render
    target also records whether a draw batch is open on it. *)

Record ComPtrs : Set := mkCom {
  _d2dBrushForeground : bool;
  _d2dBrushBackground : bool;
  _d2dRenderTarget : option bool;
  _dxgiSurface : bool;
  _dxgiSwapChain : bool;
  _dxgiOutput : bool;
  _d3dDeviceContext : bool;
  _d3dDevice : bool;
  _dxgiAdapter1 : bool;
  _dxgiFactory2 : bool
}.

Definition noCom : ComPtrs :=
  mkCom false false None false false false false false false false.

(** ** Binary32 *)

Definition float : Set := spec_float.

Module F32.
Definition prec : Z := 24.
Definition emax : Z := 128.
Definition of_Z (z : Z) : float := binary_normalize prec emax z 0 false.
Definition add : float -> float -> float := SFadd prec emax.
Definition sub : float -> float -> float := SFsub prec emax.
Definition mul : float -> float -> float := SFmul prec emax.
Definition zero : float := S754_zero false.
End F32.

(** ** The engine *)

Record DxEngine : Set := mkEngine {
  _isInvalidUsed : bool;
  _invalidRect : RECT.t;
  _invalidScroll : SIZE.t;
  _presentParams : DXGI_PRESENT_PARAMETERS;
  _presentReady : bool;
  _presentScroll : RECT.t;
  _presentDirty : RECT.t;
  _presentOffset : POINT.t;
  _isEnabled : bool;
  _isPainting : bool;
  _displaySizePixels : SIZE.t;
  _fontSize : float;
  _glyphCell : SIZE.t;
  _baseline : float;
  _haveDeviceResources : bool;
  _hwndTarget : HWND;
  _com : ComPtrs
}.

(** The state the constructor leaves.  Its initialiser list names every
    member of the record but [_baseline], which keeps whatever its
    storage held, [baseline], until a font update assigns it. *)
Definition DxEngine_ctor (baseline : float) : DxEngine :=
  {| _isInvalidUsed := false;
     _invalidRect := RECT.mk 0 0 0 0;
     _invalidScroll := SIZE.mk 0 0;
     _presentParams := zeroParams;
     _presentReady := false;
     _presentScroll := RECT.mk 0 0 0 0;
     _presentDirty := RECT.mk 0 0 0 0;
     _presentOffset := POINT.mk 0 0;
     _isEnabled := false;
     _isPainting := false;
     _displaySizePixels := SIZE.mk 0 0;
     _fontSize := F32.zero;
     _glyphCell := SIZE.mk 0 0;
     _baseline := baseline;
     _haveDeviceResources := false;
     _hwndTarget := INVALID_HANDLE_VALUE;
     _com := noCom |}.

(** Assignments to single members. *)
Module Set_.
Definition isInvalidUsed v (e : DxEngine) : DxEngine :=
  mkEngine v (_invalidRect e) (_invalidScroll e) (_presentParams e)
    (_presentReady e) (_presentScroll e) (_presentDirty e)
    (_presentOffset e) (_isEnabled e) (_isPainting e)
    (_displaySizePixels e) (_fontSize e) (_glyphCell e) (_baseline e)
    (_haveDeviceResources e) (_hwndTarget e) (_com e).
Definition invalidRect v (e : DxEngine) : DxEngine :=
  mkEngine (_isInvalidUsed e) v (_invalidScroll e) (_presentParams e)
    (_presentReady e) (_presentScroll e) (_presentDirty e)
    (_presentOffset e) (_isEnabled e) (_isPainting e)
    (_displaySizePixels e) (_fontSize e) (_glyphCell e) (_baseline e)
    (_haveDeviceResources e) (_hwndTarget e) (_com e).
Definition invalidScroll v (e : DxEngine) : DxEngine :=
  mkEngine (_isInvalidUsed e) (_invalidRect e) v (_presentParams e)
    (_presentReady e) (_presentScroll e) (_presentDirty e)
    (_presentOffset e) (_isEnabled e) (_isPainting e)
    (_displaySizePixels e) (_fontSize e) (_glyphCell e) (_baseline e)
    (_haveDeviceResources e) (_hwndTarget e) (_com e).
Definition presentParams v (e : DxEngine) : DxEngine :=
  mkEngine (_isInvalidUsed e) (_invalidRect e) (_invalidScroll e) v
    (_presentReady e) (_presentScroll e) (_presentDirty e)
    (_presentOffset e) (_isEnabled e) (_isPainting e)
    (_displaySizePixels e) (_fontSize e) (_glyphCell e) (_baseline e)
    (_haveDeviceResources e) (_hwndTarget e) (_com e).
Definition presentReady v (e : DxEngine) : DxEngine :=
  mkEngine (_isInvalidUsed e) (_invalidRect e) (_invalidScroll e)
    (_presentParams e) v (_presentScroll e) (_presentDirty e)
    (_presentOffset e) (_isEnabled e) (_isPainting e)
    (_displaySizePixels e) (_fontSize e) (_glyphCell e) (_baseline e)
    (_haveDeviceResources e) (_hwndTarget e) (_com e).
Definition presentScroll v (e : DxEngine) : DxEngine :=
  mkEngine (_isInvalidUsed e) (_invalidRect e) (_invalidScroll e)
    (_presentParams e) (_presentReady e) v (_presentDirty e)
    (_presentOffset e) (_isEnabled e) (_isPainting e)
    (_displaySizePixels e) (_fontSize e) (_glyphCell e) (_baseline e)
    (_haveDeviceResources e) (_hwndTarget e) (_com e).
Definition presentDirty v (e : DxEngine) : DxEngine :=
  mkEngine (_isInvalidUsed e) (_invalidRect e) (_invalidScroll e)
    (_presentParams e) (_presentReady e) (_presentScroll e) v
    (_presentOffset e) (_isEnabled e) (_isPainting e)
    (_displaySizePixels e) (_fontSize e) (_glyphCell e) (_baseline e)
    (_haveDeviceResources e) (_hwndTarget e) (_com e).
Definition presentOffset v (e : DxEngine) : DxEngine :=
  mkEngine (_isInvalidUsed e) (_invalidRect e) (_invalidScroll e)
    (_presentParams e) (_presentReady e) (_presentScroll e)
    (_presentDirty e) v (_isEnabled e) (_isPainting e)
    (_displaySizePixels e) (_fontSize e) (_glyphCell e) (_baseline e)
    (_haveDeviceResources e) (_hwndTarget e) (_com e).
Definition isEnabled v (e : DxEngine) : DxEngine :=
  mkEngine (_isInvalidUsed e) (_invalidRect e) (_invalidScroll e)
    (_presentParams e) (_presentReady e) (_presentScroll e)
    (_presentDirty e) (_presentOffset e) v (_isPainting e)
    (_displaySizePixels e) (_fontSize e) (_glyphCell e) (_baseline e)
    (_haveDeviceResources e) (_hwndTarget e) (_com e).
Definition isPainting v (e : DxEngine) : DxEngine :=
  mkEngine (_isInvalidUsed e) (_invalidRect e) (_invalidScroll e)
    (_presentParams e) (_presentReady e) (_presentScroll e)
    (_presentDirty e) (_presentOffset e) (_isEnabled e) v
    (_displaySizePixels e) (_fontSize e) (_glyphCell e) (_baseline e)
    (_haveDeviceResources e) (_hwndTarget e) (_com e).
Definition displaySizePixels v (e : DxEngine) : DxEngine :=
  mkEngine (_isInvalidUsed e) (_invalidRect e) (_invalidScroll e)
    (_presentParams e) (_presentReady e) (_presentScroll e)
    (_presentDirty e) (_presentOffset e) (_isEnabled e) (_isPainting e)
    v (_fontSize e) (_glyphCell e) (_baseline e)
    (_haveDeviceResources e) (_hwndTarget e) (_com e).
Definition glyphCell v (e : DxEngine) : DxEngine :=
  mkEngine (_isInvalidUsed e) (_invalidRect e) (_invalidScroll e)
    (_presentParams e) (_presentReady e) (_presentScroll e)
    (_presentDirty e) (_presentOffset e) (_isEnabled e) (_isPainting e)
    (_displaySizePixels e) (_fontSize e) v (_baseline e)
    (_haveDeviceResources e) (_hwndTarget e) (_com e).
Definition haveDeviceResources v (e : DxEngine) : DxEngine :=
  mkEngine (_isInvalidUsed e) (_invalidRect e) (_invalidScroll e)
    (_presentParams e) (_presentReady e) (_presentScroll e)
    (_presentDirty e) (_presentOffset e) (_isEnabled e) (_isPainting e)
    (_displaySizePixels e) (_fontSize e) (_glyphCell e) (_baseline e)
    v (_hwndTarget e) (_com e).
Definition hwndTarget v (e : DxEngine) : DxEngine :=
  mkEngine (_isInvalidUsed e) (_invalidRect e) (_invalidScroll e)
    (_presentParams e) (_presentReady e) (_presentScroll e)
    (_presentDirty e) (_presentOffset e) (_isEnabled e) (_isPainting e)
    (_displaySizePixels e) (_fontSize e) (_glyphCell e) (_baseline e)
    (_haveDeviceResources e) v (_com e).
Definition com v (e : DxEngine) : DxEngine :=
  mkEngine (_isInvalidUsed e) (_invalidRect e) (_invalidScroll e)
    (_presentParams e) (_presentReady e) (_presentScroll e)
    (_presentDirty e) (_presentOffset e) (_isEnabled e) (_isPainting e)
    (_displaySizePixels e) (_fontSize e) (_glyphCell e) (_baseline e)
    (_haveDeviceResources e) (_hwndTarget e) v.
End Set_.

(** ** Outcomes of the calls that leave the engine *)

(** What User32, DXGI, Direct3D and Direct2D answer while device resources
    are built: the client rectangle of the target window ([inl] carries the
    error of a failed [GetClientRect]) and the result of each creation
    call, in the order [_CreateDeviceResources] makes them. *)
Record DeviceEnv : Set := mkEnv {
  GetClientRect : HRESULT + RECT.t;
  CreateDXGIFactory1 : HRESULT;
  EnumAdapters1 : HRESULT;
  D3D11CreateDevice : HRESULT;
  EnumOutputs : HRESULT;
  CreateSwapChainForHwnd : HRESULT;
  GetBuffer : HRESULT;
  CreateDxgiSurfaceRenderTarget : HRESULT;
  CreateSolidColorBrushBackground : HRESULT;
  CreateSolidColorBrushForeground : HRESULT
}.

Section Engine.
Import RECT SIZE POINT.

Implicit Type e : DxEngine.

(** *** Geometry helpers *)

Definition _GetClientSize (env : DeviceEnv) : SIZE.t :=
  let clientRect :=
    match GetClientRect env with inr r => r | inl _ => RECT.mk 0 0 0 0 end in
  SIZE.mk (Int.LONG (right clientRect - left clientRect))
          (Int.LONG (bottom clientRect - top clientRect)).

Definition _ScaleByFont (cellsToPixels : RECT.t) (fontSize : SIZE.t)
  : RECT.t :=
  RECT.mk (Int.LONG (left cellsToPixels * cx fontSize))
          (Int.LONG (top cellsToPixels * cy fontSize))
          (Int.LONG (right cellsToPixels * cx fontSize))
          (Int.LONG (bottom cellsToPixels * cy fontSize)).

Definition _GetDisplayRect e : RECT.t :=
  RECT.mk 0 0 (cx (_displaySizePixels e)) (cy (_displaySizePixels e)).

(** *** Invalidation tracker *)

Definition _InvalidOffset e (delta : POINT.t) : DxEngine :=
  if _isInvalidUsed e then
    let invalidNew := _invalidRect e in
    let invalidNew := User32.OffsetRect invalidNew (x delta) (y delta) in
    let rectScreen := _GetDisplayRect e in
    let invalidNew := snd (User32.IntersectRect invalidNew rectScreen) in
    Set_.invalidRect invalidNew e
  else e.

(** [_InvalidOr(RECT)] *)
Definition _InvalidOr e (rc : RECT.t) : DxEngine :=
  if _isInvalidUsed e then
    let e := Set_.invalidRect (snd (User32.UnionRect (_invalidRect e) rc)) e in
    let rcScreen := _GetDisplayRect e in
    Set_.invalidRect (snd (User32.IntersectRect (_invalidRect e) rcScreen)) e
  else
    Set_.isInvalidUsed true (Set_.invalidRect rc e).

(** The pixel region [_InvalidOr(SMALL_RECT)] builds from a character
    rectangle before it hands it to [_InvalidOr(RECT)]. *)
Definition cellRegion (glyphCell : SIZE.t) (sr : SMALL_RECT.t) : RECT.t :=
  let region := RECT.mk (SMALL_RECT.Left sr) (SMALL_RECT.Top sr)
                        (SMALL_RECT.Right sr) (SMALL_RECT.Bottom sr) in
  let region := _ScaleByFont region glyphCell in
  RECT.mk (left region) (top region)
          (Int.LONG (right region + cx glyphCell))
          (Int.LONG (bottom region + cy glyphCell)).

(** [_InvalidOr(SMALL_RECT)] *)
Definition _InvalidOr_SMALL_RECT e (sr : SMALL_RECT.t) : DxEngine :=
  _InvalidOr e (cellRegion (_glyphCell e) sr).

Definition Invalidate e (psrRegion : SMALL_RECT.t) : HRESULT * DxEngine :=
  (S_OK, _InvalidOr_SMALL_RECT e psrRegion).

Definition InvalidateSystem e (prcDirtyClient : RECT.t)
  : HRESULT * DxEngine :=
  (S_OK, _InvalidOr e prcDirtyClient).

Fixpoint InvalidateSelection e (rectangles : list SMALL_RECT.t)
  : HRESULT * DxEngine :=
  match rectangles with
  | [] => (S_OK, e)
  | rect :: rest =>
      let (hr, e) := Invalidate e rect in
      if FAILED hr then (hr, e) else InvalidateSelection e rest
  end.

(** The part of the display a shift by ([dx], [dy]) uncovers, as
    [InvalidateScroll] computes it. *)
Definition revealRect (display : RECT.t) (dx dy : Z) : RECT.t :=
  let reveal := display in
  let reveal := User32.OffsetRect reveal dx dy in
  let reveal := snd (User32.IntersectRect reveal display) in
  snd (User32.SubtractRect display reveal).

Definition InvalidateScroll e (pcoordDelta : COORD.t) : HRESULT * DxEngine :=
  if negb (COORD.X pcoordDelta =? 0) || negb (COORD.Y pcoordDelta =? 0) then
    let delta :=
      POINT.mk (Int.LONG (COORD.X pcoordDelta * cx (_glyphCell e)))
               (Int.LONG (COORD.Y pcoordDelta * cy (_glyphCell e))) in
    let e := _InvalidOffset e delta in
    let e := Set_.invalidScroll
               (SIZE.mk (Int.LONG (cx (_invalidScroll e) + x delta))
                        (Int.LONG (cy (_invalidScroll e) + y delta))) e in
    let display := _GetDisplayRect e in
    let reveal := revealRect display (x delta) 0 in
    let e := if negb (User32.IsRectEmpty reveal)
             then _InvalidOr e reveal else e in
    let reveal := revealRect display 0 (y delta) in
    let e := if negb (User32.IsRectEmpty reveal)
             then _InvalidOr e reveal else e in
    (S_OK, e)
  else (S_OK, e).

Definition InvalidateAll e : HRESULT * DxEngine :=
  let screen := _GetDisplayRect e in
  (S_OK, _InvalidOr e screen).

(** Integer division of [LONG]s truncates; [floor] then sees a whole
    number.  The cast to [SHORT] and the decrement keep 16 bits. *)
Definition GetDirtyRectInChars e : SMALL_RECT.t :=
  let r_Top := Int.SHORT (Z.quot (top (_invalidRect e)) (cy (_glyphCell e))) in
  let r_Left := Int.SHORT (Z.quot (left (_invalidRect e)) (cx (_glyphCell e))) in
  let r_Bottom :=
    Int.SHORT (Z.quot (bottom (_invalidRect e)) (cy (_glyphCell e))) in
  let r_Right :=
    Int.SHORT (Z.quot (right (_invalidRect e)) (cx (_glyphCell e))) in
  let r_Bottom := Int.SHORT (r_Bottom - 1) in
  let r_Right := Int.SHORT (r_Right - 1) in
  SMALL_RECT.mk r_Left r_Top r_Right r_Bottom.

(** *** Device resources *)

Definition SetHwnd e (hwnd : HWND) : HRESULT * DxEngine :=
  (S_OK, Set_.hwndTarget hwnd e).

(** The result of the [EndDraw] that closes a batch left open is not
    looked at; every pointer is reset. *)
Definition _ReleaseDeviceResources e : DxEngine :=
  let e := Set_.haveDeviceResources false e in
  Set_.com noCom e.

(** One creation call: on failure the scope guard releases everything
    and the function returns the failure. *)
Definition step (hr : HRESULT) (e : DxEngine)
           (k : DxEngine -> HRESULT * DxEngine) : HRESULT * DxEngine :=
  if FAILED hr then (hr, _ReleaseDeviceResources e) else k e.

Definition hold (f : ComPtrs -> ComPtrs) e : DxEngine :=
  Set_.com (f (_com e)) e.

Definition _CreateDeviceResources (env : DeviceEnv) (createSwapChain : bool)
           e : HRESULT * DxEngine :=
  let e := if _haveDeviceResources e then _ReleaseDeviceResources e else e in
  step (CreateDXGIFactory1 env) e (fun e =>
  let e := hold (fun c => mkCom (_d2dBrushForeground c) (_d2dBrushBackground c)
                 (_d2dRenderTarget c) (_dxgiSurface c) (_dxgiSwapChain c)
                 (_dxgiOutput c) (_d3dDeviceContext c) (_d3dDevice c)
                 (_dxgiAdapter1 c) true) e in
  step (EnumAdapters1 env) e (fun e =>
  let e := hold (fun c => mkCom (_d2dBrushForeground c) (_d2dBrushBackground c)
                 (_d2dRenderTarget c) (_dxgiSurface c) (_dxgiSwapChain c)
                 (_dxgiOutput c) (_d3dDeviceContext c) (_d3dDevice c)
                 true (_dxgiFactory2 c)) e in
  step (D3D11CreateDevice env) e (fun e =>
  let e := hold (fun c => mkCom (_d2dBrushForeground c) (_d2dBrushBackground c)
                 (_d2dRenderTarget c) (_dxgiSurface c) (_dxgiSwapChain c)
                 (_dxgiOutput c) true true
                 (_dxgiAdapter1 c) (_dxgiFactory2 c)) e in
  step (EnumOutputs env) e (fun e =>
  let e := hold (fun c => mkCom (_d2dBrushForeground c) (_d2dBrushBackground c)
                 (_d2dRenderTarget c) (_dxgiSurface c) (_dxgiSwapChain c)
                 true (_d3dDeviceContext c) (_d3dDevice c)
                 (_dxgiAdapter1 c) (_dxgiFactory2 c)) e in
  let e := Set_.displaySizePixels (_GetClientSize env) e in
  let finish e :=
    let e := Set_.haveDeviceResources true e in
    let e := if _isPainting e
             then hold (fun c => mkCom (_d2dBrushForeground c)
                          (_d2dBrushBackground c)
                          (option_map (fun _ => true) (_d2dRenderTarget c))
                          (_dxgiSurface c) (_dxgiSwapChain c)
                          (_dxgiOutput c) (_d3dDeviceContext c) (_d3dDevice c)
                          (_dxgiAdapter1 c) (_dxgiFactory2 c)) e
             else e in
    (S_OK, e) in
  if createSwapChain then
    step (match GetClientRect env with inl err => err | inr _ => S_OK end) e
      (fun e =>
    step (CreateSwapChainForHwnd env) e (fun e =>
    let e := hold (fun c => mkCom (_d2dBrushForeground c)
                   (_d2dBrushBackground c) (_d2dRenderTarget c)
                   (_dxgiSurface c) true
                   (_dxgiOutput c) (_d3dDeviceContext c) (_d3dDevice c)
                   (_dxgiAdapter1 c) (_dxgiFactory2 c)) e in
    step (GetBuffer env) e (fun e =>
    let e := hold (fun c => mkCom (_d2dBrushForeground c)
                   (_d2dBrushBackground c) (_d2dRenderTarget c)
                   true (_dxgiSwapChain c)
                   (_dxgiOutput c) (_d3dDeviceContext c) (_d3dDevice c)
                   (_dxgiAdapter1 c) (_dxgiFactory2 c)) e in
    step (CreateDxgiSurfaceRenderTarget env) e (fun e =>
    let e := hold (fun c => mkCom (_d2dBrushForeground c)
                   (_d2dBrushBackground c) (Some false)
                   (_dxgiSurface c) (_dxgiSwapChain c)
                   (_dxgiOutput c) (_d3dDeviceContext c) (_d3dDevice c)
                   (_dxgiAdapter1 c) (_dxgiFactory2 c)) e in
    step (CreateSolidColorBrushBackground env) e (fun e =>
    let e := hold (fun c => mkCom (_d2dBrushForeground c)
                   true (_d2dRenderTarget c)
                   (_dxgiSurface c) (_dxgiSwapChain c)
                   (_dxgiOutput c) (_d3dDeviceContext c) (_d3dDevice c)
                   (_dxgiAdapter1 c) (_dxgiFactory2 c)) e in
    step (CreateSolidColorBrushForeground env) e (fun e =>
    let e := hold (fun c => mkCom true
                   (_d2dBrushBackground c) (_d2dRenderTarget c)
                   (_dxgiSurface c) (_dxgiSwapChain c)
                   (_dxgiOutput c) (_d3dDeviceContext c) (_d3dDevice c)
                   (_dxgiAdapter1 c) (_dxgiFactory2 c)) e in
    finish e))))))
  else finish e)))).

Definition _EnableDisplayAccess e (outputEnabled : bool)
  : HRESULT * DxEngine :=
  if Bool.eqb outputEnabled (_isEnabled e) then (E_NOT_VALID_STATE, e)
  else
    let e := Set_.isEnabled outputEnabled e in
    let e := if negb (_isEnabled e) then _ReleaseDeviceResources e else e in
    (S_OK, e).

Definition Enable e : HRESULT * DxEngine := _EnableDisplayAccess e true.
Definition Disable e : HRESULT * DxEngine := _EnableDisplayAccess e false.

End Engine.

(** ** Paint session and presentation *)

(** What the swap chain reads through [_presentParams] when it is handed
    to [Present1]. *)
Record PresentationPlan : Set := mkPlan {
  dirtyRects : list RECT.t;
  scrollRect : option RECT.t;
  scrollOffset : option POINT.t
}.

(** Results of the calls [Present] makes. *)
Record PresentEnv : Set := mkPresentEnv {
  Present1 : HRESULT;
  GetBuffer0 : HRESULT;
  GetBuffer1 : HRESULT
}.

(** [FAIL_FAST_IF_FAILED] ends the process; otherwise [Present] returns. *)
Inductive PresentOutcome : Set :=
| FailFast (handed : PresentationPlan)
| Returned (handed : option PresentationPlan) (hr : HRESULT) (e : DxEngine).

Section Session.
Import RECT SIZE POINT.

Implicit Type e : DxEngine.

Definition readRect e (p : Ptr) : option RECT.t :=
  match p with
  | addr m_presentDirty => Some (_presentDirty e)
  | addr m_presentScroll => Some (_presentScroll e)
  | _ => None
  end.

Definition readPoint e (p : Ptr) : option POINT.t :=
  match p with
  | addr m_presentOffset => Some (_presentOffset e)
  | _ => None
  end.

Definition readPlan e : PresentationPlan :=
  let p := _presentParams e in
  mkPlan (if DirtyRectsCount p =? 0 then []
          else match readRect e (pDirtyRects p) with
               | Some r => [r]
               | None => []
               end)
         (readRect e (pScrollRect p))
         (readPoint e (pScrollOffset p)).

Definition BeginDraw (c : ComPtrs) : ComPtrs :=
  mkCom (_d2dBrushForeground c) (_d2dBrushBackground c)
        (option_map (fun _ => true) (_d2dRenderTarget c))
        (_dxgiSurface c) (_dxgiSwapChain c) (_dxgiOutput c)
        (_d3dDeviceContext c) (_d3dDevice c) (_dxgiAdapter1 c)
        (_dxgiFactory2 c).

Definition EndDraw (c : ComPtrs) : ComPtrs :=
  mkCom (_d2dBrushForeground c) (_d2dBrushBackground c)
        (option_map (fun _ => false) (_d2dRenderTarget c))
        (_dxgiSurface c) (_dxgiSwapChain c) (_dxgiOutput c)
        (_d3dDeviceContext c) (_d3dDevice c) (_dxgiAdapter1 c)
        (_dxgiFactory2 c).

Definition StartPaint (env : DeviceEnv) e : HRESULT * DxEngine :=
  if _hwndTarget e =? INVALID_HANDLE_VALUE then (E_HANDLE, e)
  else if _isPainting e then (E_NOT_VALID_STATE, e)
  else if _isEnabled e then
    let clientSize := _GetClientSize env in
    let (hr, e) :=
      if negb (_haveDeviceResources e)
         || negb (cy (_displaySizePixels e) =? cy clientSize)
         || negb (cx (_displaySizePixels e) =? cx clientSize)
      then _CreateDeviceResources env true e
      else (S_OK, e) in
    if FAILED hr then (hr, e)
    else
      let e := hold BeginDraw e in
      let e := Set_.isPainting true e in
      (S_OK, e)
  else (S_OK, e).

(** [hrEndDraw] is what the render target's [EndDraw] returns. *)
Definition EndPaint (hrEndDraw : HRESULT) e : HRESULT * DxEngine :=
  if negb (_isPainting e) then (E_INVALIDARG, e)
  else
    let (hr, e) :=
      if _haveDeviceResources e then
        let e := Set_.isPainting false e in
        let e := hold EndDraw e in
        let hr := hrEndDraw in
        if SUCCEEDED hr then
          let e :=
            if negb (cy (_invalidScroll e) =? 0)
               || negb (cx (_invalidScroll e) =? 0)
            then
              let e := Set_.presentDirty (_invalidRect e) e in
              let display := _GetDisplayRect e in
              let e := Set_.presentScroll
                         (snd (User32.SubtractRect display (_presentDirty e)))
                         e in
              let e := Set_.presentOffset
                         (POINT.mk (cx (_invalidScroll e))
                                   (cy (_invalidScroll e))) e in
              let e := Set_.presentParams
                         (mkParams 1 (addr m_presentDirty)
                                   (pScrollRect (_presentParams e))
                                   (pScrollOffset (_presentParams e))) e in
              let e := Set_.presentParams
                         (mkParams (DirtyRectsCount (_presentParams e))
                                   (pDirtyRects (_presentParams e))
                                   (addr m_presentScroll)
                                   (addr m_presentOffset)) e in
              if User32.IsRectEmpty (_presentScroll e) then
                Set_.presentParams
                  (mkParams (DirtyRectsCount (_presentParams e))
                            (pDirtyRects (_presentParams e))
                            nullptr nullptr) e
              else e
            else e in
          (hr, Set_.presentReady true e)
        else
          let e := Set_.presentReady false e in
          (hr, _ReleaseDeviceResources e)
      else (S_OK, e) in
    let e := Set_.invalidRect (RECT.mk 0 0 0 0) e in
    let e := Set_.isInvalidUsed false e in
    let e := Set_.invalidScroll (SIZE.mk 0 0) e in
    (hr, e).

Definition _CopyFrontToBack (env : PresentEnv) : HRESULT :=
  if FAILED (GetBuffer0 env) then GetBuffer0 env
  else if FAILED (GetBuffer1 env) then GetBuffer1 env
  else S_OK.

Definition Present (env : PresentEnv) e : PresentOutcome :=
  if _presentReady e then
    let handed := readPlan e in
    if FAILED (Present1 env) then FailFast handed
    else
      let hr := _CopyFrontToBack env in
      if FAILED hr then Returned (Some handed) hr e
      else
        let e := Set_.presentReady false e in
        let e := Set_.presentDirty (RECT.mk 0 0 0 0) e in
        let e := Set_.presentOffset (POINT.mk 0 0) e in
        let e := Set_.presentScroll (RECT.mk 0 0 0 0) e in
        let e := Set_.presentParams zeroParams e in
        Returned (Some handed) S_OK e
  else Returned None S_OK e.

End Session.

(** ** Painters *)

Module D2D1_POINT_2F.
Record t : Set := mk { x : float; y : float }.
End D2D1_POINT_2F.

Module D2D1_RECT_F.
Record t : Set := mk { left : float; top : float; right : float; bottom : float }.
End D2D1_RECT_F.

Record DWRITE_GLYPH_RUN : Set := mkRun {
  fontEmSize : float;
  glyphCount : Z;
  glyphIndices : list Z;
  glyphAdvances : list float
}.

(** The arguments a text layout is created from. *)
Record IDWriteTextLayout : Set := mkLayout {
  layoutString : list Z;
  layoutLength : Z;
  maxWidth : float;
  maxHeight : float
}.

Inductive Brush : Set :=
| BrushBackground
| BrushForeground
| BrushCreated (color : Z).

Inductive DrawOptions : Set :=
| D2D1_DRAW_TEXT_OPTIONS_NONE
| D2D1_DRAW_TEXT_OPTIONS_ENABLE_COLOR_FONT.

(** Calls made on the render target. *)
Inductive DrawCall : Set :=
| FillRectangle (rect : D2D1_RECT_F.t) (brush : Brush)
| DrawRectangle (rect : D2D1_RECT_F.t) (brush : Brush)
| DrawGlyphRun (origin : D2D1_POINT_2F.t) (run : DWRITE_GLYPH_RUN) (brush : Brush)
| DrawTextLayout (origin : D2D1_POINT_2F.t) (layout : IDWriteTextLayout)
                 (brush : Brush) (options : DrawOptions).

(** What [IDWriteTextAnalyzer1::GetTextComplexity] answers: its result,
    the two out parameters and the glyph indices it wrote. *)
Record TextComplexity : Set := mkComplexity {
  complexityResult : HRESULT;
  isTextSimple : bool;
  textLengthRead : Z;
  glyphIndicesWritten : list Z
}.

(** DirectWrite as the line painter sees it. *)
Record DWriteEnv : Set := mkDWrite {
  GetTextComplexity : list Z -> Z -> TextComplexity;
  CreateTextLayout : list Z -> Z -> float -> float -> HRESULT
}.



(** What [CATCH_RETURN] makes of a [gsl::narrowing_error]:
    [HRESULT_FROM_WIN32(ERROR_UNHANDLED_EXCEPTION)]. *)
Definition E_UNHANDLED_EXCEPTION : HRESULT := Eval cbv in Int.LONG 0x8007023E.

Section Painters.

(** The cursor height limits are static members of the base class,
    declared outside this file. *)
Variable s_ulMinCursorHeightPercent : Z.
Variable s_ulMaxCursorHeightPercent : Z.

Implicit Type e : DxEngine.


Definition _CreateTextLayout (dw : DWriteEnv) e (string : list Z)
           (stringLength : Z) : HRESULT * IDWriteTextLayout :=
  let width := F32.of_Z (SIZE.cx (_displaySizePixels e)) in
  let height := if negb (SIZE.cy (_glyphCell e) =? 0)
                then F32.of_Z (SIZE.cy (_glyphCell e))
                else F32.of_Z (SIZE.cy (_displaySizePixels e)) in
  (CreateTextLayout dw string (Int.UINT32 stringLength) width height,
   mkLayout string (Int.UINT32 stringLength) width height).

(** The glyph buffer after the analyzer wrote into it. *)
Definition writeGlyphs (written buffer : list Z) : list Z :=
  firstn (length buffer) (written ++ skipn (length written) buffer).

Definition PaintBufferLine (dw : DWriteEnv) e (pwsLine : list Z)
           (cchLine : Z) (coord : COORD.t) : HRESULT * list DrawCall :=
  let origin :=
    D2D1_POINT_2F.mk
      (F32.of_Z (Int.LONG (COORD.X coord * SIZE.cx (_glyphCell e))))
      (F32.of_Z (Int.LONG (COORD.Y coord * SIZE.cy (_glyphCell e)))) in
  let rect_left := D2D1_POINT_2F.x origin in
  let rect_top := D2D1_POINT_2F.y origin in
  let rect_right :=
    F32.add rect_left
      (F32.of_Z (Int.size_t (cchLine * Int.size_t (SIZE.cx (_glyphCell e))))) in
  let rect_bottom := F32.add rect_top (F32.of_Z (SIZE.cy (_glyphCell e))) in
  let rect := D2D1_RECT_F.mk rect_left rect_top rect_right rect_bottom in
  let drawn := [FillRectangle rect BrushBackground] in
  let _glyphIds := repeat 0 (Z.to_nat (Z.max cchLine 1)) in
  (* gsl::narrow<UINT32>(cchLine) *)
  if negb (Int.UINT32 cchLine =? cchLine) then (E_UNHANDLED_EXCEPTION, drawn)
  else
    let q := GetTextComplexity dw pwsLine cchLine in
    if FAILED (complexityResult q) then (complexityResult q, drawn)
    else
      let _glyphIds := writeGlyphs (glyphIndicesWritten q) _glyphIds in
      if isTextSimple q && (textLengthRead q =? cchLine) then
        let _glyphAdvances :=
          repeat (F32.of_Z (SIZE.cx (_glyphCell e))) (Z.to_nat cchLine) in
        let run := mkRun (_fontSize e) cchLine _glyphIds _glyphAdvances in
        let origin :=
          D2D1_POINT_2F.mk
            (D2D1_POINT_2F.x origin)
            (F32.add (D2D1_POINT_2F.y origin)
                     (F32.of_Z (SIZE.cy (_glyphCell e)))) in
        let origin :=
          D2D1_POINT_2F.mk
            (D2D1_POINT_2F.x origin)
            (F32.sub (D2D1_POINT_2F.y origin)
                     (F32.mul (_baseline e)
                              (F32.of_Z (SIZE.cy (_glyphCell e))))) in
        (S_OK, drawn ++ [DrawGlyphRun origin run BrushForeground])
      else
        let (hr, layout) := _CreateTextLayout dw e pwsLine cchLine in
        if FAILED hr then (hr, drawn)
        else
          (S_OK,
           drawn ++ [DrawTextLayout origin layout BrushForeground
                       D2D1_DRAW_TEXT_OPTIONS_ENABLE_COLOR_FONT]).



End Painters.

(** ** Sequences of invalidate calls *)

Inductive InvalidateCall : Set :=
| invalidateCells (rect : SMALL_RECT.t)
| invalidatePixels (rect : RECT.t).

(** The rectangle of a call in pixel space. *)
Definition callPixels (glyphCell : SIZE.t) (c : InvalidateCall) : RECT.t :=
  match c with
  | invalidateCells sr => cellRegion glyphCell sr
  | invalidatePixels rc => rc
  end.

Definition applyCall (e : DxEngine) (c : InvalidateCall) : DxEngine :=
  match c with
  | invalidateCells sr => snd (Invalidate e sr)
  | invalidatePixels rc => snd (InvalidateSystem e rc)
  end.

Definition runCalls (e : DxEngine) (cs : list InvalidateCall) : DxEngine :=
  fold_left applyCall cs e.

(** *** The dirty rectangle as the specification words it

    The bounding union of all supplied rectangles, then clamped to the
    display. *)

Definition unionOf (a b : RECT.t) : RECT.t := snd (User32.UnionRect a b).

Definition clampTo (display r : RECT.t) : RECT.t :=
  snd (User32.IntersectRect r display).

Definition boundingUnion (rs : list RECT.t) : RECT.t :=
  match rs with
  | [] => User32.SetRectEmpty
  | r :: rest => fold_left unionOf rest r
  end.

Definition specDirty (e : DxEngine) (cs : list InvalidateCall) : RECT.t :=
  clampTo (_GetDisplayRect e)
          (boundingUnion (map (callPixels (_glyphCell e)) cs)).

(** *** Rectangle predicates *)

Definition proper (r : RECT.t) : Prop :=
  RECT.left r < RECT.right r /\ RECT.top r < RECT.bottom r.

(** [r] is not empty and shares area with [d]. *)
Definition overlaps (d r : RECT.t) : Prop :=
  proper d /\ proper r
  /\ RECT.left r < RECT.right d /\ RECT.left d < RECT.right r
  /\ RECT.top r < RECT.bottom d /\ RECT.top d < RECT.bottom r.

(** [r] is not empty and lies inside [d]. *)
Definition inside (d r : RECT.t) : Prop :=
  proper r
  /\ RECT.left d <= RECT.left r /\ RECT.right r <= RECT.right d
  /\ RECT.top d <= RECT.top r /\ RECT.bottom r <= RECT.bottom d.

(** Every edge of [r] lies between the matching edges of [d]. *)
Definition edgesWithin (d r : RECT.t) : Prop :=
  RECT.left d <= RECT.left r <= RECT.right d
  /\ RECT.left d <= RECT.right r <= RECT.right d
  /\ RECT.top d <= RECT.top r <= RECT.bottom d
  /\ RECT.top d <= RECT.bottom r <= RECT.bottom d.

(** The pixel rectangle a character rectangle stands for: each edge
    scaled by the cell size, right and bottom one cell further. *)
Definition pixelExpansion (glyphCell : SIZE.t) (sr : SMALL_RECT.t) : RECT.t :=
  RECT.mk (SMALL_RECT.Left sr * SIZE.cx glyphCell)
          (SMALL_RECT.Top sr * SIZE.cy glyphCell)
          ((SMALL_RECT.Right sr + 1) * SIZE.cx glyphCell)
          ((SMALL_RECT.Bottom sr + 1) * SIZE.cy glyphCell).

Definition isSMALL_RECT (sr : SMALL_RECT.t) : Prop :=
  Int.isSHORT (SMALL_RECT.Left sr) /\ Int.isSHORT (SMALL_RECT.Top sr)
  /\ Int.isSHORT (SMALL_RECT.Right sr) /\ Int.isSHORT (SMALL_RECT.Bottom sr).

Definition isSIZE (s : SIZE.t) : Prop :=
  Int.isLONG (SIZE.cx s) /\ Int.isLONG (SIZE.cy s).

(** Componentwise bounding box and componentwise intersection. *)
Definition join (a b : RECT.t) : RECT.t :=
  RECT.mk (Z.min (RECT.left a) (RECT.left b)) (Z.min (RECT.top a) (RECT.top b))
          (Z.max (RECT.right a) (RECT.right b))
          (Z.max (RECT.bottom a) (RECT.bottom b)).

Definition meet (a d : RECT.t) : RECT.t :=
  RECT.mk (Z.max (RECT.left a) (RECT.left d)) (Z.max (RECT.top a) (RECT.top d))
          (Z.min (RECT.right a) (RECT.right d))
          (Z.min (RECT.bottom a) (RECT.bottom d)).

(** The dirty rectangle after further calls on a marked region: each
    rectangle is united with what is there and the result clamped. *)
Definition accumulate (display acc : RECT.t) (rs : list RECT.t) : RECT.t :=
  fold_left (fun acc r => clampTo display (unionOf acc r)) rs acc.

(** An idle engine on a display of the given pixel size with the given
    glyph cell: the state after construction, a font update and a first
    frame, with a baseline ratio of zero. *)
Definition engineWith (display glyphCell : SIZE.t) : DxEngine :=
  Set_.glyphCell glyphCell
    (Set_.displaySizePixels display (DxEngine_ctor F32.zero)).

(** What a clamp or a subtraction from the display leaves: the null
    rectangle or a rectangle inside the display. *)
Definition nullOrInside (d r : RECT.t) : Prop :=
  r = User32.SetRectEmpty \/ inside d r.

(** The plan the swap chain was handed, if [Present] got that far. *)
Definition handed (o : PresentOutcome) : option PresentationPlan :=
  match o with
  | FailFast p => Some p
  | Returned h _ _ => h
  end.

(** A window whose client area is [w] by [h] pixels, on a machine where
    every creation call succeeds. *)
Definition healthyEnv (w h : Z) : DeviceEnv :=
  mkEnv (inr (RECT.mk 0 0 w h)) S_OK S_OK S_OK S_OK S_OK S_OK S_OK S_OK S_OK.

Definition healthyPresent : PresentEnv := mkPresentEnv S_OK S_OK S_OK.

(** Construction, an 8 by 16 glyph cell with a baseline ratio of zero, a
    window of 800 by 384 pixels, [Enable], [StartPaint]: an engine in an
    open paint session. *)
Definition paintingEngine : DxEngine :=
  let e := Set_.glyphCell (SIZE.mk 8 16) (DxEngine_ctor F32.zero) in
  let e := snd (SetHwnd e 1) in
  let e := snd (Enable e) in
  snd (StartPaint (healthyEnv 800 384) e).

(** Whether a line's draw calls contain a glyph run, the mark of the
    uniform-advance path. *)
Definition tookFastPath (calls : list DrawCall) : bool :=
  existsb (fun c => match c with DrawGlyphRun _ _ _ => true | _ => false end)
          calls.


(** An analyzer that finds every run simple and reads all of it, and a
    factory that always delivers a layout. *)
Definition plainDWrite : DWriteEnv :=
  mkDWrite (fun text len => mkComplexity S_OK true len text)
           (fun _ _ _ _ => S_OK).

(** An analyzer that finds no run simple, as for combining marks or
    right-to-left text. *)
Definition shapingDWrite : DWriteEnv :=
  mkDWrite (fun text len => mkComplexity S_OK false 0 [])
           (fun _ _ _ _ => S_OK).

(** An analyzer whose complexity query fails. *)
Definition failingDWrite : DWriteEnv :=
  mkDWrite (fun text len => mkComplexity E_INVALIDARG false 0 [])
           (fun _ _ _ _ => S_OK).

(** Whether a line's draw calls contain a text layout, the mark of the
    fallback path. *)
Definition tookFallback (calls : list DrawCall) : bool :=
  existsb (fun c => match c with DrawTextLayout _ _ _ _ => true | _ => false end)
          calls.

(** ** Pixels *)

(** The pixel ([px], [py]) lies in [r]; right and bottom are exclusive. *)
Definition covers (r : RECT.t) (px py : Z) : Prop :=
  RECT.left r <= px < RECT.right r /\ RECT.top r <= py < RECT.bottom r.

(** ** Sequences of public calls *)

Inductive Op : Set :=
| OpSetHwnd (hwnd : HWND)
| OpEnable
| OpDisable
| OpInvalidate (region : SMALL_RECT.t)
| OpInvalidateSystem (dirty : RECT.t)
| OpInvalidateSelection (rectangles : list SMALL_RECT.t)
| OpInvalidateScroll (delta : COORD.t)
| OpInvalidateAll
| OpStartPaint (env : DeviceEnv)
| OpEndPaint (hrEndDraw : HRESULT)
| OpPresent (env : PresentEnv).

(** The engine after one call.  A [Present] that fails fast ends the
    process; the engine is then left as it was. *)
Definition applyOp (e : DxEngine) (op : Op) : DxEngine :=
  match op with
  | OpSetHwnd hwnd => snd (SetHwnd e hwnd)
  | OpEnable => snd (Enable e)
  | OpDisable => snd (Disable e)
  | OpInvalidate region => snd (Invalidate e region)
  | OpInvalidateSystem dirty => snd (InvalidateSystem e dirty)
  | OpInvalidateSelection rectangles => snd (InvalidateSelection e rectangles)
  | OpInvalidateScroll delta => snd (InvalidateScroll e delta)
  | OpInvalidateAll => snd (InvalidateAll e)
  | OpStartPaint env => snd (StartPaint env e)
  | OpEndPaint hrEndDraw => snd (EndPaint hrEndDraw e)
  | OpPresent env =>
      match Present env e with
      | FailFast _ => e
      | Returned _ _ e' => e'
      end
  end.

Definition runOps (e : DxEngine) (ops : list Op) : DxEngine :=
  fold_left applyOp ops e.

(** Every device pointer held, the render target inside a draw batch or
    not. *)
Definition allHeld (drawing : bool) : ComPtrs :=
  mkCom true true (Some drawing) true true true true true true true.

(** Device resources are complete or absent: with [_haveDeviceResources]
    set every pointer is held, the draw batch is open exactly while
    painting and the engine is enabled; without it no pointer is held. *)
Definition resourcesSound (e : DxEngine) : Prop :=
  if _haveDeviceResources e
  then _com e = allHeld (_isPainting e) /\ _isEnabled e = true
  else _com e = noCom.

(** Every creation call answers with a success code and the client
    rectangle can be read. *)
Definition succeeds (env : DeviceEnv) : bool :=
  negb (FAILED (CreateDXGIFactory1 env))
  && negb (FAILED (EnumAdapters1 env))
  && negb (FAILED (D3D11CreateDevice env))
  && negb (FAILED (EnumOutputs env))
  && match GetClientRect env with
     | inr _ => true
     | inl err => negb (FAILED err)
     end
  && negb (FAILED (CreateSwapChainForHwnd env))
  && negb (FAILED (GetBuffer env))
  && negb (FAILED (CreateDxgiSurfaceRenderTarget env))
  && negb (FAILED (CreateSolidColorBrushBackground env))
  && negb (FAILED (CreateSolidColorBrushForeground env)).

(** The answers of the creation calls [_CreateDeviceResources] makes
    when it builds the whole pipeline, in the order it makes them. *)
Definition creationCalls (env : DeviceEnv) : list HRESULT :=
  [CreateDXGIFactory1 env; EnumAdapters1 env; D3D11CreateDevice env;
   EnumOutputs env;
   match GetClientRect env with inl err => err | inr _ => S_OK end;
   CreateSwapChainForHwnd env; GetBuffer env;
   CreateDxgiSurfaceRenderTarget env;
   CreateSolidColorBrushBackground env;
   CreateSolidColorBrushForeground env].

(** The first failure among the answers [calls], if any. *)
Definition firstFailure (calls : list HRESULT) : option HRESULT :=
  find FAILED calls.

(** A run of scroll invalidations. *)
Definition scrollAll (e : DxEngine) (deltas : list COORD.t) : DxEngine :=
  fold_left (fun e d => snd (InvalidateScroll e d)) deltas e.

(** The invalidation tracker of [e'] is that of [e]. *)
Definition sameTracker (e e' : DxEngine) : Prop :=
  _isInvalidUsed e' = _isInvalidUsed e
  /\ _invalidRect e' = _invalidRect e
  /\ _invalidScroll e' = _invalidScroll e.

(** The members that describe the device and the session. *)
Definition deviceState (e : DxEngine) : bool * ComPtrs * bool * bool :=
  (_haveDeviceResources e, _com e, _isPainting e, _isEnabled e).

(** Whether [StartPaint] has to build device resources: none exist or
    the window's client size is not the display size. *)
Definition needsResources (env : DeviceEnv) (e : DxEngine) : bool :=
  negb (_haveDeviceResources e)
  || negb (SIZE.cy (_displaySizePixels e) =? SIZE.cy (_GetClientSize env))
  || negb (SIZE.cx (_displaySizePixels e) =? SIZE.cx (_GetClientSize env)).

(** The members that describe the window and the font. *)
Definition windowState (e : DxEngine) : SIZE.t * HWND * SIZE.t :=
  (_displaySizePixels e, _hwndTarget e, _glyphCell e).

(** ** Colours *)

(** [DxEngine::s_ColorFFromColorRef]: the packed value the
    [D2D1::ColorF] constructor is given for a GDI [COLORREF]. *)
Definition s_ColorFFromColorRef (color : Z) : Z :=
  let rgb :=
    Int.UINT32
      (Z.lor (Z.lor (Z.shiftl (Z.land color 0x0000FF) 16)
                    (Z.land color 0x00FF00))
             (Z.shiftr (Z.land color 0xFF0000) 16)) in
  rgb.

(** The byte of [v] that starts at bit [k]. *)
Definition byteAt (k v : Z) : Z := Z.land (Z.shiftr v k) 0xFF.

(** ** The VT engine's rectangle helper ([src/renderer/vt/math.cpp]) *)

Module VtEngine.

(** [_OrRect]: the rectangle left in [pRectExisting]. *)
Definition _OrRect (pRectExisting pRectToOr : SMALL_RECT.t) : SMALL_RECT.t :=
  SMALL_RECT.mk
    (Z.min (SMALL_RECT.Left pRectExisting) (SMALL_RECT.Left pRectToOr))
    (Z.min (SMALL_RECT.Top pRectExisting) (SMALL_RECT.Top pRectToOr))
    (Z.max (SMALL_RECT.Right pRectExisting) (SMALL_RECT.Right pRectToOr))
    (Z.max (SMALL_RECT.Bottom pRectExisting) (SMALL_RECT.Bottom pRectToOr)).

(** [outer] contains [inner]; all four edges are inclusive. *)
Definition contains (outer inner : SMALL_RECT.t) : Prop :=
  SMALL_RECT.Left outer <= SMALL_RECT.Left inner
  /\ SMALL_RECT.Top outer <= SMALL_RECT.Top inner
  /\ SMALL_RECT.Right inner <= SMALL_RECT.Right outer
  /\ SMALL_RECT.Bottom inner <= SMALL_RECT.Bottom outer.

End VtEngine.

(** ** The WDDM console engine ([src/renderer/wddmcon/WddmConRenderer.cpp])

    The engine keeps, for every display row, the characters shown before
    ([Old]) and the characters to show ([New]).  The row array and the two
    character arrays of a row are lists; a read or write outside an
    array, which the C++ leaves undefined, makes a function return
    [None].  The members are declared in the engine's header, outside
    this file; the display height and width are taken as 32-bit
    integers that convert to [LONG], [SHORT] and [size_t] where the
    code assigns or compares them. *)

Module WddmCon.

Record CD_IO_CHARACTER : Set := mkChar { Character : Z; Atribute : Z }.

Record CD_IO_ROW_INFORMATION : Set := mkRow {
  Index : Z;
  Old : list CD_IO_CHARACTER;
  New : list CD_IO_CHARACTER
}.

Record WddmConEngine : Set := mkWddm {
  _hWddmConCtx : Z;
  _displayHeight : Z;
  _displayWidth : Z;
  _displayState : list CD_IO_ROW_INFORMATION;
  _currentLegacyColorAttribute : Z
}.

Definition DEFAULT_COLOR_ATTRIBUTE : Z := 0xC.
Definition DEFAULT_FONT_WIDTH : Z := 8.
Definition DEFAULT_FONT_HEIGHT : Z := 12.

(** The constructor; the null row array has no rows. *)
Definition WddmConEngine_ctor : WddmConEngine :=
  mkWddm INVALID_HANDLE_VALUE 0 0 [] DEFAULT_COLOR_ATTRIBUTE.

Definition IsInitialized (e : WddmConEngine) : bool :=
  negb (_hWddmConCtx e =? INVALID_HANDLE_VALUE).

(** [l] with element [i] replaced, if there is one. *)
Fixpoint store {A : Set} (i : nat) (v : A) (l : list A) : option (list A) :=
  match l, i with
  | [], _ => None
  | _ :: rest, O => Some (v :: rest)
  | h :: rest, S i' =>
      match store i' v rest with
      | Some rest' => Some (h :: rest')
      | None => None
      end
  end.

(** The body both paint loops share, on cell [col] of row [rowIndex]:
    the old character takes the new one's value and the new character
    becomes [newChar]. *)
Definition shiftCell (rowIndex col : nat) (newChar : CD_IO_CHARACTER)
           (state : list CD_IO_ROW_INFORMATION)
  : option (list CD_IO_ROW_INFORMATION) :=
  match nth_error state rowIndex with
  | None => None
  | Some row =>
      match nth_error (New row) col with
      | None => None
      | Some current =>
          match store col current (Old row), store col newChar (New row) with
          | Some old', Some new' =>
              store rowIndex (mkRow (Index row) old' new') state
          | _, _ => None
          end
      end
  end.

(** The blank the background is painted with: [L' '] with attribute 0. *)
Definition blank : CD_IO_CHARACTER := mkChar 32 0.

(** The inner loop of [PaintBackground], [count] columns from [colIndex]. *)
Fixpoint backgroundCols (count : nat) (rowIndex colIndex : nat)
         (state : list CD_IO_ROW_INFORMATION)
  : option (list CD_IO_ROW_INFORMATION) :=
  match count with
  | O => Some state
  | S count' =>
      match shiftCell rowIndex colIndex blank state with
      | None => None
      | Some state' => backgroundCols count' rowIndex (S colIndex) state'
      end
  end.

(** The outer loop of [PaintBackground], [count] rows from [rowIndex]. *)
Fixpoint backgroundRows (count : nat) (rowIndex : nat) (width : nat)
         (state : list CD_IO_ROW_INFORMATION)
  : option (list CD_IO_ROW_INFORMATION) :=
  match count with
  | O => Some state
  | S count' =>
      match backgroundCols width rowIndex 0 state with
      | None => None
      | Some state' => backgroundRows count' (S rowIndex) width state'
      end
  end.

Definition setState (state : list CD_IO_ROW_INFORMATION) (e : WddmConEngine)
  : WddmConEngine :=
  mkWddm (_hWddmConCtx e) (_displayHeight e) (_displayWidth e) state
         (_currentLegacyColorAttribute e).

Definition PaintBackground (e : WddmConEngine)
  : option (HRESULT * WddmConEngine) :=
  if negb (_hWddmConCtx e =? INVALID_HANDLE_VALUE) then
    match backgroundRows (Z.to_nat (_displayHeight e)) 0
                         (Z.to_nat (_displayWidth e)) (_displayState e) with
    | Some state => Some (S_OK, setState state e)
    | None => None
    end
  else Some (E_HANDLE, e).

(** An array index: a negative one is outside every array. *)
Definition arrayIndex (z : Z) : option nat :=
  if 0 <=? z then Some (Z.to_nat z) else None.

(** The loop of [PaintBufferLine], [count] characters from [i]. *)
Fixpoint lineCells (count : nat) (i : nat) (pwsLine : list Z)
         (coord : COORD.t) (attribute : Z)
         (state : list CD_IO_ROW_INFORMATION)
  : option (list CD_IO_ROW_INFORMATION) :=
  match count with
  | O => Some state
  | S count' =>
      match arrayIndex (COORD.Y coord),
            arrayIndex (COORD.X coord + Z.of_nat i),
            nth_error pwsLine i with
      | Some y, Some x, Some ch =>
          match shiftCell y x (mkChar ch attribute) state with
          | None => None
          | Some state' =>
              lineCells count' (S i) pwsLine coord attribute state'
          end
      | _, _, _ => None
      end
  end.

(** [hrUpdate] is what [WDDMConUpdateDisplay] returns; the row in the
    result is the one it is handed. *)
Definition PaintBufferLine (hrUpdate : HRESULT) (e : WddmConEngine)
           (pwsLine : list Z) (cchLine : Z) (coord : COORD.t)
  : option (HRESULT * WddmConEngine * option CD_IO_ROW_INFORMATION) :=
  if negb (_hWddmConCtx e =? INVALID_HANDLE_VALUE) then
    let count := Z.to_nat (Z.min cchLine (Int.size_t (_displayWidth e))) in
    match lineCells count 0 pwsLine coord (_currentLegacyColorAttribute e)
                    (_displayState e) with
    | None => None
    | Some state =>
        match arrayIndex (COORD.Y coord) with
        | None => None
        | Some y =>
            match nth_error state y with
            | None => None
            | Some row => Some (hrUpdate, setState state e, Some row)
            end
        end
    end
  else Some (E_HANDLE, e, None).

(** [hrBatch] is what the driver's batch call returns. *)
Definition StartPaint (hrBatch : HRESULT) (e : WddmConEngine) : HRESULT :=
  if _hWddmConCtx e =? INVALID_HANDLE_VALUE then E_HANDLE else hrBatch.

Definition EndPaint (hrBatch : HRESULT) (e : WddmConEngine) : HRESULT :=
  if _hWddmConCtx e =? INVALID_HANDLE_VALUE then E_HANDLE else hrBatch.

Definition UpdateDrawingBrushes (e : WddmConEngine)
           (legacyColorAttribute : Z) : HRESULT * WddmConEngine :=
  (S_OK, mkWddm (_hWddmConCtx e) (_displayHeight e) (_displayWidth e)
                (_displayState e) legacyColorAttribute).

Definition GetDirtyRectInChars (e : WddmConEngine) : SMALL_RECT.t :=
  let r_Bottom := if 0 <? _displayHeight e
                  then Int.SHORT (Int.LONG (_displayHeight e - 1)) else 0 in
  let r_Right := if 0 <? _displayWidth e
                 then Int.SHORT (Int.LONG (_displayWidth e - 1)) else 0 in
  SMALL_RECT.mk 0 0 r_Right r_Bottom.

Definition GetDisplaySize (e : WddmConEngine) : RECT.t :=
  RECT.mk 0 0 (Int.LONG (_displayHeight e)) (Int.LONG (_displayHeight e)).

Definition GetFontSize : COORD.t :=
  COORD.mk DEFAULT_FONT_WIDTH DEFAULT_FONT_HEIGHT.

(** The rows have the engine's height and every row its width. *)
Definition wellFormed (e : WddmConEngine) : Prop :=
  0 <= _displayHeight e /\ 0 <= _displayWidth e
  /\ length (_displayState e) = Z.to_nat (_displayHeight e)
  /\ Forall (fun row => length (Old row) = Z.to_nat (_displayWidth e)
                        /\ length (New row) = Z.to_nat (_displayWidth e))
            (_displayState e).

(** An initialised engine of [height] rows showing [rows]. *)
Definition showing (rows : list CD_IO_ROW_INFORMATION) (width : Z)
  : WddmConEngine :=
  mkWddm 1 (Z.of_nat (length rows)) width rows DEFAULT_COLOR_ATTRIBUTE.

(** What [PaintBackground] makes of a row of [width] cells. *)
Definition painted (width : nat) (row : CD_IO_ROW_INFORMATION) :=
  mkRow (Index row) (New row) (repeat blank width).

(** What [PaintBufferLine] makes of a row when it writes the first [n]
    characters of [text] from column [x] on. *)
Definition written (x n : nat) (text : list Z) (attribute : Z)
           (row : CD_IO_ROW_INFORMATION) : CD_IO_ROW_INFORMATION :=
  mkRow (Index row)
        (firstn x (Old row) ++ firstn n (skipn x (New row))
           ++ skipn (x + n) (Old row))
        (firstn x (New row) ++ map (fun ch => mkChar ch attribute) (firstn n text)
           ++ skipn (x + n) (New row)).

End WddmCon.

(** * Facts *)

(** ** Machine integers *)

Module IntFacts.
Import Int.

Ltac pow2 :=
  change (2 ^ (32 - 1)) with 2147483648 in *;
  change (2 ^ (16 - 1)) with 32768 in *;
  change (2 ^ 32) with 4294967296 in *;
  change (2 ^ 31) with 2147483648 in *;
  change (2 ^ 16) with 65536 in *;
  change (2 ^ 15) with 32768 in *.

Lemma LONG_id x : isLONG x -> LONG x = x.
Proof.
  unfold isLONG, LONG, wrap. pow2. intros H. rewrite Z.mod_small; lia.
Qed.

Lemma SHORT_id x : isSHORT x -> SHORT x = x.
Proof.
  unfold isSHORT, SHORT, wrap. pow2. intros H. rewrite Z.mod_small; lia.
Qed.


Lemma LONG_range x : isLONG (LONG x).
Proof.
  unfold isLONG, LONG, wrap. pow2.
  pose proof (Z.mod_pos_bound (x + 2147483648) 4294967296). lia.
Qed.

(** A wrapped operand may be unwrapped under a wrapped sum. *)
Lemma SHORT_add_l a b : SHORT (SHORT a + b) = SHORT (a + b).
Proof.
  unfold SHORT, wrap. pow2. f_equal.
  replace ((a + 32768) mod 65536 - 32768 + b + 32768)
    with ((a + 32768) mod 65536 + b) by lia.
  replace (a + b + 32768) with ((a + 32768) + b) by lia.
  now rewrite Zplus_mod_idemp_l.
Qed.

End IntFacts.

(** ** User32 rectangles *)

Module RectFacts.
Import RECT User32.

Lemma eqb_spec a b : reflect (a = b) (RECT.eqb a b).
Proof.
  destruct a as [l1 t1 r1 b1], b as [l2 t2 r2 b2]; unfold RECT.eqb; cbn.
  destruct (Z.eqb_spec l1 l2), (Z.eqb_spec t1 t2),
           (Z.eqb_spec r1 r2), (Z.eqb_spec b1 b2);
    cbn; constructor; congruence.
Qed.

(** Splits every integer comparison in the goal. *)
Ltac cmp :=
  repeat match goal with
    | |- context [?a <=? ?b] => destruct (Z.leb_spec a b)
    | |- context [?a <? ?b] => destruct (Z.ltb_spec a b)
    | |- context [?a =? ?b] => destruct (Z.eqb_spec a b)
    end; cbn [orb andb negb fst snd] in *.

Ltac rect_eq := f_equal; lia.

Lemma IsRectEmpty_proper r : IsRectEmpty r = false <-> proper r.
Proof.
  unfold IsRectEmpty, proper. destruct r as [l t r b]; cbn.
  cmp; split; intros; try discriminate; try lia; reflexivity.
Qed.

Lemma UnionRect_proper a b :
  proper a -> proper b -> unionOf a b = join a b.
Proof.
  unfold proper, unionOf, UnionRect, IsRectEmpty, join.
  destruct a, b; cbn. intros. cmp; try lia. reflexivity.
Qed.

Lemma IntersectRect_overlaps d r :
  overlaps d r -> clampTo d r = meet r d.
Proof.
  unfold overlaps, proper, clampTo, IntersectRect, IsRectEmpty, meet.
  destruct d, r; cbn. intros. cmp; try lia. reflexivity.
Qed.

Lemma IntersectRect_inside d r : inside d r -> clampTo d r = r.
Proof.
  unfold inside, proper, clampTo, IntersectRect, IsRectEmpty.
  destruct d, r; cbn. intros. cmp; try lia. rect_eq.
Qed.

(** Whatever is clamped comes out null or inside the display. *)
Lemma clampTo_cases d r :
  clampTo d r = SetRectEmpty \/ inside d (clampTo d r).
Proof.
  unfold inside, proper, clampTo, IntersectRect, IsRectEmpty, SetRectEmpty.
  destruct d, r; cbn. cmp; auto; right; cbn; lia.
Qed.

Lemma inside_overlaps d r : inside d r -> overlaps d r.
Proof. unfold inside, overlaps, proper. lia. Qed.

Lemma overlaps_join d a b : overlaps d a -> overlaps d b -> overlaps d (join a b).
Proof. unfold overlaps, proper, join; cbn. lia. Qed.

Lemma overlaps_meet d a : overlaps d a -> overlaps d (meet a d).
Proof. unfold overlaps, proper, meet; cbn. lia. Qed.

Lemma meet_join_meet d a b :
  overlaps d a -> overlaps d b -> meet (join (meet a d) b) d = meet (join a b) d.
Proof. unfold overlaps, proper, meet, join; cbn. intros. rect_eq. Qed.

Lemma join_comm a b : join a b = join b a.
Proof. unfold join. rect_eq. Qed.

Lemma join_assoc a b c : join (join a b) c = join a (join b c).
Proof. unfold join; cbn. rect_eq. Qed.

Lemma join_idem a : join a a = a.
Proof. unfold join; destruct a; cbn. rect_eq. Qed.

End RectFacts.

(** ** Invalidation tracker *)

Module TrackerFacts.
Import RECT User32 RectFacts.

Lemma InvalidOr_rect e rc :
  _invalidRect (_InvalidOr e rc) =
  if _isInvalidUsed e
  then clampTo (_GetDisplayRect e) (unionOf (_invalidRect e) rc)
  else rc.
Proof. unfold _InvalidOr. destruct (_isInvalidUsed e); reflexivity. Qed.

Lemma InvalidOr_used e rc : _isInvalidUsed (_InvalidOr e rc) = true.
Proof.
  unfold _InvalidOr. destruct (_isInvalidUsed e) eqn:E; cbn; auto.
Qed.

Lemma InvalidOr_display e rc :
  _displaySizePixels (_InvalidOr e rc) = _displaySizePixels e.
Proof. unfold _InvalidOr. destruct (_isInvalidUsed e); reflexivity. Qed.

Lemma InvalidOr_glyphCell e rc : _glyphCell (_InvalidOr e rc) = _glyphCell e.
Proof. unfold _InvalidOr. destruct (_isInvalidUsed e); reflexivity. Qed.

Lemma InvalidOr_scroll e rc :
  _invalidScroll (_InvalidOr e rc) = _invalidScroll e.
Proof. unfold _InvalidOr. destruct (_isInvalidUsed e); reflexivity. Qed.

Lemma applyCall_InvalidOr e c :
  applyCall e c = _InvalidOr e (callPixels (_glyphCell e) c).
Proof. destruct c; reflexivity. Qed.

Lemma GetDisplayRect_InvalidOr e rc :
  _GetDisplayRect (_InvalidOr e rc) = _GetDisplayRect e.
Proof. unfold _GetDisplayRect. now rewrite InvalidOr_display. Qed.

(** Further calls on a marked region. *)
Lemma runCalls_used cs : forall e,
  _isInvalidUsed e = true ->
  _invalidRect (runCalls e cs) =
  accumulate (_GetDisplayRect e) (_invalidRect e)
             (map (callPixels (_glyphCell e)) cs).
Proof.
  induction cs as [|c cs IH]; intros e Hused; [reflexivity|].
  cbn [runCalls fold_left map accumulate].
  change (fold_left applyCall cs (applyCall e c))
    with (runCalls (applyCall e c) cs).
  rewrite applyCall_InvalidOr, IH by apply InvalidOr_used.
  rewrite GetDisplayRect_InvalidOr, InvalidOr_glyphCell, InvalidOr_rect, Hused.
  reflexivity.
Qed.

(** The first call on an empty region stores its rectangle as it is. *)
Lemma runCalls_fresh c cs e :
  _isInvalidUsed e = false ->
  _invalidRect (runCalls e (c :: cs)) =
  accumulate (_GetDisplayRect e) (callPixels (_glyphCell e) c)
             (map (callPixels (_glyphCell e)) cs).
Proof.
  intros Hfresh. cbn [runCalls fold_left].
  change (fold_left applyCall cs (applyCall e c))
    with (runCalls (applyCall e c) cs).
  rewrite applyCall_InvalidOr, runCalls_used by apply InvalidOr_used.
  now rewrite GetDisplayRect_InvalidOr, InvalidOr_glyphCell, InvalidOr_rect,
    Hfresh.
Qed.

Lemma overlaps_proper d r : overlaps d r -> proper r.
Proof. unfold overlaps. tauto. Qed.

Lemma fold_join_overlaps d rs : forall h,
  overlaps d h -> Forall (overlaps d) rs -> overlaps d (fold_left join rs h).
Proof.
  induction rs as [|r rs IH]; intros h Hh Hrs; [exact Hh|].
  inversion Hrs; subst. cbn. apply IH; auto using overlaps_join.
Qed.

Lemma accumulate_clamped d rs : forall h,
  overlaps d h -> Forall (overlaps d) rs ->
  accumulate d (meet h d) rs = meet (fold_left join rs h) d.
Proof.
  induction rs as [|r rs IH]; intros h Hh Hrs; [reflexivity|].
  inversion Hrs as [|? ? Hr Hrs']; subst. cbn [accumulate fold_left].
  rewrite UnionRect_proper
    by eauto using overlaps_proper, overlaps_meet.
  rewrite IntersectRect_overlaps
    by auto using overlaps_join, overlaps_meet.
  rewrite meet_join_meet by assumption.
  apply (IH (join h r)); auto using overlaps_join.
Qed.

Lemma accumulate_raw d r1 r2 rs :
  overlaps d r1 -> overlaps d r2 -> Forall (overlaps d) rs ->
  accumulate d r1 (r2 :: rs) = meet (fold_left join rs (join r1 r2)) d.
Proof.
  intros H1 H2 Hrs. cbn [accumulate fold_left].
  rewrite UnionRect_proper by eauto using overlaps_proper.
  rewrite IntersectRect_overlaps by auto using overlaps_join.
  apply accumulate_clamped; auto using overlaps_join.
Qed.

Lemma fold_unionOf_join d rs : forall h,
  overlaps d h -> Forall (overlaps d) rs ->
  fold_left unionOf rs h = fold_left join rs h.
Proof.
  induction rs as [|r rs IH]; intros h Hh Hrs; [reflexivity|].
  inversion Hrs; subst. cbn.
  rewrite UnionRect_proper by eauto using overlaps_proper.
  apply IH; auto using overlaps_join.
Qed.

(** The bounding box of a list does not depend on its order. *)
Lemma fold_join_perm l l' :
  Permutation l l' -> forall a, fold_left join l a = fold_left join l' a.
Proof.
  induction 1 as [|x l l' _ IH|x y l|l l' l'' _ IH1 _ IH2]; intros a; cbn.
  - reflexivity.
  - apply IH.
  - f_equal. rewrite !join_assoc. f_equal. apply join_comm.
  - now rewrite IH1.
Qed.

Lemma fold_join_absorb a l : forall b,
  In a l -> fold_left join l b = fold_left join l (join b a).
Proof.
  induction l as [|x l IH]; intros b Hin; [contradiction|].
  destruct Hin as [->|Hin]; cbn.
  - f_equal. now rewrite join_assoc, join_idem.
  - rewrite (IH (join b x) Hin). f_equal.
    rewrite !join_assoc. f_equal. apply join_comm.
Qed.

Lemma hull_perm r rest r' rest' :
  Permutation (r :: rest) (r' :: rest') ->
  fold_left join rest r = fold_left join rest' r'.
Proof.
  intros HP.
  assert (Hr : In r (r' :: rest'))
    by (eapply Permutation_in; [exact HP | now left]).
  transitivity (fold_left join (r :: rest) r).
  { cbn. now rewrite join_idem. }
  rewrite (fold_join_perm _ _ HP).
  rewrite (fold_join_absorb r' (r' :: rest') r) by now left.
  transitivity (fold_left join (r' :: rest') r').
  - rewrite (fold_join_absorb r (r' :: rest') r' Hr).
    f_equal. apply join_comm.
  - cbn. now rewrite join_idem.
Qed.

(** With every rectangle overlapping the display, the code's dirty
    rectangle is the clamped bounding box, whichever way it got there. *)
Lemma dirty_hull e c cs :
  _isInvalidUsed e = false ->
  Forall (fun c => overlaps (_GetDisplayRect e) (callPixels (_glyphCell e) c))
         (c :: cs) ->
  cs <> [] \/ inside (_GetDisplayRect e) (callPixels (_glyphCell e) c) ->
  _invalidRect (runCalls e (c :: cs)) =
  meet (fold_left join (map (callPixels (_glyphCell e)) cs)
                  (callPixels (_glyphCell e) c))
       (_GetDisplayRect e).
Proof.
  intros Hfresh Hall Hcase. rewrite runCalls_fresh by assumption.
  inversion Hall as [|? ? Hc Hcs]; subst.
  assert (Hrs : Forall (overlaps (_GetDisplayRect e))
                       (map (callPixels (_glyphCell e)) cs))
    by (apply Forall_map; exact Hcs).
  destruct cs as [|c2 cs].
  - destruct Hcase as [Hne|Hin]; [congruence|]. cbn.
    rewrite <- IntersectRect_overlaps by assumption.
    symmetry. now apply IntersectRect_inside.
  - cbn [map] in *. inversion Hrs; subst.
    now rewrite accumulate_raw.
Qed.

Lemma specDirty_hull e c cs :
  Forall (fun c => overlaps (_GetDisplayRect e) (callPixels (_glyphCell e) c))
         (c :: cs) ->
  specDirty e (c :: cs) =
  meet (fold_left join (map (callPixels (_glyphCell e)) cs)
                  (callPixels (_glyphCell e) c))
       (_GetDisplayRect e).
Proof.
  intros Hall. inversion Hall as [|? ? Hc Hcs]; subst.
  assert (Hrs : Forall (overlaps (_GetDisplayRect e))
                       (map (callPixels (_glyphCell e)) cs))
    by (apply Forall_map; exact Hcs).
  unfold specDirty, boundingUnion. cbn [map].
  rewrite (fold_unionOf_join (_GetDisplayRect e)) by assumption.
  apply IntersectRect_overlaps. now apply fold_join_overlaps.
Qed.

End TrackerFacts.

(** ** The dirty rectangle of a sequence of invalidate calls *)

Section DirtyUnion.
Import RECT User32 RectFacts TrackerFacts.

Lemma meet_inside d a : overlaps d a -> inside d (meet a d).
Proof. unfold overlaps, inside, proper, meet; cbn. lia. Qed.

(** The first call on an empty region stores its rectangle as supplied,
    also where it reaches beyond the display. *)
Lemma first_call_stored_as_supplied e rc :
  _isInvalidUsed e = false ->
  _invalidRect (snd (InvalidateSystem e rc)) = rc.
Proof. intros H. cbn. now rewrite InvalidOr_rect, H. Qed.

(** Every call on a marked region leaves the dirty rectangle null or
    inside the display. *)
Lemma marked_call_within_display e c :
  _isInvalidUsed e = true ->
  nullOrInside (_GetDisplayRect e) (_invalidRect (applyCall e c)).
Proof.
  intros H. rewrite applyCall_InvalidOr, InvalidOr_rect, H.
  apply clampTo_cases.
Qed.

(** C1, as stated, fails: on a 100 by 100 display, two invalidations to
    the right of the display followed by one inside it leave only the
    inside rectangle dirty, which is smaller than the clamped bounding
    union, while the same three calls with the inside one first leave
    the strip up to the display's right edge dirty. *)
Lemma C1_order_matters :
  let e := engineWith (SIZE.mk 100 100) (SIZE.mk 8 16) in
  let off := invalidatePixels (RECT.mk 200 0 300 10) in
  let on := invalidatePixels (RECT.mk 10 0 20 10) in
  _isInvalidUsed e = false
  /\ Permutation [off; off; on] [on; off; off]
  /\ _invalidRect (runCalls e [off; off; on]) = RECT.mk 10 0 20 10
  /\ specDirty e [off; off; on] = RECT.mk 10 0 100 10
  /\ _invalidRect (runCalls e [on; off; off]) = RECT.mk 10 0 100 10
  /\ _invalidRect (runCalls e [off; off; on]) <> specDirty e [off; off; on]
  /\ _invalidRect (runCalls e [off; off; on])
     <> _invalidRect (runCalls e [on; off; off]).
Proof.
  intros e off on. repeat split; try reflexivity.
  - apply (Permutation_rev [off; off; on]).
  - vm_compute. discriminate.
  - vm_compute. discriminate.
Qed.

(** C1, amended: from an empty dirty region, for two or more calls
    whose pixel rectangles each overlap the display (or a single call
    whose rectangle lies inside it), the dirty rectangle is the bounding
    union of all the rectangles clamped to the display, it lies inside
    the display, and it is the same for every order of the calls. *)
Theorem C1_dirty_is_clamped_union e cs :
  _isInvalidUsed e = false ->
  Forall (fun c => overlaps (_GetDisplayRect e) (callPixels (_glyphCell e) c))
         cs ->
  (2 <= length cs)%nat
  \/ (length cs = 1%nat
      /\ Forall (fun c => inside (_GetDisplayRect e)
                                 (callPixels (_glyphCell e) c)) cs) ->
  _invalidRect (runCalls e cs) = specDirty e cs
  /\ inside (_GetDisplayRect e) (_invalidRect (runCalls e cs))
  /\ forall cs', Permutation cs cs' ->
       _invalidRect (runCalls e cs') = _invalidRect (runCalls e cs).
Proof.
  intros Hfresh Hall Hlen.
  destruct cs as [|c cs]; [cbn in Hlen; lia|].
  assert (Hcase : cs <> []
                  \/ inside (_GetDisplayRect e) (callPixels (_glyphCell e) c)).
  { destruct Hlen as [Hlen|[_ Hin]].
    - left. destruct cs; [cbn in Hlen; lia | discriminate].
    - right. now inversion Hin. }
  rewrite (dirty_hull e c cs Hfresh Hall Hcase).
  rewrite (specDirty_hull e c cs Hall).
  split; [reflexivity|]. split.
  - apply meet_inside. inversion Hall; subst.
    apply fold_join_overlaps; [assumption|]. now apply Forall_map.
  - intros cs' HP.
    destruct cs' as [|c' cs'];
      [apply Permutation_sym, Permutation_nil in HP; discriminate|].
    assert (Hall' : Forall (fun c => overlaps (_GetDisplayRect e)
                                       (callPixels (_glyphCell e) c))
                           (c' :: cs'))
      by (eapply Permutation_Forall; eassumption).
    assert (Hcase' : cs' <> []
                     \/ inside (_GetDisplayRect e)
                               (callPixels (_glyphCell e) c')).
    { destruct cs as [|c2 cs].
      - apply Permutation_length_1_inv in HP. inversion HP; subst.
        destruct Hcase as [Hne|Hin]; [congruence | now right].
      - left. intros ->. apply Permutation_length in HP. discriminate. }
    rewrite (dirty_hull e c' cs' Hfresh Hall' Hcase').
    f_equal. symmetry.
    apply (hull_perm _ _ _ _
             (Permutation_map (callPixels (_glyphCell e)) HP)).
Qed.

(** A character rectangle and a pixel rectangle on an 800 by 384
    display with an 8 by 16 cell. *)
Lemma C1_dirty_is_clamped_union_witness :
  let e := engineWith (SIZE.mk 800 384) (SIZE.mk 8 16) in
  let cs := [invalidateCells (SMALL_RECT.mk 0 0 9 0);
             invalidatePixels (RECT.mk 700 300 900 400)] in
  _invalidRect (runCalls e cs) = specDirty e cs
  /\ inside (_GetDisplayRect e) (_invalidRect (runCalls e cs))
  /\ forall cs', Permutation cs cs' ->
       _invalidRect (runCalls e cs') = _invalidRect (runCalls e cs).
Proof.
  intros e cs. apply (C1_dirty_is_clamped_union e cs).
  - reflexivity.
  - repeat constructor; cbn; lia.
  - left. cbn. lia.
Defined.

End DirtyUnion.

(** ** Character rectangles through the pixel dirty rectangle *)

Section CellsRoundTrip.
Import RECT SIZE IntFacts TrackerFacts.

Lemma cellRegion_exact g sr :
  isSIZE g -> 0 < cx g -> 0 < cy g ->
  forall d, isSIZE d ->
  edgesWithin (RECT.mk 0 0 (cx d) (cy d)) (pixelExpansion g sr) ->
  cellRegion g sr = pixelExpansion g sr.
Proof.
  intros [Hgx Hgy] Hx Hy d [Hdx Hdy] (Hl & Hr & Ht & Hb).
  unfold Int.isLONG in *. unfold cellRegion, _ScaleByFont, pixelExpansion in *.
  cbn in *. pow2.
  assert (Er : (SMALL_RECT.Right sr + 1) * cx g
               = SMALL_RECT.Right sr * cx g + cx g) by ring.
  assert (Eb : (SMALL_RECT.Bottom sr + 1) * cy g
               = SMALL_RECT.Bottom sr * cy g + cy g) by ring.
  rewrite (LONG_id (SMALL_RECT.Left sr * cx g)) by (unfold Int.isLONG; pow2; lia).
  rewrite (LONG_id (SMALL_RECT.Top sr * cy g)) by (unfold Int.isLONG; pow2; lia).
  rewrite (LONG_id (SMALL_RECT.Right sr * cx g)) by (unfold Int.isLONG; pow2; lia).
  rewrite (LONG_id (SMALL_RECT.Bottom sr * cy g)) by (unfold Int.isLONG; pow2; lia).
  rewrite !LONG_id by (unfold Int.isLONG; pow2; lia).
  f_equal; lia.
Qed.

Lemma SHORT_back a : Int.isSHORT a -> Int.SHORT (Int.SHORT (a + 1) - 1) = a.
Proof.
  intros H. unfold Z.sub. rewrite SHORT_add_l.
  replace (a + 1 + - (1)) with a by lia. now apply SHORT_id.
Qed.

(** C9: on an empty dirty region, with a positive glyph cell, a
    character rectangle whose pixel expansion lies within the display
    comes back unchanged from [GetDirtyRectInChars] after it was
    invalidated. *)
Theorem C9_cells_round_trip e sr :
  _isInvalidUsed e = false ->
  isSIZE (_glyphCell e) -> isSIZE (_displaySizePixels e) ->
  0 < cx (_glyphCell e) -> 0 < cy (_glyphCell e) ->
  isSMALL_RECT sr ->
  edgesWithin (_GetDisplayRect e) (pixelExpansion (_glyphCell e) sr) ->
  GetDirtyRectInChars (snd (Invalidate e sr)) = sr.
Proof.
  intros Hfresh Hg Hd Hx Hy (HL & HT & HR & HB) Hin.
  unfold GetDirtyRectInChars. cbn [Invalidate snd].
  unfold _InvalidOr_SMALL_RECT.
  rewrite InvalidOr_glyphCell, InvalidOr_rect, Hfresh.
  rewrite (cellRegion_exact _ sr Hg Hx Hy (_displaySizePixels e) Hd Hin).
  unfold pixelExpansion. cbn [left top right bottom].
  rewrite !Z.quot_mul by lia.
  rewrite !SHORT_back by assumption.
  rewrite !SHORT_id by assumption.
  now destruct sr.
Qed.

(** Columns 3 to 12 of rows 1 to 2, 8 by 16 cells, 800 by 384 pixels. *)
Lemma C9_cells_round_trip_witness :
  let e := engineWith (SIZE.mk 800 384) (SIZE.mk 8 16) in
  let sr := SMALL_RECT.mk 3 1 12 2 in
  GetDirtyRectInChars (snd (Invalidate e sr)) = sr.
Proof.
  intros e sr. apply (C9_cells_round_trip e sr).
  - reflexivity.
  - split; cbn; unfold Int.isLONG; lia.
  - split; cbn; unfold Int.isLONG; lia.
  - cbn; lia.
  - cbn; lia.
  - repeat split; cbn; lia.
  - repeat split; cbn; lia.
Defined.

End CellsRoundTrip.

(** ** Scrolling the dirty region *)

Section Scroll.
Import RECT SIZE POINT User32 RectFacts TrackerFacts.

Lemma clampTo_nullOrInside d r : nullOrInside d (clampTo d r).
Proof. apply clampTo_cases. Qed.

Lemma SubtractRect_nullOrInside d r : nullOrInside d (snd (SubtractRect d r)).
Proof.
  unfold nullOrInside, inside, proper, SubtractRect, IntersectRect,
    EqualRect, RECT.eqb, IsRectEmpty, SetRectEmpty.
  destruct d as [dl dt dr db], r as [rl rt rr rb]; cbn.
  destruct (dr <=? dl) eqn:E1; destruct (db <=? dt) eqn:E2; cbn; auto;
    apply Z.leb_gt in E1, E2.
  cmp; cbn; cmp; cbn; auto; right; lia.
Qed.

(** Uniting a reveal rectangle into a dirty rectangle that is already
    within the display needs no clamp, and an empty reveal rectangle
    changes nothing. *)
Lemma or_step d acc rv :
  nullOrInside d acc -> nullOrInside d rv ->
  (if negb (IsRectEmpty rv) then clampTo d (unionOf acc rv) else acc)
  = unionOf acc rv
  /\ nullOrInside d (unionOf acc rv).
Proof.
  intros [->|Ha] [->|Hv].
  - cbn. split; [reflexivity | now left].
  - assert (Hp : IsRectEmpty rv = false)
      by (apply IsRectEmpty_proper; apply Hv).
    rewrite Hp. cbn [negb]. unfold unionOf at 1 2 3, UnionRect.
    change (IsRectEmpty SetRectEmpty) with true. cbn iota. rewrite Hp.
    cbn [snd]. split; [now apply IntersectRect_inside | now right].
  - assert (Hp : IsRectEmpty acc = false)
      by (apply IsRectEmpty_proper; apply Ha).
    change (IsRectEmpty SetRectEmpty) with true. cbn [negb].
    unfold unionOf, UnionRect. rewrite Hp.
    change (IsRectEmpty SetRectEmpty) with true. cbn.
    split; [reflexivity | now right].
  - assert (Hpv : IsRectEmpty rv = false)
      by (apply IsRectEmpty_proper; apply Hv).
    rewrite Hpv. cbn [negb].
    rewrite UnionRect_proper by (apply Ha || apply Hv).
    assert (Hj : inside d (join acc rv))
      by (revert Ha Hv; unfold inside, proper, join; cbn; lia).
    split; [now apply IntersectRect_inside | now right].
Qed.

Lemma InvalidOffset_rect e delta :
  _isInvalidUsed e = true ->
  _invalidRect (_InvalidOffset e delta) =
  clampTo (_GetDisplayRect e) (OffsetRect (_invalidRect e) (x delta) (y delta)).
Proof. intros H. unfold _InvalidOffset. now rewrite H. Qed.

Lemma InvalidOffset_frame e delta :
  _isInvalidUsed (_InvalidOffset e delta) = _isInvalidUsed e
  /\ _displaySizePixels (_InvalidOffset e delta) = _displaySizePixels e
  /\ _invalidScroll (_InvalidOffset e delta) = _invalidScroll e
  /\ _glyphCell (_InvalidOffset e delta) = _glyphCell e.
Proof.
  unfold _InvalidOffset. destruct (_isInvalidUsed e) eqn:E; cbn; auto.
Qed.

(** C4: with a dirty rectangle already marked, a non-zero scroll
    (1) replaces the dirty rectangle by its translate by the pixel delta
    clamped to the display, (2) adds the pixel delta to the scroll
    accumulator, and (3) unites into it first the rectangle the
    horizontal shift alone uncovers, the display minus the shifted
    display clamped to the display, then the one the vertical shift alone
    uncovers. *)
Theorem C4_scroll_moves_then_reveals e delta :
  _isInvalidUsed e = true ->
  COORD.X delta <> 0 \/ COORD.Y delta <> 0 ->
  let display := _GetDisplayRect e in
  let px := Int.LONG (COORD.X delta * cx (_glyphCell e)) in
  let py := Int.LONG (COORD.Y delta * cy (_glyphCell e)) in
  let moved := clampTo display (OffsetRect (_invalidRect e) px py) in
  let revealX :=
    snd (SubtractRect display (clampTo display (OffsetRect display px 0))) in
  let revealY :=
    snd (SubtractRect display (clampTo display (OffsetRect display 0 py))) in
  let e' := snd (InvalidateScroll e delta) in
  _invalidRect e' = unionOf (unionOf moved revealX) revealY
  /\ _invalidScroll e' =
     SIZE.mk (Int.LONG (cx (_invalidScroll e) + px))
             (Int.LONG (cy (_invalidScroll e) + py))
  /\ _isInvalidUsed e' = true
  /\ fst (InvalidateScroll e delta) = S_OK.
Proof.
  intros Hused Hnz display px py moved revealX revealY e'.
  assert (Hcond : negb (COORD.X delta =? 0) || negb (COORD.Y delta =? 0) = true).
  { destruct (Z.eqb_spec (COORD.X delta) 0), (Z.eqb_spec (COORD.Y delta) 0);
      cbn; auto; lia. }
  subst e'. unfold InvalidateScroll. rewrite Hcond. cbv zeta. cbn [fst snd].
  set (delta' := POINT.mk _ _).
  destruct (InvalidOffset_frame e delta') as (Fu & Fd & Fs & Fg).
  set (e1 := _InvalidOffset e delta') in *.
  set (e2 := Set_.invalidScroll _ e1).
  assert (D2 : _GetDisplayRect e2 = display)
    by (unfold _GetDisplayRect, e2; cbn; now rewrite Fd).
  rewrite D2.
  assert (R2 : _invalidRect e2 = moved)
    by (unfold e2; cbn; unfold e1; now rewrite InvalidOffset_rect).
  assert (U2 : _isInvalidUsed e2 = true)
    by (unfold e2; cbn; congruence).
  change (revealRect display (x delta') 0) with revealX.
  change (revealRect display 0 (y delta')) with revealY.
  destruct (or_step display moved revealX) as [Ex Nx];
    [apply clampTo_nullOrInside | apply SubtractRect_nullOrInside |].
  destruct (or_step display (unionOf moved revealX) revealY) as [Ey Ny];
    [exact Nx | apply SubtractRect_nullOrInside |].
  set (e3 := if negb (IsRectEmpty revealX) then _InvalidOr e2 revealX else e2).
  assert (R3 : _invalidRect e3 = unionOf moved revealX).
  { rewrite <- Ex. unfold e3. destruct (IsRectEmpty revealX); cbn [negb].
    - exact R2.
    - now rewrite InvalidOr_rect, U2, D2, R2. }
  assert (U3 : _isInvalidUsed e3 = true).
  { unfold e3. destruct (IsRectEmpty revealX); cbn [negb];
      [exact U2 | apply InvalidOr_used]. }
  assert (D3 : _GetDisplayRect e3 = display).
  { unfold e3. destruct (IsRectEmpty revealX); cbn [negb];
      [exact D2 | now rewrite GetDisplayRect_InvalidOr]. }
  assert (S3 : _invalidScroll e3 = _invalidScroll e2).
  { unfold e3. destruct (IsRectEmpty revealX); cbn [negb];
      [reflexivity | apply InvalidOr_scroll]. }
  assert (S2 : _invalidScroll e2 =
               SIZE.mk (Int.LONG (cx (_invalidScroll e) + px))
                       (Int.LONG (cy (_invalidScroll e) + py)))
    by (unfold e2; cbn; now rewrite Fs).
  repeat split.
  - rewrite <- Ey. destruct (IsRectEmpty revealY); cbn [negb].
    + exact R3.
    + now rewrite InvalidOr_rect, U3, D3, R3.
  - destruct (IsRectEmpty revealY); cbn [negb];
      [| rewrite InvalidOr_scroll]; congruence.
  - destruct (IsRectEmpty revealY); cbn [negb];
      [exact U3 | apply InvalidOr_used].
Qed.

End Scroll.

Lemma C4_scroll_moves_then_reveals_witness :
  let e := snd (Invalidate (engineWith (SIZE.mk 640 384) (SIZE.mk 8 16))
                           (SMALL_RECT.mk 0 0 9 0)) in
  let e' := snd (InvalidateScroll e (COORD.mk 2 0)) in
  _invalidRect e' =
    unionOf (unionOf (RECT.mk 16 0 96 16) (RECT.mk 0 0 16 384))
            (RECT.mk 0 0 0 0)
  /\ _invalidScroll e' = SIZE.mk 16 0
  /\ _isInvalidUsed e' = true
  /\ fst (InvalidateScroll e (COORD.mk 2 0)) = S_OK.
Proof.
  intros e e'.
  apply (C4_scroll_moves_then_reveals e (COORD.mk 2 0)).
  - reflexivity.
  - left. cbn. lia.
Defined.

(** ** Paint session *)

Section SessionFacts.
Import RECT SIZE POINT User32.

Ltac failed :=
  repeat match goal with
    | |- context [if FAILED ?hr then _ else _] => destruct (FAILED hr) eqn:?
    end.

Lemma CreateDeviceResources_frame env b e :
  let e' := snd (_CreateDeviceResources env b e) in
  _hwndTarget e' = _hwndTarget e
  /\ _isPainting e' = _isPainting e
  /\ _isEnabled e' = _isEnabled e
  /\ (fst (_CreateDeviceResources env b e) = S_OK \/
      FAILED (fst (_CreateDeviceResources env b e)) = true).
Proof.
  unfold _CreateDeviceResources, step.
  destruct (_haveDeviceResources e), b, (_isPainting e) eqn:P;
    failed; cbn; rewrite ?P; cbn; rewrite ?P; auto 6.
Qed.

Lemma StartPaint_opens env e e1 :
  _isEnabled e = true -> StartPaint env e = (S_OK, e1) ->
  _isPainting e1 = true /\ _hwndTarget e1 <> INVALID_HANDLE_VALUE.
Proof.
  unfold StartPaint. intros En.
  destruct (Z.eqb_spec (_hwndTarget e) INVALID_HANDLE_VALUE) as [|Hh];
    [discriminate|].
  destruct (_isPainting e); [discriminate|]. rewrite En.
  match goal with
  | |- context [if ?c then _CreateDeviceResources env true e else _] =>
      destruct c
  end.
  - pose proof (CreateDeviceResources_frame env true e) as (Fh & _ & _ & Fr).
    destruct (_CreateDeviceResources env true e) as [hr e2]. cbn in *.
    destruct Fr as [-> | Hf];
      [| rewrite Hf; intros [= -> _]; vm_compute in Hf; discriminate]. cbn.
    intros [= <-]. cbn. split; [reflexivity | congruence].
  - cbn. intros [= <-]. cbn. split; [reflexivity | assumption].
Qed.

(** C5, as stated, fails on an engine that is not enabled: [StartPaint]
    sets [_isPainting] only inside [if (_isEnabled)], so on a constructed
    engine that was given a window and never enabled a second
    [StartPaint] without an [EndPaint] in between returns [S_OK] like the
    first. *)
Lemma C5_second_start_succeeds_when_disabled :
  let env := healthyEnv 800 384 in
  let e := snd (SetHwnd (DxEngine_ctor F32.zero) 1) in
  _isEnabled e = false
  /\ fst (StartPaint env e) = S_OK
  /\ fst (StartPaint env (snd (StartPaint env e))) = S_OK
  /\ fst (StartPaint env (snd (StartPaint env e))) <> E_NOT_VALID_STATE.
Proof.
  vm_compute. repeat split; try reflexivity. discriminate.
Qed.

(** C5, amended: [StartPaint] while a session is open fails with
    [E_NOT_VALID_STATE] and changes nothing, so a second [StartPaint]
    fails that way after a first one that returned [S_OK] on an enabled
    engine; [EndPaint] with no session open fails with [E_INVALIDARG];
    [StartPaint] with no target window fails with [E_HANDLE]. *)
Theorem C5_paint_sequencing env env' hr e e1 :
  (_hwndTarget e <> INVALID_HANDLE_VALUE -> _isPainting e = true ->
   StartPaint env e = (E_NOT_VALID_STATE, e))
  /\ (_isEnabled e = true -> StartPaint env e = (S_OK, e1) ->
      StartPaint env' e1 = (E_NOT_VALID_STATE, e1))
  /\ (_isPainting e = false -> EndPaint hr e = (E_INVALIDARG, e))
  /\ (_hwndTarget e = INVALID_HANDLE_VALUE -> StartPaint env e = (E_HANDLE, e)).
Proof.
  assert (Busy : forall env e, _hwndTarget e <> INVALID_HANDLE_VALUE ->
                   _isPainting e = true ->
                   StartPaint env e = (E_NOT_VALID_STATE, e)).
  { intros env0 e0 Hh Hp. unfold StartPaint.
    destruct (Z.eqb_spec (_hwndTarget e0) INVALID_HANDLE_VALUE);
      [contradiction|]. now rewrite Hp. }
  repeat split.
  - apply Busy.
  - intros En H1. destruct (StartPaint_opens env e e1 En H1). now apply Busy.
  - intros Hp. unfold EndPaint. now rewrite Hp.
  - intros Hh. unfold StartPaint. rewrite Hh. reflexivity.
Qed.

(** An enabled engine on a window: the second [StartPaint] is refused;
    a fresh engine has neither session nor window. *)
Lemma C5_paint_sequencing_witness :
  let env := healthyEnv 800 384 in
  let e := snd (Enable (snd (SetHwnd (DxEngine_ctor F32.zero) 1))) in
  StartPaint env paintingEngine = (E_NOT_VALID_STATE, paintingEngine)
  /\ StartPaint env (snd (StartPaint env e)) =
     (E_NOT_VALID_STATE, snd (StartPaint env e))
  /\ EndPaint S_OK (DxEngine_ctor F32.zero)
     = (E_INVALIDARG, DxEngine_ctor F32.zero)
  /\ StartPaint env (DxEngine_ctor F32.zero)
     = (E_HANDLE, DxEngine_ctor F32.zero).
Proof.
  intros env e. split; [|split; [|split]].
  - apply (proj1 (C5_paint_sequencing env env S_OK paintingEngine
                    paintingEngine)); [vm_compute; discriminate | reflexivity].
  - apply (proj1 (proj2 (C5_paint_sequencing env env S_OK e
                           (snd (StartPaint env e)))));
      vm_compute; reflexivity.
  - apply (proj1 (proj2 (proj2 (C5_paint_sequencing env env S_OK
                                  (DxEngine_ctor F32.zero)
                                  (DxEngine_ctor F32.zero))))).
    reflexivity.
  - apply (proj2 (proj2 (proj2 (C5_paint_sequencing env env S_OK
                                  (DxEngine_ctor F32.zero)
                                  (DxEngine_ctor F32.zero))))).
    reflexivity.
Defined.

(** C10, as stated, fails when a session was left open: [StartPaint]
    tests [_isPainting] before it looks at [_isEnabled], and [Disable]
    does not end a session.  After [SetHwnd], [Enable], [StartPaint],
    [Disable] the engine is not enabled and has a target window, yet
    [StartPaint] is refused with [E_NOT_VALID_STATE] and the [EndPaint]
    after it returns [S_OK]. *)
Lemma C10_start_refused_after_disable_in_session :
  let env := healthyEnv 800 384 in
  let e := snd (Disable
                  (snd (StartPaint env
                          (snd (Enable
                                  (snd (SetHwnd (DxEngine_ctor F32.zero) 1))))))) in
  _isEnabled e = false
  /\ _hwndTarget e <> INVALID_HANDLE_VALUE
  /\ fst (StartPaint env e) = E_NOT_VALID_STATE
  /\ fst (StartPaint env e) <> S_OK
  /\ fst (EndPaint S_OK (snd (StartPaint env e))) = S_OK
  /\ fst (EndPaint S_OK (snd (StartPaint env e))) <> E_INVALIDARG.
Proof.
  vm_compute. repeat split; try reflexivity; discriminate.
Qed.

(** C10, amended: on an engine that is not enabled, has a target window
    and no session left open, [StartPaint] returns [S_OK] and leaves
    every member as it was (no session, no resources, same dirty and
    scroll state), and an [EndPaint] after it fails with
    [E_INVALIDARG]. *)
Theorem C10_disabled_start_opens_nothing env hr e :
  _isEnabled e = false ->
  _hwndTarget e <> INVALID_HANDLE_VALUE ->
  _isPainting e = false ->
  StartPaint env e = (S_OK, e)
  /\ _isPainting (snd (StartPaint env e)) = false
  /\ EndPaint hr (snd (StartPaint env e)) =
     (E_INVALIDARG, snd (StartPaint env e)).
Proof.
  intros En Hh Hp.
  assert (E : StartPaint env e = (S_OK, e)).
  { unfold StartPaint.
    destruct (Z.eqb_spec (_hwndTarget e) INVALID_HANDLE_VALUE);
      [contradiction|]. now rewrite Hp, En. }
  rewrite E. cbn [snd]. repeat split; auto.
  unfold EndPaint. now rewrite Hp.
Qed.

Lemma C10_disabled_start_opens_nothing_witness :
  let e := snd (SetHwnd (DxEngine_ctor F32.zero) 1) in
  let env := healthyEnv 800 384 in
  StartPaint env e = (S_OK, e)
  /\ _isPainting (snd (StartPaint env e)) = false
  /\ EndPaint S_OK (snd (StartPaint env e)) =
     (E_INVALIDARG, snd (StartPaint env e)).
Proof.
  intros e env. apply (C10_disabled_start_opens_nothing env S_OK e).
  - reflexivity.
  - vm_compute. discriminate.
  - reflexivity.
Defined.

End SessionFacts.

(** ** Ending a frame *)

Section EndPaintFacts.
Import RECT SIZE POINT User32.

Lemma FAILED_not_SUCCEEDED hr : FAILED hr = true -> SUCCEEDED hr = false.
Proof.
  unfold FAILED, SUCCEEDED. intros H. apply Z.ltb_lt in H.
  apply Z.leb_gt. exact H.
Qed.

Lemma scrolled_cond (s : SIZE.t) :
  s <> SIZE.mk 0 0 -> negb (cy s =? 0) || negb (cx s =? 0) = true.
Proof.
  destruct s as [sx sy]; cbn. intros H.
  destruct (Z.eqb_spec sy 0), (Z.eqb_spec sx 0); cbn; auto.
  subst. contradiction.
Qed.

(** C6: whatever [EndDraw] returns, [EndPaint] on an open session leaves
    the dirty rectangle null, the dirty flag off and the scroll
    accumulator zero; when [EndDraw] failed, it returns that failure, no
    plan is ready and every device resource is released. *)
Theorem C6_end_paint_clears hr e :
  _isPainting e = true ->
  let r := EndPaint hr e in
  _invalidRect (snd r) = RECT.mk 0 0 0 0
  /\ _isInvalidUsed (snd r) = false
  /\ _invalidScroll (snd r) = SIZE.mk 0 0
  /\ (_haveDeviceResources e = true -> FAILED hr = true ->
      fst r = hr
      /\ _presentReady (snd r) = false
      /\ _haveDeviceResources (snd r) = false
      /\ _com (snd r) = noCom).
Proof.
  intros Hp r. subst r. unfold EndPaint. rewrite Hp. cbn [negb].
  destruct (_haveDeviceResources e) eqn:Hr;
    [destruct (SUCCEEDED hr) eqn:Hs|];
    cbn; (split; [|split; [|split]]); try reflexivity; intros Hr' Hf;
    try discriminate Hr';
    apply FAILED_not_SUCCEEDED in Hf; try congruence;
    repeat split; reflexivity.
Qed.

(** A frame with a dirty rectangle whose [EndDraw] reports a lost device
    ([D2DERR_RECREATE_TARGET]). *)
Lemma C6_end_paint_clears_witness :
  let e := snd (InvalidateSystem paintingEngine (RECT.mk 0 0 10 10)) in
  let r := EndPaint (-2003238900) e in
  _invalidRect (snd r) = RECT.mk 0 0 0 0
  /\ _isInvalidUsed (snd r) = false
  /\ _invalidScroll (snd r) = SIZE.mk 0 0
  /\ (_haveDeviceResources e = true -> FAILED (-2003238900) = true ->
      fst r = -2003238900
      /\ _presentReady (snd r) = false
      /\ _haveDeviceResources (snd r) = false
      /\ _com (snd r) = noCom).
Proof.
  intros e. apply (C6_end_paint_clears (-2003238900) e). reflexivity.
Defined.

Lemma Present_hands env e :
  _presentReady e = true -> handed (Present env e) = Some (readPlan e).
Proof.
  intros Rdy. unfold Present. rewrite Rdy.
  destruct (FAILED (Present1 env)); [reflexivity|].
  destruct (FAILED (_CopyFrontToBack env)); reflexivity.
Qed.

(** The engine after a frame with a non-zero scroll ended well. *)
Lemma EndPaint_scrolled hr e :
  _isPainting e = true ->
  _haveDeviceResources e = true ->
  SUCCEEDED hr = true ->
  _invalidScroll e <> SIZE.mk 0 0 ->
  let preserved := snd (SubtractRect (_GetDisplayRect e) (_invalidRect e)) in
  snd (EndPaint hr e) =
  Set_.invalidScroll (SIZE.mk 0 0)
    (Set_.isInvalidUsed false
       (Set_.invalidRect (RECT.mk 0 0 0 0)
          (Set_.presentReady true
             (Set_.presentParams
                (if IsRectEmpty preserved
                 then mkParams 1 (addr m_presentDirty) nullptr nullptr
                 else mkParams 1 (addr m_presentDirty) (addr m_presentScroll)
                               (addr m_presentOffset))
                (Set_.presentOffset
                   (POINT.mk (cx (_invalidScroll e)) (cy (_invalidScroll e)))
                   (Set_.presentScroll preserved
                      (Set_.presentDirty (_invalidRect e)
                         (hold EndDraw (Set_.isPainting false e))))))))).
Proof.
  intros Hp Hr Hs Hd preserved. unfold EndPaint.
  rewrite Hp, Hr. cbn [negb]. cbv zeta.
  cbn -[SubtractRect IsRectEmpty Z.eqb].
  rewrite Hs, (scrolled_cond _ Hd).
  unfold preserved, _GetDisplayRect.
  destruct (IsRectEmpty _); reflexivity.
Qed.

(** C2: when a frame with a non-zero accumulated scroll ends well, the
    plan the swap chain is handed has the dirty rectangle as its dirty
    rectangle; if the display minus the dirty rectangle is not empty, it
    is the plan's scroll rectangle and the accumulated scroll is its
    scroll offset; if it is empty, the plan has neither. *)
Theorem C2_scroll_plan hr env e :
  _isPainting e = true ->
  _haveDeviceResources e = true ->
  SUCCEEDED hr = true ->
  _invalidScroll e <> SIZE.mk 0 0 ->
  let preserved := snd (SubtractRect (_GetDisplayRect e) (_invalidRect e)) in
  let e' := snd (EndPaint hr e) in
  let plan := readPlan e' in
  _presentReady e' = true
  /\ handed (Present env e') = Some plan
  /\ dirtyRects plan = [_invalidRect e]
  /\ (IsRectEmpty preserved = false ->
      scrollRect plan = Some preserved
      /\ scrollOffset plan =
         Some (POINT.mk (cx (_invalidScroll e)) (cy (_invalidScroll e))))
  /\ (IsRectEmpty preserved = true ->
      scrollRect plan = None /\ scrollOffset plan = None).
Proof.
  intros Hp Hr Hs Hd preserved e' plan. subst plan e'.
  rewrite (EndPaint_scrolled hr e Hp Hr Hs Hd). fold preserved.
  split; [reflexivity|]. split; [now apply Present_hands|].
  destruct (IsRectEmpty preserved); cbn;
    (split; [reflexivity|]); split; intros Hc;
    try discriminate Hc; split; reflexivity.
Qed.

(** One line scrolled up on the 800 by 384 display: the bottom line is
    dirty, the 368 pixel rows above it are the scroll rectangle. *)
Lemma C2_scroll_plan_witness :
  let e := snd (InvalidateScroll paintingEngine (COORD.mk 0 (-1))) in
  let e' := snd (EndPaint S_OK e) in
  let plan := readPlan e' in
  (_invalidRect e = RECT.mk 0 368 800 384
   /\ snd (SubtractRect (_GetDisplayRect e) (_invalidRect e))
      = RECT.mk 0 0 800 368)
  /\ _presentReady e' = true
  /\ handed (Present healthyPresent e') = Some plan
  /\ dirtyRects plan = [_invalidRect e]
  /\ (IsRectEmpty (snd (SubtractRect (_GetDisplayRect e) (_invalidRect e)))
      = false ->
      scrollRect plan
      = Some (snd (SubtractRect (_GetDisplayRect e) (_invalidRect e)))
      /\ scrollOffset plan =
         Some (POINT.mk (cx (_invalidScroll e)) (cy (_invalidScroll e))))
  /\ (IsRectEmpty (snd (SubtractRect (_GetDisplayRect e) (_invalidRect e)))
      = true ->
      scrollRect plan = None /\ scrollOffset plan = None).
Proof.
  intros e e' plan. split; [split; reflexivity|].
  apply (C2_scroll_plan S_OK healthyPresent e).
  - reflexivity.
  - reflexivity.
  - reflexivity.
  - vm_compute. discriminate.
Defined.

(** C3, as stated, fails: a frame in which a 10 by 10 pixel rectangle
    was invalidated and nothing scrolled ends well, and the plan the swap
    chain is handed has no dirty rectangle at all. *)
Lemma C3_plan_has_no_dirty_rect :
  let e := snd (InvalidateSystem paintingEngine (RECT.mk 0 0 10 10)) in
  let e' := snd (EndPaint S_OK e) in
  _isPainting e = true
  /\ _invalidRect e = RECT.mk 0 0 10 10
  /\ _invalidScroll e = SIZE.mk 0 0
  /\ fst (EndPaint S_OK e) = S_OK
  /\ handed (Present healthyPresent e') = Some (mkPlan [] None None)
  /\ dirtyRects (readPlan e') <> [_invalidRect e].
Proof.
  intros e e'. repeat split; try reflexivity.
  vm_compute. discriminate.
Qed.

(** C3, amended: when a frame whose accumulated scroll is (0,0) ends
    well and the presentation parameters are in their reset state (as
    the constructor and a completed [Present] leave them), the plan the
    swap chain is handed has no dirty rectangle, no scroll rectangle and
    no scroll offset. *)
Theorem C3_no_scroll_plan hr env e :
  _isPainting e = true ->
  _haveDeviceResources e = true ->
  SUCCEEDED hr = true ->
  _invalidScroll e = SIZE.mk 0 0 ->
  _presentParams e = zeroParams ->
  let e' := snd (EndPaint hr e) in
  _presentReady e' = true
  /\ _presentParams e' = zeroParams
  /\ handed (Present env e') = Some (mkPlan [] None None).
Proof.
  intros Hp Hr Hs Hz Hpar e'.
  assert (E : e' =
              Set_.invalidScroll (SIZE.mk 0 0)
                (Set_.isInvalidUsed false
                   (Set_.invalidRect (RECT.mk 0 0 0 0)
                      (Set_.presentReady true
                         (hold EndDraw (Set_.isPainting false e)))))).
  { subst e'. unfold EndPaint. rewrite Hp, Hr. cbn [negb]. cbv zeta.
    cbn -[SubtractRect IsRectEmpty Z.eqb]. rewrite Hs, Hz. reflexivity. }
  split; [now rewrite E|]. split; [now rewrite E|].
  rewrite Present_hands by now rewrite E.
  rewrite E. unfold readPlan. cbn. now rewrite Hpar.
Qed.

Lemma C3_no_scroll_plan_witness :
  let e := snd (InvalidateSystem paintingEngine (RECT.mk 0 0 10 10)) in
  let e' := snd (EndPaint S_OK e) in
  _presentReady e' = true
  /\ _presentParams e' = zeroParams
  /\ handed (Present healthyPresent e') = Some (mkPlan [] None None).
Proof.
  intros e. apply (C3_no_scroll_plan S_OK healthyPresent e); reflexivity.
Defined.

End EndPaintFacts.

(** ** Painting a line *)

Section LineFacts.
Import SIZE.

(** C7, as stated, fails when the complexity query itself fails: the
    run is then not reported simple, yet the line is not drawn through a
    text layout either.  [PaintBufferLine] returns the query's failure
    with only the line's background painted. *)
Lemma C7_failed_query_draws_no_text :
  let e := paintingEngine in
  let q := GetTextComplexity failingDWrite [97; 98] 2 in
  let r := PaintBufferLine failingDWrite e [97; 98] 2 (COORD.mk 0 0) in
  ~ (isTextSimple q = true /\ textLengthRead q = 2)
  /\ tookFastPath (snd r) = false
  /\ tookFallback (snd r) = false
  /\ r = (E_INVALIDARG,
          [FillRectangle
             (D2D1_RECT_F.mk (F32.of_Z 0) (F32.of_Z 0)
                             (F32.of_Z 16) (F32.of_Z 16))
             BrushBackground]).
Proof.
  cbv zeta. split; [intros [H _]; discriminate H|].
  vm_compute. repeat split; reflexivity.
Qed.

(** C7, amended: the line's background is always painted first.  The
    line is then drawn as a glyph run exactly when its length fits 32
    bits, the complexity query succeeds, finds the run simple and has
    read all of it; the glyph run has one advance per character, each the
    cell width, and its origin lies at the cell top plus the cell height
    minus the baseline ratio times the cell height.  When the query
    succeeds otherwise, the line is drawn through a text layout of the
    whole line, as wide as the display and as high as a cell (as the
    display when the cell height is 0), provided the layout can be
    created.  When the layout cannot be created, the query fails or the
    length does not fit 32 bits, the call returns that failure and
    draws no text. *)
Theorem C7_fast_path_iff_simple dw e pwsLine cchLine coord :
  0 <= cchLine ->
  let q := GetTextComplexity dw pwsLine cchLine in
  let cell := _glyphCell e in
  let display := _displaySizePixels e in
  let x0 := F32.of_Z (Int.LONG (COORD.X coord * cx cell)) in
  let top := F32.of_Z (Int.LONG (COORD.Y coord * cy cell)) in
  let background :=
    FillRectangle
      (D2D1_RECT_F.mk x0 top
         (F32.add x0 (F32.of_Z (Int.size_t (cchLine * Int.size_t (cx cell)))))
         (F32.add top (F32.of_Z (cy cell))))
      BrushBackground in
  let width := F32.of_Z (cx display) in
  let height := if cy cell =? 0 then F32.of_Z (cy display)
                else F32.of_Z (cy cell) in
  let hrLayout := CreateTextLayout dw pwsLine cchLine width height in
  let run := mkRun (_fontSize e) cchLine
               (writeGlyphs (glyphIndicesWritten q)
                            (repeat 0 (Z.to_nat (Z.max cchLine 1))))
               (repeat (F32.of_Z (cx cell)) (Z.to_nat cchLine)) in
  let answered := cchLine < 2 ^ 32 /\ FAILED (complexityResult q) = false in
  let simple := isTextSimple q = true /\ textLengthRead q = cchLine in
  let r := PaintBufferLine dw e pwsLine cchLine coord in
  (tookFastPath (snd r) = true <-> answered /\ simple)
  /\ (tookFallback (snd r) = true
      <-> answered /\ ~ simple /\ FAILED hrLayout = false)
  /\ (answered -> simple ->
      r = (S_OK,
           [background;
            DrawGlyphRun
              (D2D1_POINT_2F.mk x0
                 (F32.sub (F32.add top (F32.of_Z (cy cell)))
                          (F32.mul (_baseline e) (F32.of_Z (cy cell)))))
              run BrushForeground])
      /\ length (glyphAdvances run) = Z.to_nat cchLine
      /\ Forall (eq (F32.of_Z (cx cell))) (glyphAdvances run))
  /\ (answered -> ~ simple -> FAILED hrLayout = false ->
      r = (S_OK,
           [background;
            DrawTextLayout (D2D1_POINT_2F.mk x0 top)
              (mkLayout pwsLine cchLine width height)
              BrushForeground D2D1_DRAW_TEXT_OPTIONS_ENABLE_COLOR_FONT]))
  /\ (answered -> ~ simple -> FAILED hrLayout = true ->
      r = (hrLayout, [background]))
  /\ (cchLine < 2 ^ 32 -> FAILED (complexityResult q) = true ->
      r = (complexityResult q, [background]))
  /\ (2 ^ 32 <= cchLine -> r = (E_UNHANDLED_EXCEPTION, [background])).
Proof.
  intros Hlen q cell display x0 top background width height hrLayout run
         answered simple r.
  assert (Hiff : isTextSimple q && (textLengthRead q =? cchLine) = true
                 <-> simple).
  { subst simple. rewrite andb_true_iff, Z.eqb_eq. tauto. }
  assert (R : r =
    if 2 ^ 32 <=? cchLine then (E_UNHANDLED_EXCEPTION, [background])
    else if FAILED (complexityResult q)
    then (complexityResult q, [background])
    else if isTextSimple q && (textLengthRead q =? cchLine) then
      (S_OK,
       [background;
        DrawGlyphRun
          (D2D1_POINT_2F.mk x0
             (F32.sub (F32.add top (F32.of_Z (cy cell)))
                      (F32.mul (_baseline e) (F32.of_Z (cy cell)))))
          run BrushForeground])
    else if FAILED hrLayout then (hrLayout, [background])
    else (S_OK,
          [background;
           DrawTextLayout (D2D1_POINT_2F.mk x0 top)
             (mkLayout pwsLine cchLine width height)
             BrushForeground D2D1_DRAW_TEXT_OPTIONS_ENABLE_COLOR_FONT])).
  { subst r. unfold PaintBufferLine. cbv zeta.
    destruct (Z.leb_spec (2 ^ 32) cchLine) as [Hbig|Hfit].
    - replace (Int.UINT32 cchLine =? cchLine) with false; [reflexivity|].
      symmetry. apply Z.eqb_neq. unfold Int.UINT32.
      pose proof (Z.mod_pos_bound cchLine (2 ^ 32) ltac:(lia)). lia.
    - replace (Int.UINT32 cchLine =? cchLine) with true
        by (symmetry; apply Z.eqb_eq; unfold Int.UINT32;
            apply Z.mod_small; lia).
      cbn [negb]. fold q.
      destruct (FAILED (complexityResult q)); [reflexivity|].
      destruct (isTextSimple q && (textLengthRead q =? cchLine));
        [reflexivity|].
      unfold _CreateTextLayout. cbv zeta.
      replace (Int.UINT32 cchLine) with cchLine
        by (symmetry; unfold Int.UINT32; apply Z.mod_small; lia).
      fold cell display.
      replace (if negb (cy cell =? 0) then F32.of_Z (cy cell)
               else F32.of_Z (cy display)) with height
        by (subst height; destruct (cy cell =? 0); reflexivity).
      fold width hrLayout.
      destruct (FAILED hrLayout); reflexivity. }
  clearbody r hrLayout. subst r answered simple.
  assert (Hrun : length (glyphAdvances run) = Z.to_nat cchLine
                 /\ Forall (eq (F32.of_Z (cx cell))) (glyphAdvances run)).
  { subst run. cbn [glyphAdvances]. split; [apply repeat_length|].
    apply Forall_forall. intros a Ha. symmetry. eapply repeat_spec. exact Ha. }
  destruct Hrun as [Hrun1 Hrun2]. clearbody run. subst background.
  destruct (Z.leb_spec (2 ^ 32) cchLine) as [Hbig|Hfit];
    [|destruct (FAILED (complexityResult q)) eqn:Hq;
      [|destruct (isTextSimple q && (textLengthRead q =? cchLine)) eqn:Fast;
        [|destruct (FAILED hrLayout) eqn:Hl]]];
    cbn [snd tookFastPath tookFallback existsb orb];
    intuition (try reflexivity; try congruence; try lia).
Qed.

(** Four plain letters at column 2 of row 1. *)
Lemma C7_fast_path_iff_simple_witness :
  let e := paintingEngine in
  let r := PaintBufferLine plainDWrite e [97; 98; 99; 100] 4 (COORD.mk 2 1) in
  tookFastPath (snd r) = true /\ fst r = S_OK.
Proof.
  intros e r.
  assert (Hlen : 0 <= 4) by lia.
  pose proof (C7_fast_path_iff_simple plainDWrite e [97; 98; 99; 100] 4
                (COORD.mk 2 1) Hlen) as (Hiff & _ & Hfast & _).
  assert (Ha : 4 < 2 ^ 32 /\ FAILED S_OK = false)
    by (split; [cbn; lia | reflexivity]).
  destruct (Hfast Ha (conj eq_refl eq_refl)) as (Hr & _).
  split.
  - apply Hiff. split; [exact Ha | split; reflexivity].
  - subst r. now rewrite Hr.
Defined.

(** A base letter with a combining acute accent: the analyzer does not
    find the run simple and the line is drawn through a layout as wide as
    the display and as high as a cell. *)
Lemma combining_mark_takes_fallback :
  let e := paintingEngine in
  PaintBufferLine shapingDWrite e [101; 769] 2 (COORD.mk 0 0)
  = (S_OK,
     [FillRectangle
        (D2D1_RECT_F.mk (F32.of_Z 0) (F32.of_Z 0) (F32.of_Z 16) (F32.of_Z 16))
        BrushBackground;
      DrawTextLayout (D2D1_POINT_2F.mk (F32.of_Z 0) (F32.of_Z 0))
        (mkLayout [101; 769] 2 (F32.of_Z 800) (F32.of_Z 16))
        BrushForeground D2D1_DRAW_TEXT_OPTIONS_ENABLE_COLOR_FONT]).
Proof. vm_compute. reflexivity. Qed.

End LineFacts.

(** ** Cursor geometry *)

Section CursorFacts.
Import SIZE IntFacts.









End CursorFacts.

(** ** Disabling during a session *)

(** [Disable] releases the device resources and leaves [_isPainting] as
    it was: after [Enable], [StartPaint], [Disable] the engine is
    disabled with its session flag still set, [StartPaint] is refused and
    [EndPaint] clears the tracker without closing the session. *)
Lemma Disable_keeps_session_flag :
  let e := snd (Disable paintingEngine) in
  _isEnabled e = false
  /\ _isPainting e = true
  /\ _haveDeviceResources e = false
  /\ fst (StartPaint (healthyEnv 800 384) e) = E_NOT_VALID_STATE
  /\ fst (EndPaint S_OK e) = S_OK
  /\ _isPainting (snd (EndPaint S_OK e)) = true.
Proof. vm_compute. repeat split; reflexivity. Qed.

(** * Further properties of the engine *)

(** ** Device resources are built whole or not at all *)

Section DeviceFacts.
Import RECT SIZE.

Lemma step_failed hr e k :
  FAILED hr = true -> step hr e k = (hr, _ReleaseDeviceResources e).
Proof. unfold step. now intros ->. Qed.

Lemma step_ok hr e k : FAILED hr = false -> step hr e k = k e.
Proof. unfold step. now intros ->. Qed.

(** Follows one creation call: it failed and the function returns, or it
    succeeded and the next call is reached. *)
Ltac walk :=
  match goal with
  | |- context [step ?hr ?e ?k] =>
      let E := fresh "E" in
      destruct (FAILED hr) eqn:E;
      [rewrite (step_failed hr e k E)
      | rewrite (step_ok hr e k E); cbv beta]
  end.

Ltac known :=
  repeat match goal with
    | H : FAILED ?x = _ |- context [FAILED ?x] => rewrite H
    end.

Lemma CreateDeviceResources_outcome env e :
  let r := _CreateDeviceResources env true e in
  if succeeds env
  then fst r = S_OK
       /\ _haveDeviceResources (snd r) = true
       /\ _com (snd r) = allHeld (_isPainting e)
       /\ _displaySizePixels (snd r) = _GetClientSize env
  else FAILED (fst r) = true
       /\ _haveDeviceResources (snd r) = false
       /\ _com (snd r) = noCom.
Proof.
  unfold _CreateDeviceResources, succeeds. cbv zeta.
  destruct (GetClientRect env) as [err|rc] eqn:G;
    repeat walk; known; cbn [negb andb fst snd];
    try (exfalso;
         match goal with
         | H : FAILED S_OK = true |- _ => discriminate H
         end);
    try (split; [assumption | split; reflexivity]);
    destruct (_haveDeviceResources e), (_isPainting e) eqn:P;
    cbn; rewrite ?P; cbn; auto.
Qed.

Lemma CreateDeviceResources_built env e :
  succeeds env = true ->
  let r := _CreateDeviceResources env true e in
  fst r = S_OK
  /\ _haveDeviceResources (snd r) = true
  /\ _com (snd r) = allHeld (_isPainting e)
  /\ _displaySizePixels (snd r) = _GetClientSize env.
Proof.
  intros Hs. pose proof (CreateDeviceResources_outcome env e) as O.
  cbv zeta in O. now rewrite Hs in O.
Qed.

Lemma CreateDeviceResources_released env e :
  succeeds env = false ->
  let r := _CreateDeviceResources env true e in
  FAILED (fst r) = true
  /\ _haveDeviceResources (snd r) = false
  /\ _com (snd r) = noCom.
Proof.
  intros Hs. pose proof (CreateDeviceResources_outcome env e) as O.
  cbv zeta in O. now rewrite Hs in O.
Qed.

Lemma CreateDeviceResources_keeps env e :
  let e' := snd (_CreateDeviceResources env true e) in
  sameTracker e e'
  /\ _isEnabled e' = _isEnabled e
  /\ _isPainting e' = _isPainting e
  /\ _hwndTarget e' = _hwndTarget e
  /\ _glyphCell e' = _glyphCell e
  /\ _presentReady e' = _presentReady e
  /\ _presentParams e' = _presentParams e.
Proof.
  unfold sameTracker, _CreateDeviceResources. cbv zeta.
  repeat walk;
    destruct (_haveDeviceResources e), (_isPainting e) eqn:P;
    cbn; rewrite ?P; cbn; rewrite ?P; auto 12.
Qed.

Lemma CreateDeviceResources_first_failure env e :
  let r := _CreateDeviceResources env true e in
  match firstFailure (creationCalls env) with
  | None =>
      fst r = S_OK
      /\ _haveDeviceResources (snd r) = true
      /\ _com (snd r) = allHeld (_isPainting e)
      /\ _displaySizePixels (snd r) = _GetClientSize env
  | Some hr =>
      fst r = hr
      /\ FAILED hr = true
      /\ _haveDeviceResources (snd r) = false
      /\ _com (snd r) = noCom
  end.
Proof.
  unfold _CreateDeviceResources, firstFailure, creationCalls.
  cbv zeta.
  destruct (GetClientRect env) as [err|rc] eqn:G;
    repeat walk; cbn [app find]; known;
    try (exfalso;
         match goal with
         | H : FAILED S_OK = true |- _ => discriminate H
         end);
    try (change (FAILED S_OK) with false; cbn iota);
    try (split; [reflexivity | split; [assumption | split; reflexivity]]);
    destruct (_haveDeviceResources e), (_isPainting e) eqn:P;
    cbn; rewrite ?P; cbn; auto.
Qed.

(** X1: [_CreateDeviceResources], called for the whole pipeline as
    [StartPaint] calls it, never leaves the device half built.  When
    every creation call succeeds it returns [S_OK] with every pointer
    held, the flag set and the display size read from the window; when
    a call fails it returns the code of the first call that failed, with
    the flag clear and every pointer released.  The tracker, the session
    flags and the window handle are the same either way. *)
Theorem X1_device_resources_all_or_nothing env e :
  let r := _CreateDeviceResources env true e in
  match firstFailure (creationCalls env) with
  | None =>
      fst r = S_OK
      /\ _haveDeviceResources (snd r) = true
      /\ _com (snd r) = allHeld (_isPainting e)
      /\ _displaySizePixels (snd r) = _GetClientSize env
  | Some hr =>
      fst r = hr
      /\ FAILED hr = true
      /\ _haveDeviceResources (snd r) = false
      /\ _com (snd r) = noCom
  end
  /\ sameTracker e (snd r)
  /\ _isEnabled (snd r) = _isEnabled e
  /\ _isPainting (snd r) = _isPainting e
  /\ _hwndTarget (snd r) = _hwndTarget e.
Proof.
  intros r. split.
  - apply CreateDeviceResources_first_failure.
  - subst r.
    destruct (CreateDeviceResources_keeps env e) as (T & En & P & H & _).
    auto.
Qed.

End DeviceFacts.

(** ** What the tracker calls leave alone *)

Section TrackerFrame.
Import RECT SIZE POINT TrackerFacts.

Lemma InvalidOr_device e rc : deviceState (_InvalidOr e rc) = deviceState e.
Proof. unfold _InvalidOr. destruct (_isInvalidUsed e); reflexivity. Qed.

Lemma InvalidOffset_device e d : deviceState (_InvalidOffset e d) = deviceState e.
Proof. unfold _InvalidOffset. destruct (_isInvalidUsed e); reflexivity. Qed.

Lemma InvalidateScroll_device e d :
  deviceState (snd (InvalidateScroll e d)) = deviceState e.
Proof.
  unfold InvalidateScroll.
  destruct (negb (COORD.X d =? 0) || negb (COORD.Y d =? 0)); [|reflexivity].
  cbv zeta. cbn [snd].
  repeat match goal with
    | |- context [if negb (User32.IsRectEmpty ?r) then _ else _] =>
        destruct (negb (User32.IsRectEmpty r))
    end;
    rewrite ?InvalidOr_device; cbn; apply InvalidOffset_device.
Qed.

Lemma InvalidateSelection_runCalls rectangles : forall e,
  InvalidateSelection e rectangles
  = (S_OK, runCalls e (map invalidateCells rectangles)).
Proof.
  induction rectangles as [|r rest IH]; intros e; [reflexivity|].
  cbn [InvalidateSelection map runCalls fold_left].
  unfold Invalidate at 1. cbn [FAILED S_OK]. cbn [Z.ltb Z.compare].
  apply IH.
Qed.

Lemma runCalls_device cs : forall e, deviceState (runCalls e cs) = deviceState e.
Proof.
  induction cs as [|c cs IH]; intros e; [reflexivity|].
  cbn [runCalls fold_left].
  change (fold_left applyCall cs (applyCall e c))
    with (runCalls (applyCall e c) cs).
  rewrite IH, applyCall_InvalidOr. apply InvalidOr_device.
Qed.

End TrackerFrame.

(** ** Paint sessions, step by step *)

Section SessionSteps.
Import RECT SIZE POINT User32 TrackerFacts.

Lemma StartPaint_enabled_idle env e :
  _hwndTarget e <> INVALID_HANDLE_VALUE ->
  _isPainting e = false ->
  _isEnabled e = true ->
  StartPaint env e =
  if needsResources env e then
    if succeeds env
    then (S_OK, Set_.isPainting true
                  (hold BeginDraw (snd (_CreateDeviceResources env true e))))
    else _CreateDeviceResources env true e
  else (S_OK, Set_.isPainting true (hold BeginDraw e)).
Proof.
  intros Hh Hp En. unfold StartPaint, needsResources.
  destruct (Z.eqb_spec (_hwndTarget e) INVALID_HANDLE_VALUE); [contradiction|].
  rewrite Hp, En. cbv zeta.
  destruct (negb (_haveDeviceResources e)
            || negb (cy (_displaySizePixels e) =? cy (_GetClientSize env))
            || negb (cx (_displaySizePixels e) =? cx (_GetClientSize env)));
    [|reflexivity].
  pose proof (CreateDeviceResources_outcome env e) as O. cbv zeta in O.
  destruct (_CreateDeviceResources env true e) as [hr e1]. cbn [fst snd] in *.
  destruct (succeeds env).
  - destruct O as (-> & _). reflexivity.
  - destruct O as (-> & _). reflexivity.
Qed.

Lemma StartPaint_refused env e :
  _hwndTarget e = INVALID_HANDLE_VALUE \/ _isPainting e = true
  \/ _isEnabled e = false ->
  snd (StartPaint env e) = e.
Proof.
  intros H. unfold StartPaint.
  destruct (_hwndTarget e =? INVALID_HANDLE_VALUE) eqn:Hh; [reflexivity|].
  destruct (_isPainting e); [reflexivity|].
  destruct (_isEnabled e); [|reflexivity].
  apply Z.eqb_neq in Hh. destruct H as [H|[H|H]]; congruence.
Qed.

Lemma hold_tracker f e : sameTracker e (hold f e).
Proof. repeat split. Qed.

Lemma EndPaint_ended hr e :
  _isPainting e = true ->
  _haveDeviceResources e = true ->
  SUCCEEDED hr = true ->
  let e' := snd (EndPaint hr e) in
  fst (EndPaint hr e) = hr
  /\ deviceState e' = (true, EndDraw (_com e), false, _isEnabled e)
  /\ _presentReady e' = true
  /\ _isInvalidUsed e' = false
  /\ _invalidRect e' = RECT.mk 0 0 0 0
  /\ _invalidScroll e' = SIZE.mk 0 0
  /\ _displaySizePixels e' = _displaySizePixels e
  /\ _hwndTarget e' = _hwndTarget e
  /\ _glyphCell e' = _glyphCell e.
Proof.
  intros Hp Hr Hs. unfold EndPaint, deviceState.
  rewrite Hp, Hr. cbn [negb]. cbv zeta.
  cbn -[SubtractRect IsRectEmpty Z.eqb]. rewrite Hs.
  destruct (negb (cy (_invalidScroll e) =? 0)
            || negb (cx (_invalidScroll e) =? 0));
    [destruct (IsRectEmpty _)|]; cbn; rewrite ?Hr; repeat split.
Qed.

Lemma EndPaint_lost hr e :
  _isPainting e = true ->
  _haveDeviceResources e = true ->
  SUCCEEDED hr = false ->
  let e' := snd (EndPaint hr e) in
  fst (EndPaint hr e) = hr
  /\ deviceState e' = (false, noCom, false, _isEnabled e)
  /\ _presentReady e' = false.
Proof.
  intros Hp Hr Hs. unfold EndPaint, deviceState.
  rewrite Hp, Hr. cbn [negb]. cbv zeta.
  cbn -[SubtractRect IsRectEmpty Z.eqb]. rewrite Hs. cbn. repeat split.
Qed.

Lemma EndPaint_without_resources hr e :
  _isPainting e = true ->
  _haveDeviceResources e = false ->
  EndPaint hr e =
  (S_OK, Set_.invalidScroll (SIZE.mk 0 0)
           (Set_.isInvalidUsed false
              (Set_.invalidRect (RECT.mk 0 0 0 0) e))).
Proof. intros Hp Hr. unfold EndPaint. now rewrite Hp, Hr. Qed.

Lemma Present_device env e :
  deviceState (applyOp e (OpPresent env)) = deviceState e
  /\ sameTracker e (applyOp e (OpPresent env)).
Proof.
  cbn [applyOp]. unfold Present.
  destruct (_presentReady e); [|repeat split].
  destruct (FAILED (Present1 env)); [repeat split|].
  destruct (FAILED (_CopyFrontToBack env)); repeat split.
Qed.

Lemma EnableDisplayAccess_device e b :
  resourcesSound e -> resourcesSound (snd (_EnableDisplayAccess e b)).
Proof.
  unfold resourcesSound, _EnableDisplayAccess.
  destruct b, (_isEnabled e) eqn:En, (_haveDeviceResources e) eqn:Hr;
    cbn; rewrite ?Hr, ?En; cbn; auto; intros [? ?]; auto; discriminate.
Qed.

End SessionSteps.

(** ** Invariants of the session *)

Section SessionInvariants.
Import RECT SIZE POINT User32 TrackerFacts.

Lemma resourcesSound_device e e' :
  deviceState e' = deviceState e -> resourcesSound e -> resourcesSound e'.
Proof.
  unfold deviceState, resourcesSound. intros [= -> -> -> ->]. auto.
Qed.

Lemma InvalidOr_window e rc : windowState (_InvalidOr e rc) = windowState e.
Proof. unfold _InvalidOr. destruct (_isInvalidUsed e); reflexivity. Qed.

Lemma runCalls_window cs : forall e, windowState (runCalls e cs) = windowState e.
Proof.
  induction cs as [|c cs IH]; intros e; [reflexivity|].
  cbn [runCalls fold_left].
  change (fold_left applyCall cs (applyCall e c))
    with (runCalls (applyCall e c) cs).
  rewrite IH, applyCall_InvalidOr. apply InvalidOr_window.
Qed.

(** What a [StartPaint] that opens a session leaves. *)
Lemma StartPaint_opened env e :
  _hwndTarget e <> INVALID_HANDLE_VALUE ->
  _isPainting e = false ->
  _isEnabled e = true ->
  needsResources env e && negb (succeeds env) = false ->
  let e' := snd (StartPaint env e) in
  fst (StartPaint env e) = S_OK
  /\ _isPainting e' = true
  /\ _isEnabled e' = true
  /\ _haveDeviceResources e' = true
  /\ _com e' = (if needsResources env e then allHeld true
                else BeginDraw (_com e))
  /\ needsResources env e' = false
  /\ _hwndTarget e' = _hwndTarget e
  /\ _glyphCell e' = _glyphCell e
  /\ sameTracker e e'.
Proof.
  intros Hh Hp En Hok. rewrite (StartPaint_enabled_idle env e Hh Hp En).
  destruct (needsResources env e) eqn:Need.
  - destruct (succeeds env) eqn:Hs; [|discriminate Hok].
    destruct (CreateDeviceResources_built env e Hs) as (_ & Hr & Hc & Hd).
    destruct (CreateDeviceResources_keeps env e) as (T & E1 & _ & H1 & G1 & _).
    cbv zeta in *. cbn [fst snd]. unfold needsResources, hold.
    cbn -[_GetClientSize]. rewrite Hr, Hc, Hd, Hp, !Z.eqb_refl. cbn.
    destruct T as (T1 & T2 & T3). repeat split; auto; congruence.
  - cbn [fst snd]. unfold needsResources in *. cbn -[_GetClientSize].
    apply orb_false_iff in Need. destruct Need as [Need N3].
    apply orb_false_iff in Need. destruct Need as [N1 N2].
    rewrite N1, N2, N3. apply negb_false_iff in N1.
    repeat split; auto.
Qed.

Lemma StartPaint_failed env e :
  _hwndTarget e <> INVALID_HANDLE_VALUE ->
  _isPainting e = false ->
  _isEnabled e = true ->
  needsResources env e && negb (succeeds env) = true ->
  let e' := snd (StartPaint env e) in
  FAILED (fst (StartPaint env e)) = true
  /\ deviceState e' = (false, noCom, false, true)
  /\ sameTracker e e'.
Proof.
  intros Hh Hp En Hbad. rewrite (StartPaint_enabled_idle env e Hh Hp En).
  apply andb_true_iff in Hbad. destruct Hbad as [-> Hs].
  apply negb_true_iff in Hs. rewrite Hs.
  destruct (CreateDeviceResources_released env e Hs) as (Hf & Hr & Hc).
  destruct (CreateDeviceResources_keeps env e) as (T & E1 & P1 & _).
  cbv zeta in *. unfold deviceState. rewrite Hr, Hc, E1, P1, Hp, En. auto.
Qed.

Lemma StartPaint_sound env e :
  resourcesSound e -> resourcesSound (snd (StartPaint env e)).
Proof.
  intros S.
  destruct (Z.eq_dec (_hwndTarget e) INVALID_HANDLE_VALUE) as [Hh|Hh];
    [now rewrite StartPaint_refused by auto|].
  destruct (_isPainting e) eqn:Hp; [now rewrite StartPaint_refused by auto|].
  destruct (_isEnabled e) eqn:En; [|now rewrite StartPaint_refused by auto].
  destruct (needsResources env e && negb (succeeds env)) eqn:Bad.
  - destruct (StartPaint_failed env e Hh Hp En Bad) as (_ & D & _).
    unfold resourcesSound, deviceState in *. now injection D as -> -> _ _.
  - destruct (StartPaint_opened env e Hh Hp En Bad)
      as (_ & P' & E' & R' & C' & Need' & _).
    cbv zeta in *. unfold resourcesSound in *. rewrite R', C', P', E'.
    split; [|reflexivity].
    destruct (needsResources env e) eqn:Need; [reflexivity|].
    unfold needsResources in Need.
    apply orb_false_iff in Need. destruct Need as [Need _].
    apply orb_false_iff in Need. destruct Need as [N1 _].
    apply negb_false_iff in N1. rewrite N1, Hp in S.
    destruct S as [-> _]. reflexivity.
Qed.

Lemma EndPaint_sound hr e :
  resourcesSound e -> resourcesSound (snd (EndPaint hr e)).
Proof.
  intros S. destruct (_isPainting e) eqn:Hp.
  - destruct (_haveDeviceResources e) eqn:Hr.
    + destruct (SUCCEEDED hr) eqn:Hs.
      * destruct (EndPaint_ended hr e Hp Hr Hs) as (_ & D & _).
        cbv zeta in D. unfold resourcesSound, deviceState in *.
        injection D as -> -> -> ->. rewrite Hr, Hp in S.
        destruct S as [-> ->]. split; reflexivity.
      * destruct (EndPaint_lost hr e Hp Hr Hs) as (_ & D & _).
        cbv zeta in D. unfold resourcesSound, deviceState in *.
        now injection D as -> -> _ _.
    + rewrite EndPaint_without_resources by assumption. cbn [snd].
      eapply resourcesSound_device; [|exact S]. reflexivity.
  - unfold EndPaint. rewrite Hp. exact S.
Qed.

Lemma applyOp_sound e op : resourcesSound e -> resourcesSound (applyOp e op).
Proof.
  intros S. destruct op; cbn [applyOp].
  - exact S.
  - now apply EnableDisplayAccess_device.
  - now apply EnableDisplayAccess_device.
  - eapply resourcesSound_device; [apply InvalidOr_device | exact S].
  - eapply resourcesSound_device; [apply InvalidOr_device | exact S].
  - rewrite InvalidateSelection_runCalls. cbn [snd].
    eapply resourcesSound_device; [apply runCalls_device | exact S].
  - eapply resourcesSound_device; [apply InvalidateScroll_device | exact S].
  - eapply resourcesSound_device; [apply InvalidOr_device | exact S].
  - now apply StartPaint_sound.
  - now apply EndPaint_sound.
  - eapply resourcesSound_device; [|exact S].
    apply (Present_device env e).
Qed.

(** X2: in every state the public calls can bring the engine to from
    construction, the device resources are whole or absent: with
    [_haveDeviceResources] set every device pointer is held, the render
    target's draw batch is open exactly while a session is open and the
    engine is enabled; without it no pointer is held. *)
Theorem X2_resources_whole_or_absent baseline ops :
  resourcesSound (runOps (DxEngine_ctor baseline) ops).
Proof.
  assert (G : forall e, resourcesSound e -> resourcesSound (runOps e ops)).
  { induction ops as [|op ops IH]; intros e S; [exact S|].
    cbn [runOps fold_left]. apply IH. now apply applyOp_sound. }
  apply G. reflexivity.
Qed.

End SessionInvariants.

(** ** Starting, ending and presenting frames *)

Section Frames.
Import RECT SIZE POINT User32 TrackerFacts.

Lemma no_need_size env e :
  needsResources env e = false ->
  _haveDeviceResources e = true /\ _displaySizePixels e = _GetClientSize env.
Proof.
  unfold needsResources. intros Need.
  apply orb_false_iff in Need. destruct Need as [Need N3].
  apply orb_false_iff in Need. destruct Need as [N1 N2].
  apply negb_false_iff in N1, N2, N3. apply Z.eqb_eq in N2, N3.
  split; [exact N1|].
  destruct (_displaySizePixels e), (_GetClientSize env). cbn in *. congruence.
Qed.

(** X3: on an enabled engine with a target window and no session open,
    [StartPaint] fails only when resources had to be built (none existed
    or the window size changed) and a creation call failed; it then
    leaves no session and no resources.  Otherwise it returns [S_OK]
    with the session open, resources held and the display size equal to
    the window's client size; resources that matched the window are kept
    and only have their draw batch opened.  The invalidation tracker is
    the same in both cases. *)
Theorem X3_start_paint_outcome env e :
  _hwndTarget e <> INVALID_HANDLE_VALUE ->
  _isPainting e = false ->
  _isEnabled e = true ->
  let r := StartPaint env e in
  sameTracker e (snd r)
  /\ if needsResources env e && negb (succeeds env)
     then FAILED (fst r) = true
          /\ _isPainting (snd r) = false
          /\ _haveDeviceResources (snd r) = false
          /\ _com (snd r) = noCom
     else fst r = S_OK
          /\ _isPainting (snd r) = true
          /\ _haveDeviceResources (snd r) = true
          /\ _displaySizePixels (snd r) = _GetClientSize env
          /\ _com (snd r) = (if needsResources env e then allHeld true
                             else BeginDraw (_com e)).
Proof.
  intros Hh Hp En r. subst r.
  destruct (needsResources env e && negb (succeeds env)) eqn:Bad.
  - destruct (StartPaint_failed env e Hh Hp En Bad) as (F & D & T).
    cbv zeta in *. unfold deviceState in D. injection D as D1 D2 D3 _.
    auto.
  - destruct (StartPaint_opened env e Hh Hp En Bad)
      as (F & P' & _ & R' & C' & Need' & _ & _ & T).
    cbv zeta in *. destruct (no_need_size env _ Need') as (_ & Sz). auto 8.
Qed.

(** The first frame of an enabled engine on an 800 by 384 window. *)
Lemma X3_start_paint_outcome_witness :
  let env := healthyEnv 800 384 in
  let e := snd (Enable (snd (SetHwnd (DxEngine_ctor F32.zero) 1))) in
  let r := StartPaint env e in
  sameTracker e (snd r)
  /\ fst r = S_OK
  /\ _isPainting (snd r) = true
  /\ _haveDeviceResources (snd r) = true
  /\ _displaySizePixels (snd r) = SIZE.mk 800 384
  /\ _com (snd r) = allHeld true.
Proof.
  intros env e r.
  assert (Hh : _hwndTarget e <> INVALID_HANDLE_VALUE)
    by (vm_compute; discriminate).
  exact (X3_start_paint_outcome env e Hh eq_refl eq_refl).
Defined.

Lemma applyOp_keeps_stuck e op :
  _isPainting e = true /\ _haveDeviceResources e = false ->
  _isPainting (applyOp e op) = true
  /\ _haveDeviceResources (applyOp e op) = false.
Proof.
  intros [Hp Hr].
  assert (Dev : forall e', deviceState e' = deviceState e ->
                  _isPainting e' = true /\ _haveDeviceResources e' = false).
  { unfold deviceState. intros e' [= -> _ -> _]. auto. }
  destruct op; cbn [applyOp].
  - auto.
  - unfold Enable, _EnableDisplayAccess.
    destruct (_isEnabled e); cbn; auto.
  - unfold Disable, _EnableDisplayAccess.
    destruct (_isEnabled e); cbn; auto.
  - apply Dev, InvalidOr_device.
  - apply Dev, InvalidOr_device.
  - rewrite InvalidateSelection_runCalls. apply Dev, runCalls_device.
  - apply Dev, InvalidateScroll_device.
  - apply Dev, InvalidOr_device.
  - rewrite StartPaint_refused by auto. auto.
  - rewrite EndPaint_without_resources by assumption. auto.
  - apply Dev, (Present_device env e).
Qed.

(** X4: an engine whose session is open while its device resources are
    gone never leaves that state: after any sequence of public calls the
    session is still open, no resources exist, and [StartPaint] is
    refused with [E_HANDLE] or [E_NOT_VALID_STATE].  [Disable] during a
    session brings this state about. *)
Theorem X4_session_without_resources_is_final e ops env :
  _isPainting e = true ->
  _haveDeviceResources e = false ->
  let e' := runOps e ops in
  _isPainting e' = true
  /\ _haveDeviceResources e' = false
  /\ StartPaint env e' =
     (if _hwndTarget e' =? INVALID_HANDLE_VALUE
      then E_HANDLE else E_NOT_VALID_STATE, e').
Proof.
  intros Hp Hr e'.
  assert (G : _isPainting e' = true /\ _haveDeviceResources e' = false).
  { subst e'. revert e Hp Hr.
    induction ops as [|op ops IH]; intros e Hp Hr; [auto|].
    cbn [runOps fold_left].
    destruct (applyOp_keeps_stuck e op (conj Hp Hr)) as [Hp' Hr'].
    now apply IH. }
  destruct G as [Gp Gr]. repeat split; auto.
  unfold StartPaint. rewrite Gp.
  destruct (_hwndTarget e' =? INVALID_HANDLE_VALUE); reflexivity.
Qed.

(** [Disable] in the middle of a session, then an [EndPaint], a fresh
    [Enable] and a new [StartPaint]. *)
Lemma X4_session_without_resources_is_final_witness :
  let env := healthyEnv 800 384 in
  let e := snd (Disable paintingEngine) in
  let e' := runOps e [OpEndPaint S_OK; OpEnable; OpStartPaint env] in
  _isPainting e' = true
  /\ _haveDeviceResources e' = false
  /\ StartPaint env e' =
     (if _hwndTarget e' =? INVALID_HANDLE_VALUE
      then E_HANDLE else E_NOT_VALID_STATE, e').
Proof.
  intros env e e'.
  exact (X4_session_without_resources_is_final e
           [OpEndPaint S_OK; OpEnable; OpStartPaint env] env eq_refl eq_refl).
Defined.

Lemma Present_done penv e :
  _presentReady e = true ->
  FAILED (Present1 penv) = false ->
  FAILED (_CopyFrontToBack penv) = false ->
  Present penv e =
  Returned (Some (readPlan e)) S_OK
    (Set_.presentParams zeroParams
       (Set_.presentScroll (RECT.mk 0 0 0 0)
          (Set_.presentOffset (POINT.mk 0 0)
             (Set_.presentDirty (RECT.mk 0 0 0 0)
                (Set_.presentReady false e))))).
Proof. intros R P C. unfold Present. now rewrite R, P, C. Qed.

(** X5: a [Present] whose calls succeed hands the ready plan to the swap
    chain once: it returns [S_OK], marks no plan ready and resets the
    presentation parameters, so that a [Present] right after it hands
    nothing over and changes nothing.  It leaves the tracker, the session
    and the device members alone. *)
Theorem X5_present_hands_plan_once penv penv' e :
  _presentReady e = true ->
  FAILED (Present1 penv) = false ->
  FAILED (_CopyFrontToBack penv) = false ->
  exists e',
    Present penv e = Returned (Some (readPlan e)) S_OK e'
    /\ _presentReady e' = false
    /\ _presentParams e' = zeroParams
    /\ readPlan e' = mkPlan [] None None
    /\ Present penv' e' = Returned None S_OK e'
    /\ sameTracker e e'
    /\ deviceState e' = deviceState e.
Proof.
  intros R P C. eexists. split; [now apply Present_done|].
  repeat split.
Qed.

Lemma X5_present_hands_plan_once_witness :
  let e := snd (EndPaint S_OK
                  (snd (InvalidateSystem paintingEngine (RECT.mk 0 0 10 10)))) in
  exists e',
    Present healthyPresent e = Returned (Some (readPlan e)) S_OK e'
    /\ _presentReady e' = false
    /\ _presentParams e' = zeroParams
    /\ readPlan e' = mkPlan [] None None
    /\ Present healthyPresent e' = Returned None S_OK e'
    /\ sameTracker e e'
    /\ deviceState e' = deviceState e.
Proof.
  intros e.
  exact (X5_present_hands_plan_once healthyPresent healthyPresent e
           eq_refl eq_refl eq_refl).
Defined.

(** X6: a [Present] whose buffer copy fails after the swap chain took
    the plan returns that failure and changes nothing: the plan is still
    ready and the next [Present] hands the same plan over again. *)
Theorem X6_failed_copy_keeps_plan penv penv' e :
  _presentReady e = true ->
  FAILED (Present1 penv) = false ->
  FAILED (_CopyFrontToBack penv) = true ->
  Present penv e = Returned (Some (readPlan e)) (_CopyFrontToBack penv) e
  /\ handed (Present penv' e) = Some (readPlan e).
Proof.
  intros R P C. split.
  - unfold Present. now rewrite R, P, C.
  - unfold Present. rewrite R.
    destruct (FAILED (Present1 penv')); [reflexivity|].
    destruct (FAILED (_CopyFrontToBack penv')); reflexivity.
Qed.

(** The copy fails with [DXGI_ERROR_DEVICE_REMOVED]. *)
Lemma X6_failed_copy_keeps_plan_witness :
  let e := snd (EndPaint S_OK
                  (snd (InvalidateSystem paintingEngine (RECT.mk 0 0 10 10)))) in
  let penv := mkPresentEnv S_OK (-2005270523) S_OK in
  Present penv e = Returned (Some (readPlan e)) (_CopyFrontToBack penv) e
  /\ handed (Present healthyPresent e) = Some (readPlan e).
Proof.
  intros e penv.
  exact (X6_failed_copy_keeps_plan penv healthyPresent e
           eq_refl eq_refl eq_refl).
Defined.

End Frames.

(** ** A whole frame *)

Section FrameCycle.
Import RECT SIZE POINT User32 TrackerFacts.

Lemma needsResources_by_state env e e' :
  _haveDeviceResources e' = _haveDeviceResources e ->
  _displaySizePixels e' = _displaySizePixels e ->
  needsResources env e' = needsResources env e.
Proof. unfold needsResources. now intros -> ->. Qed.

(** X7: a frame that goes well returns the engine to where the next
    frame can start.  On an enabled engine with a target window, no
    session open and sound resources, when resource creation (if it is
    needed), [EndDraw] and the present calls succeed, then [StartPaint],
    any invalidate calls, [EndPaint] and [Present] all succeed, the plan
    built by [EndPaint] is the one handed to the swap chain, and
    afterwards no session is open, no plan is ready, the tracker is
    empty, the resources are kept, and a [StartPaint] for the same window
    size opens the next session without rebuilding them. *)
Theorem X7_frame_cycle env penv hr e cs :
  _hwndTarget e <> INVALID_HANDLE_VALUE ->
  _isPainting e = false ->
  _isEnabled e = true ->
  resourcesSound e ->
  needsResources env e && negb (succeeds env) = false ->
  SUCCEEDED hr = true ->
  FAILED (Present1 penv) = false ->
  FAILED (_CopyFrontToBack penv) = false ->
  let e1 := snd (StartPaint env e) in
  let e2 := runCalls e1 cs in
  let e3 := snd (EndPaint hr e2) in
  let e4 := applyOp e3 (OpPresent penv) in
  fst (StartPaint env e) = S_OK
  /\ fst (EndPaint hr e2) = hr
  /\ Present penv e3 = Returned (Some (readPlan e3)) S_OK e4
  /\ _isPainting e4 = false
  /\ _presentReady e4 = false
  /\ _isInvalidUsed e4 = false
  /\ _invalidScroll e4 = SIZE.mk 0 0
  /\ _com e4 = allHeld false
  /\ needsResources env e4 = false
  /\ fst (StartPaint env e4) = S_OK
  /\ _com (snd (StartPaint env e4)) = allHeld true.
Proof.
  intros Hh Hp En S Ok Hs P C e1 e2 e3 e4.
  destruct (StartPaint_opened env e Hh Hp En Ok)
    as (F1 & P1 & E1 & R1 & C1 & N1 & H1 & _ & _).
  fold e1 in P1, E1, R1, C1, N1, H1.
  assert (C1' : _com e1 = allHeld true).
  { rewrite C1. destruct (needsResources env e) eqn:Need; [reflexivity|].
    destruct (no_need_size env e Need) as (Hr & _).
    unfold resourcesSound in S. rewrite Hr, Hp in S.
    destruct S as [-> _]. reflexivity. }
  pose proof (runCalls_device cs e1) as D2. fold e2 in D2.
  pose proof (runCalls_window cs e1) as W2. fold e2 in W2.
  unfold deviceState in D2. injection D2 as R2 C2 P2 E2.
  unfold windowState in W2. injection W2 as Sz2 H2 _.
  rewrite P1 in P2. rewrite R1 in R2.
  destruct (EndPaint_ended hr e2 P2 R2 Hs)
    as (F3 & D3 & Rd3 & U3 & _ & Sc3 & Sz3 & H3 & _).
  fold e3 in D3, Rd3, U3, Sc3, Sz3, H3.
  unfold deviceState in D3. injection D3 as R3 C3 P3 E3.
  assert (E4 : Present penv e3 = Returned (Some (readPlan e3)) S_OK e4).
  { subst e4. cbn [applyOp]. now rewrite (Present_done penv e3 Rd3 P C). }
  assert (V4 : e4 = Set_.presentParams zeroParams
                      (Set_.presentScroll (RECT.mk 0 0 0 0)
                         (Set_.presentOffset (POINT.mk 0 0)
                            (Set_.presentDirty (RECT.mk 0 0 0 0)
                               (Set_.presentReady false e3))))).
  { subst e4. cbn [applyOp]. now rewrite (Present_done penv e3 Rd3 P C). }
  assert (N4 : needsResources env e4 = false).
  { rewrite <- N1. apply needsResources_by_state.
    - rewrite V4. cbn. congruence.
    - rewrite V4. cbn. congruence. }
  assert (C4 : _com e4 = allHeld false).
  { rewrite V4. cbn. rewrite C3, C2, C1'. reflexivity. }
  assert (Hh4 : _hwndTarget e4 <> INVALID_HANDLE_VALUE).
  { rewrite V4. cbn. congruence. }
  assert (P4 : _isPainting e4 = false) by (rewrite V4; cbn; exact P3).
  assert (En4 : _isEnabled e4 = true) by (rewrite V4; cbn; congruence).
  assert (Ok4 : needsResources env e4 && negb (succeeds env) = false)
    by now rewrite N4.
  destruct (StartPaint_opened env e4 Hh4 P4 En4 Ok4)
    as (F5 & _ & _ & _ & C5 & _).
  rewrite N4, C4 in C5.
  split; [exact F1|]. split; [exact F3|]. split; [exact E4|].
  split; [exact P4|]. split; [now rewrite V4|].
  split; [rewrite V4; exact U3|]. split; [rewrite V4; exact Sc3|].
  split; [exact C4|]. split; [exact N4|]. split; [exact F5|exact C5].
Qed.

(** The first frame on an 800 by 384 window, with one character
    rectangle and one pixel rectangle invalidated. *)
Lemma X7_frame_cycle_witness :
  let env := healthyEnv 800 384 in
  let e := Set_.glyphCell (SIZE.mk 8 16)
             (snd (Enable (snd (SetHwnd (DxEngine_ctor F32.zero) 1)))) in
  let cs := [invalidateCells (SMALL_RECT.mk 0 0 9 0);
             invalidatePixels (RECT.mk 700 300 900 400)] in
  let e1 := snd (StartPaint env e) in
  let e2 := runCalls e1 cs in
  let e3 := snd (EndPaint S_OK e2) in
  let e4 := applyOp e3 (OpPresent healthyPresent) in
  fst (StartPaint env e) = S_OK
  /\ fst (EndPaint S_OK e2) = S_OK
  /\ Present healthyPresent e3 = Returned (Some (readPlan e3)) S_OK e4
  /\ _isPainting e4 = false
  /\ _presentReady e4 = false
  /\ _isInvalidUsed e4 = false
  /\ _invalidScroll e4 = SIZE.mk 0 0
  /\ _com e4 = allHeld false
  /\ needsResources env e4 = false
  /\ fst (StartPaint env e4) = S_OK
  /\ _com (snd (StartPaint env e4)) = allHeld true.
Proof.
  intros env e cs.
  assert (Hh : _hwndTarget e <> INVALID_HANDLE_VALUE)
    by (vm_compute; discriminate).
  exact (X7_frame_cycle env healthyPresent S_OK e cs Hh eq_refl eq_refl
           eq_refl eq_refl eq_refl eq_refl eq_refl).
Defined.

End FrameCycle.

(** ** No dirty pixel is lost *)

Section Coverage.
Import RECT SIZE User32 RectFacts TrackerFacts.

Lemma IsRectEmpty_cases r :
  (IsRectEmpty r = true /\ (right r <= left r \/ bottom r <= top r))
  \/ (IsRectEmpty r = false /\ proper r).
Proof.
  unfold IsRectEmpty, proper. destruct r as [l t r b]; cbn.
  destruct (Z.leb_spec r l), (Z.leb_spec b t); cbn; auto; right; auto.
Qed.

Lemma clamp_union_covers d r rc px py :
  covers d px py -> covers r px py \/ covers rc px py ->
  covers (clampTo d (unionOf r rc)) px py.
Proof.
  unfold clampTo, unionOf, UnionRect.
  destruct (IsRectEmpty_cases r) as [[-> Er]|[-> Er]],
           (IsRectEmpty_cases rc) as [[-> Ec]|[-> Ec]];
    cbn [snd]; revert Er Ec;
    unfold covers, proper, IntersectRect, IsRectEmpty, SetRectEmpty;
    destruct d as [dl dt dr db], r as [l t r b], rc as [l' t' r' b']; cbn;
    intros Er Ec Hd Hc; cmp; cbn; lia.
Qed.

Lemma InvalidOr_covers e rc px py :
  covers (_GetDisplayRect e) px py ->
  covers rc px py \/ (_isInvalidUsed e = true /\ covers (_invalidRect e) px py) ->
  covers (_invalidRect (_InvalidOr e rc)) px py.
Proof.
  intros Hd Hc. rewrite InvalidOr_rect.
  destruct (_isInvalidUsed e).
  - apply clamp_union_covers; [exact Hd|]. tauto.
  - destruct Hc as [Hc|[Hc _]]; [exact Hc | discriminate].
Qed.

Lemma runCalls_marked c cs e : _isInvalidUsed (runCalls e (c :: cs)) = true.
Proof.
  revert c e. induction cs as [|c' cs IH]; intros c e.
  - cbn. rewrite applyCall_InvalidOr. apply InvalidOr_used.
  - change (runCalls e (c :: c' :: cs))
      with (runCalls (applyCall e c) (c' :: cs)).
    apply IH.
Qed.

(** X8: invalidate calls never lose a dirty pixel of the display.  A
    pixel of the display that lies in the dirty rectangle already marked,
    or in the pixel rectangle of any call of a sequence, lies in the
    dirty rectangle after the sequence, in whatever order and from
    whatever state the calls are made. *)
Theorem X8_no_dirty_pixel_lost cs : forall e px py,
  covers (_GetDisplayRect e) px py ->
  (_isInvalidUsed e = true /\ covers (_invalidRect e) px py)
  \/ Exists (fun c => covers (callPixels (_glyphCell e) c) px py) cs ->
  _isInvalidUsed (runCalls e cs) = true
  /\ covers (_invalidRect (runCalls e cs)) px py.
Proof.
  induction cs as [|c cs IH]; intros e px py Hd Hc.
  - destruct Hc as [Hc|Hc]; [exact Hc | inversion Hc].
  - change (runCalls e (c :: cs)) with (runCalls (applyCall e c) cs).
    rewrite applyCall_InvalidOr.
    assert (Hg : _glyphCell (_InvalidOr e (callPixels (_glyphCell e) c))
                 = _glyphCell e) by apply InvalidOr_glyphCell.
    apply IH.
    + now rewrite GetDisplayRect_InvalidOr.
    + rewrite Hg.
      destruct Hc as [Hc|Hc]; [|inversion Hc as [? ? Hc'|? ? Hc']; subst].
      * left. split; [apply InvalidOr_used|].
        apply InvalidOr_covers; auto.
      * left. split; [apply InvalidOr_used|].
        apply InvalidOr_covers; auto.
      * right. exact Hc'.
Qed.

(** The pixel (95, 5) of a 100 by 100 display lies in the second of three
    rectangles, two of which begin or lie outside the display. *)
Lemma X8_no_dirty_pixel_lost_witness :
  let e := engineWith (SIZE.mk 100 100) (SIZE.mk 8 16) in
  let cs := [invalidatePixels (RECT.mk 200 0 300 10);
             invalidatePixels (RECT.mk 90 0 300 10);
             invalidateCells (SMALL_RECT.mk 0 0 1 0)] in
  _isInvalidUsed (runCalls e cs) = true
  /\ covers (_invalidRect (runCalls e cs)) 95 5.
Proof.
  intros e cs. apply (X8_no_dirty_pixel_lost cs e 95 5).
  - unfold covers. cbn. lia.
  - right. apply Exists_cons_tl, Exists_cons_hd. unfold covers. cbn. lia.
Defined.

Lemma clamp_union_display d r :
  proper d -> clampTo d (unionOf r d) = d /\ clampTo d (unionOf d r) = d.
Proof.
  intros Hd. unfold clampTo, unionOf, UnionRect.
  assert (Ed : IsRectEmpty d = false) by now apply IsRectEmpty_proper.
  rewrite Ed.
  destruct (IsRectEmpty_cases r) as [[-> Er]|[-> Er]];
    cbn [snd]; revert Hd Er;
    unfold proper, IntersectRect, IsRectEmpty, SetRectEmpty;
    destruct d as [dl dt dr db], r as [l t r b]; cbn;
    intros Hd Er; split; cmp; cbn; try lia; f_equal; lia.
Qed.

(** X9: [InvalidateAll] on a display that is not empty makes the dirty
    rectangle the whole display, whatever was marked before, and every
    invalidate call after it leaves it the whole display. *)
Theorem X9_invalidate_all_is_whole_display e cs :
  proper (_GetDisplayRect e) ->
  let e' := snd (InvalidateAll e) in
  fst (InvalidateAll e) = S_OK
  /\ _isInvalidUsed e' = true
  /\ _invalidRect e' = _GetDisplayRect e
  /\ _invalidRect (runCalls e' cs) = _GetDisplayRect e.
Proof.
  intros Hd e'. subst e'. cbn [InvalidateAll fst snd].
  assert (R : _invalidRect (_InvalidOr e (_GetDisplayRect e))
              = _GetDisplayRect e).
  { rewrite InvalidOr_rect. destruct (_isInvalidUsed e); [|reflexivity].
    now apply clamp_union_display. }
  split; [reflexivity|]. split; [apply InvalidOr_used|]. split; [exact R|].
  rewrite runCalls_used by apply InvalidOr_used.
  rewrite GetDisplayRect_InvalidOr, R.
  generalize (map (callPixels (_glyphCell (_InvalidOr e (_GetDisplayRect e))))
                  cs).
  intros rs. induction rs as [|r rs IH]; [reflexivity|].
  cbn [accumulate fold_left].
  destruct (clamp_union_display (_GetDisplayRect e) r Hd) as [_ ->].
  exact IH.
Qed.

Lemma X9_invalidate_all_is_whole_display_witness :
  let e := snd (Invalidate (engineWith (SIZE.mk 800 384) (SIZE.mk 8 16))
                           (SMALL_RECT.mk 3 1 12 2)) in
  let cs := [invalidatePixels (RECT.mk 700 300 900 400)] in
  let e' := snd (InvalidateAll e) in
  fst (InvalidateAll e) = S_OK
  /\ _isInvalidUsed e' = true
  /\ _invalidRect e' = _GetDisplayRect e
  /\ _invalidRect (runCalls e' cs) = _GetDisplayRect e.
Proof.
  intros e cs. apply (X9_invalidate_all_is_whole_display e cs).
  unfold proper. cbn. lia.
Defined.

(** X10: [InvalidateSelection] always returns [S_OK] and does what
    [Invalidate] does on each rectangle in turn; an empty selection
    changes nothing, and a selection handed over in two parts has the
    effect of the whole. *)
Theorem X10_selection_is_each_rectangle e first rest :
  InvalidateSelection e (first ++ rest)
  = (S_OK, runCalls e (map invalidateCells (first ++ rest)))
  /\ InvalidateSelection e [] = (S_OK, e)
  /\ InvalidateSelection e (first ++ rest)
     = InvalidateSelection (snd (InvalidateSelection e first)) rest.
Proof.
  split; [apply InvalidateSelection_runCalls|]. split; [reflexivity|].
  rewrite !InvalidateSelection_runCalls. cbn [snd].
  unfold runCalls. now rewrite map_app, fold_left_app.
Qed.

End Coverage.

(** ** Scrolling *)

Section ScrollFacts.
Import RECT SIZE POINT User32 IntFacts RectFacts TrackerFacts.

Lemma LONG_add_r a b : Int.LONG (a + Int.LONG b) = Int.LONG (a + b).
Proof.
  unfold Int.LONG, Int.wrap. pow2. f_equal.
  replace (a + ((b + 2147483648) mod 4294967296 - 2147483648) + 2147483648)
    with (a + (b + 2147483648) mod 4294967296) by lia.
  replace (a + b + 2147483648) with (a + (b + 2147483648)) by lia.
  now rewrite Zplus_mod_idemp_r.
Qed.

Lemma LONG_add_l a b : Int.LONG (Int.LONG a + b) = Int.LONG (a + b).
Proof. now rewrite Z.add_comm, LONG_add_r, Z.add_comm. Qed.

Lemma small_is_LONG x : - 2 ^ 30 <= x <= 2 ^ 30 -> Int.isLONG x.
Proof. unfold Int.isLONG. change (2 ^ 30) with 1073741824. pow2. lia. Qed.

Lemma InvalidateScroll_glyphCell e d :
  _glyphCell (snd (InvalidateScroll e d)) = _glyphCell e.
Proof.
  unfold InvalidateScroll.
  destruct (negb (COORD.X d =? 0) || negb (COORD.Y d =? 0)); [|reflexivity].
  cbv zeta. cbn [snd].
  repeat match goal with
    | |- context [if negb (IsRectEmpty ?r) then _ else _] =>
        destruct (negb (IsRectEmpty r))
    end;
    rewrite ?InvalidOr_glyphCell; cbn; apply InvalidOffset_frame.
Qed.

Lemma InvalidateScroll_scroll_moved e d :
  negb (COORD.X d =? 0) || negb (COORD.Y d =? 0) = true ->
  _invalidScroll (snd (InvalidateScroll e d)) =
  SIZE.mk (Int.LONG (cx (_invalidScroll e)
                     + Int.LONG (COORD.X d * cx (_glyphCell e))))
          (Int.LONG (cy (_invalidScroll e)
                     + Int.LONG (COORD.Y d * cy (_glyphCell e)))).
Proof.
  intros Hc. unfold InvalidateScroll. rewrite Hc. cbv zeta. cbn [snd].
  repeat match goal with
    | |- context [if negb (IsRectEmpty ?r) then _ else _] =>
        destruct (negb (IsRectEmpty r))
    end;
    rewrite ?InvalidOr_scroll; cbn;
    destruct (InvalidOffset_frame e
                (POINT.mk (Int.LONG (COORD.X d * cx (_glyphCell e)))
                          (Int.LONG (COORD.Y d * cy (_glyphCell e)))))
      as (_ & _ & -> & _); reflexivity.
Qed.

Lemma InvalidateScroll_scroll e d :
  isSIZE (_invalidScroll e) ->
  _invalidScroll (snd (InvalidateScroll e d)) =
  SIZE.mk (Int.LONG (cx (_invalidScroll e) + COORD.X d * cx (_glyphCell e)))
          (Int.LONG (cy (_invalidScroll e) + COORD.Y d * cy (_glyphCell e))).
Proof.
  intros [Hx Hy].
  destruct (negb (COORD.X d =? 0) || negb (COORD.Y d =? 0)) eqn:Hc.
  - rewrite InvalidateScroll_scroll_moved by exact Hc.
    now rewrite !LONG_add_r.
  - unfold InvalidateScroll. rewrite Hc. cbn [snd].
    apply orb_false_iff in Hc. destruct Hc as [Ex Ey].
    apply negb_false_iff, Z.eqb_eq in Ex, Ey.
    rewrite Ex, Ey, !Z.mul_0_l, !Z.add_0_r, !LONG_id by assumption.
    now destruct (_invalidScroll e).
Qed.

(** X11: the scroll accumulator after a run of [InvalidateScroll] calls
    is the 32-bit sum of what it held and every pixel delta, each cell
    delta times the glyph cell; a zero delta changes nothing, and scrolls
    that cancel leave the accumulator as it was. *)
Theorem X11_scroll_accumulates deltas : forall e,
  isSIZE (_invalidScroll e) ->
  InvalidateScroll e (COORD.mk 0 0) = (S_OK, e)
  /\ _invalidScroll (scrollAll e deltas) =
     SIZE.mk
       (Int.LONG (cx (_invalidScroll e)
                  + fold_right Z.add 0
                      (map (fun d => COORD.X d * cx (_glyphCell e)) deltas)))
       (Int.LONG (cy (_invalidScroll e)
                  + fold_right Z.add 0
                      (map (fun d => COORD.Y d * cy (_glyphCell e)) deltas))).
Proof.
  induction deltas as [|d deltas IH]; intros e Hs;
    (split; [reflexivity|]).
  - cbn. destruct Hs as [Hx Hy].
    rewrite !Z.add_0_r, !LONG_id by assumption. now destruct (_invalidScroll e).
  - cbn [scrollAll fold_left map fold_right].
    change (fold_left (fun e0 d0 => snd (InvalidateScroll e0 d0)) deltas
              (snd (InvalidateScroll e d)))
      with (scrollAll (snd (InvalidateScroll e d)) deltas).
    assert (Hs' : isSIZE (_invalidScroll (snd (InvalidateScroll e d)))).
    { rewrite InvalidateScroll_scroll by exact Hs.
      split; apply LONG_range. }
    destruct (IH _ Hs') as [_ ->].
    rewrite InvalidateScroll_glyphCell, InvalidateScroll_scroll by exact Hs.
    cbn [cx cy]. rewrite !LONG_add_l. f_equal; f_equal; lia.
Qed.

(** Two lines up, then two lines down. *)
Lemma X11_scroll_accumulates_witness :
  let e := engineWith (SIZE.mk 800 384) (SIZE.mk 8 16) in
  InvalidateScroll e (COORD.mk 0 0) = (S_OK, e)
  /\ _invalidScroll (scrollAll e [COORD.mk 0 (-2); COORD.mk 0 2])
     = SIZE.mk 0 0.
Proof.
  intros e.
  assert (Hs : isSIZE (_invalidScroll e))
    by (split; unfold Int.isLONG; cbn; lia).
  exact (X11_scroll_accumulates [COORD.mk 0 (-2); COORD.mk 0 2] e Hs).
Defined.

End ScrollFacts.

(** ** What a scroll uncovers *)

Section Reveal.
Import RECT SIZE POINT User32 IntFacts RectFacts TrackerFacts.

Lemma OffsetRect_small r dx dy :
  - 2 ^ 30 <= left r <= 2 ^ 30 -> - 2 ^ 30 <= right r <= 2 ^ 30 ->
  - 2 ^ 30 <= top r <= 2 ^ 30 -> - 2 ^ 30 <= bottom r <= 2 ^ 30 ->
  - 2 ^ 30 < dx < 2 ^ 30 -> - 2 ^ 30 < dy < 2 ^ 30 ->
  OffsetRect r dx dy
  = RECT.mk (left r + dx) (top r + dy) (right r + dx) (bottom r + dy).
Proof.
  change (2 ^ 30) with 1073741824. intros Hl Hr Ht Hb Hx Hy.
  unfold OffsetRect.
  rewrite !LONG_id by (unfold Int.isLONG; pow2; lia). reflexivity.
Qed.

Lemma clampTo_disjoint d r :
  right r <= left d \/ right d <= left r
  \/ bottom r <= top d \/ bottom d <= top r ->
  clampTo d r = SetRectEmpty.
Proof.
  unfold clampTo, IntersectRect, IsRectEmpty, SetRectEmpty.
  destruct d, r; cbn. intros H. cmp; try lia; reflexivity.
Qed.

Lemma SubtractRect_null d : proper d -> snd (SubtractRect d SetRectEmpty) = d.
Proof.
  intros Hd. unfold SubtractRect.
  assert (E : IsRectEmpty d = false) by now apply IsRectEmpty_proper.
  rewrite E. unfold IntersectRect. rewrite E. reflexivity.
Qed.

(** Subtracting a rectangle that lies inside the first one. *)
Lemma SubtractRect_of_inside d x :
  inside d x ->
  snd (SubtractRect d x) =
  if EqualRect x d then SetRectEmpty
  else if (top x =? top d) && (bottom x =? bottom d) then
    if left x =? left d then RECT.mk (right x) (top d) (right d) (bottom d)
    else if right x =? right d
         then RECT.mk (left d) (top d) (left x) (bottom d)
         else d
  else if (left x =? left d) && (right x =? right d) then
    if top x =? top d then RECT.mk (left d) (bottom x) (right d) (bottom d)
    else if bottom x =? bottom d
         then RECT.mk (left d) (top d) (right d) (top x)
         else d
  else d.
Proof.
  intros Hin.
  assert (Hd : IsRectEmpty d = false).
  { apply IsRectEmpty_proper. revert Hin. unfold inside, proper. lia. }
  assert (Hi : IntersectRect d x = (true, x)).
  { revert Hin. unfold inside, proper, IntersectRect, IsRectEmpty.
    destruct d, x; cbn. intros Hin. cmp; try lia. f_equal. f_equal; lia. }
  unfold SubtractRect. rewrite Hd, Hi.
  repeat match goal with
    | |- context [if ?c then _ else _] => destruct c
    end; reflexivity.
Qed.

(** The rectangle a horizontal shift uncovers. *)
Lemma reveal_strip_x W H p :
  0 < W < 2 ^ 30 -> 0 < H < 2 ^ 30 -> - 2 ^ 30 < p < 2 ^ 30 ->
  revealRect (RECT.mk 0 0 W H) p 0 =
  if p =? 0 then SetRectEmpty
  else if W <=? Z.abs p then RECT.mk 0 0 W H
  else if 0 <? p then RECT.mk 0 0 p H
  else RECT.mk (W + p) 0 W H.
Proof.
  change (2 ^ 30) with 1073741824. intros HW HH Hp. unfold revealRect.
  rewrite OffsetRect_small
    by (change (2 ^ 30) with 1073741824; cbn; lia).
  cbn [left top right bottom].
  set (d := RECT.mk 0 0 W H).
  change (snd (IntersectRect (RECT.mk (0 + p) (0 + 0) (W + p) (H + 0)) d))
    with (clampTo d (RECT.mk (0 + p) (0 + 0) (W + p) (H + 0))).
  destruct (Z.eqb_spec p 0) as [->|Hnz];
    [|destruct (Z.leb_spec W (Z.abs p)); [|destruct (Z.ltb_spec 0 p)]].
  - rewrite IntersectRect_inside
      by (unfold inside, proper, d; cbn; lia).
    rewrite SubtractRect_of_inside
      by (unfold inside, proper, d; cbn; lia).
    unfold EqualRect, RECT.eqb, d. cbn. cmp; try lia. reflexivity.
  - rewrite clampTo_disjoint by (unfold d; cbn; lia).
    apply SubtractRect_null. unfold proper, d. cbn. lia.
  - rewrite IntersectRect_overlaps
      by (unfold overlaps, proper, d; cbn; lia).
    rewrite SubtractRect_of_inside
      by (unfold inside, proper, meet, d; cbn; lia).
    unfold EqualRect, RECT.eqb, meet, d. cbn.
    cmp; try lia; f_equal; lia.
  - rewrite IntersectRect_overlaps
      by (unfold overlaps, proper, d; cbn; lia).
    rewrite SubtractRect_of_inside
      by (unfold inside, proper, meet, d; cbn; lia).
    unfold EqualRect, RECT.eqb, meet, d. cbn.
    cmp; try lia; f_equal; lia.
Qed.

(** The rectangle a vertical shift uncovers. *)
Lemma reveal_strip_y W H p :
  0 < W < 2 ^ 30 -> 0 < H < 2 ^ 30 -> - 2 ^ 30 < p < 2 ^ 30 ->
  revealRect (RECT.mk 0 0 W H) 0 p =
  if p =? 0 then SetRectEmpty
  else if H <=? Z.abs p then RECT.mk 0 0 W H
  else if 0 <? p then RECT.mk 0 0 W p
  else RECT.mk 0 (H + p) W H.
Proof.
  change (2 ^ 30) with 1073741824. intros HW HH Hp. unfold revealRect.
  rewrite OffsetRect_small
    by (change (2 ^ 30) with 1073741824; cbn; lia).
  cbn [left top right bottom].
  set (d := RECT.mk 0 0 W H).
  change (snd (IntersectRect (RECT.mk (0 + 0) (0 + p) (W + 0) (H + p)) d))
    with (clampTo d (RECT.mk (0 + 0) (0 + p) (W + 0) (H + p))).
  destruct (Z.eqb_spec p 0) as [->|Hnz];
    [|destruct (Z.leb_spec H (Z.abs p)); [|destruct (Z.ltb_spec 0 p)]].
  - rewrite IntersectRect_inside
      by (unfold inside, proper, d; cbn; lia).
    rewrite SubtractRect_of_inside
      by (unfold inside, proper, d; cbn; lia).
    unfold EqualRect, RECT.eqb, d. cbn. cmp; try lia. reflexivity.
  - rewrite clampTo_disjoint by (unfold d; cbn; lia).
    apply SubtractRect_null. unfold proper, d. cbn. lia.
  - rewrite IntersectRect_overlaps
      by (unfold overlaps, proper, d; cbn; lia).
    rewrite SubtractRect_of_inside
      by (unfold inside, proper, meet, d; cbn; lia).
    unfold EqualRect, RECT.eqb, meet, d. cbn.
    cmp; try lia; f_equal; lia.
  - rewrite IntersectRect_overlaps
      by (unfold overlaps, proper, d; cbn; lia).
    rewrite SubtractRect_of_inside
      by (unfold inside, proper, meet, d; cbn; lia).
    unfold EqualRect, RECT.eqb, meet, d. cbn.
    cmp; try lia; f_equal; lia.
Qed.

(** X12: on a display of [W] by [H] pixels a shift by [p] pixels along
    one axis uncovers nothing when [p] is 0, the whole display when the
    shift is at least as long as the display, and otherwise the strip of
    [|p|] pixels at the edge the content moved away from: the left or
    top strip for a positive shift, the right or bottom strip for a
    negative one. *)
Theorem X12_reveal_is_leading_strip W H p :
  0 < W < 2 ^ 30 -> 0 < H < 2 ^ 30 -> - 2 ^ 30 < p < 2 ^ 30 ->
  revealRect (RECT.mk 0 0 W H) p 0 =
    (if p =? 0 then SetRectEmpty
     else if W <=? Z.abs p then RECT.mk 0 0 W H
     else if 0 <? p then RECT.mk 0 0 p H
     else RECT.mk (W + p) 0 W H)
  /\ revealRect (RECT.mk 0 0 W H) 0 p =
    (if p =? 0 then SetRectEmpty
     else if H <=? Z.abs p then RECT.mk 0 0 W H
     else if 0 <? p then RECT.mk 0 0 W p
     else RECT.mk 0 (H + p) W H).
Proof.
  intros HW HH Hp. split.
  - now apply reveal_strip_x.
  - now apply reveal_strip_y.
Qed.

(** 640 by 384 pixels, shifted by 16. *)
Lemma X12_reveal_is_leading_strip_witness :
  revealRect (RECT.mk 0 0 640 384) 16 0 = RECT.mk 0 0 16 384
  /\ revealRect (RECT.mk 0 0 640 384) 0 16 = RECT.mk 0 0 640 16.
Proof.
  apply (X12_reveal_is_leading_strip 640 384 16); cbn; lia.
Defined.

End Reveal.

(** ** Scrolling keeps what was dirty and marks what comes into view *)

Section ScrollCoverage.
Import RECT SIZE POINT User32 IntFacts RectFacts TrackerFacts.

Lemma clampTo_covers d r px py :
  covers d px py -> covers r px py -> covers (clampTo d r) px py.
Proof.
  unfold covers, clampTo, IntersectRect, IsRectEmpty.
  destruct d, r; cbn. intros Hd Hr. cmp; cbn; lia.
Qed.

Lemma reveal_step e rv qx qy :
  covers (_GetDisplayRect e) qx qy ->
  covers rv qx qy \/ (_isInvalidUsed e = true /\ covers (_invalidRect e) qx qy) ->
  let e' := if negb (IsRectEmpty rv) then _InvalidOr e rv else e in
  _isInvalidUsed e' = true
  /\ covers (_invalidRect e') qx qy
  /\ _GetDisplayRect e' = _GetDisplayRect e.
Proof.
  intros Hd Hc.
  destruct (IsRectEmpty_cases rv) as [[-> Ev]|[-> Ev]]; cbn [negb].
  - destruct Hc as [Hc|[Hu Hc]].
    + exfalso. revert Hc Ev. unfold covers. lia.
    + auto.
  - split; [apply InvalidOr_used|]. split.
    + apply InvalidOr_covers; auto.
    + apply GetDisplayRect_InvalidOr.
Qed.

Lemma reveal_covers_x W H p qx qy :
  0 < W < 2 ^ 30 -> 0 < H < 2 ^ 30 -> - 2 ^ 30 < p < 2 ^ 30 ->
  covers (RECT.mk 0 0 W H) qx qy -> ~ 0 <= qx - p < W ->
  covers (revealRect (RECT.mk 0 0 W H) p 0) qx qy.
Proof.
  intros HW HH Hp Hq Hout. rewrite reveal_strip_x by assumption.
  revert Hq. unfold covers. cbn.
  destruct (Z.eqb_spec p 0), (Z.leb_spec W (Z.abs p)), (Z.ltb_spec 0 p);
    cbn; lia.
Qed.

Lemma reveal_covers_y W H p qx qy :
  0 < W < 2 ^ 30 -> 0 < H < 2 ^ 30 -> - 2 ^ 30 < p < 2 ^ 30 ->
  covers (RECT.mk 0 0 W H) qx qy -> ~ 0 <= qy - p < H ->
  covers (revealRect (RECT.mk 0 0 W H) 0 p) qx qy.
Proof.
  intros HW HH Hp Hq Hout. rewrite reveal_strip_y by assumption.
  revert Hq. unfold covers. cbn.
  destruct (Z.eqb_spec p 0), (Z.leb_spec H (Z.abs p)), (Z.ltb_spec 0 p);
    cbn; lia.
Qed.

(** X13: after a non-zero [InvalidateScroll], with display size, pixel
    delta and dirty rectangle below 2^30 in size, a pixel of the display
    is dirty whenever the pixel its content comes from (itself minus the
    pixel delta) lay outside the display or was dirty before. *)
Theorem X13_scroll_keeps_and_reveals e delta qx qy :
  let display := _GetDisplayRect e in
  let px := COORD.X delta * cx (_glyphCell e) in
  let py := COORD.Y delta * cy (_glyphCell e) in
  0 < cx (_displaySizePixels e) < 2 ^ 30 ->
  0 < cy (_displaySizePixels e) < 2 ^ 30 ->
  - 2 ^ 30 < px < 2 ^ 30 -> - 2 ^ 30 < py < 2 ^ 30 ->
  COORD.X delta <> 0 \/ COORD.Y delta <> 0 ->
  covers display qx qy ->
  ~ covers display (qx - px) (qy - py)
  \/ (_isInvalidUsed e = true
      /\ covers (_invalidRect e) (qx - px) (qy - py)
      /\ edgesWithin (RECT.mk (- 2 ^ 30) (- 2 ^ 30) (2 ^ 30) (2 ^ 30))
                     (_invalidRect e)) ->
  _isInvalidUsed (snd (InvalidateScroll e delta)) = true
  /\ covers (_invalidRect (snd (InvalidateScroll e delta))) qx qy.
Proof.
  intros display px py HW HH Hpx Hpy Hnz Hq Hsrc.
  assert (Hcond : negb (COORD.X delta =? 0) || negb (COORD.Y delta =? 0) = true).
  { destruct (Z.eqb_spec (COORD.X delta) 0), (Z.eqb_spec (COORD.Y delta) 0);
      cbn; auto; lia. }
  unfold InvalidateScroll. rewrite Hcond. cbv zeta. cbn [snd].
  fold px py.
  rewrite (LONG_id px), (LONG_id py) by (apply small_is_LONG; lia).
  cbn [x y].
  destruct (InvalidOffset_frame e (POINT.mk px py)) as (Fu & Fd & _ & _).
  set (e1 := _InvalidOffset e (POINT.mk px py)) in *.
  set (e2 := Set_.invalidScroll _ e1).
  assert (D2 : _GetDisplayRect e2 = display)
    by (unfold _GetDisplayRect, e2; cbn; now rewrite Fd).
  rewrite D2.
  assert (Hd : display = RECT.mk 0 0 (cx (_displaySizePixels e))
                                 (cy (_displaySizePixels e))) by reflexivity.
  (* what was dirty moves along *)
  assert (Moved : _isInvalidUsed e = true ->
                  covers (_invalidRect e) (qx - px) (qy - py) ->
                  edgesWithin (RECT.mk (- 2 ^ 30) (- 2 ^ 30) (2 ^ 30) (2 ^ 30))
                              (_invalidRect e) ->
                  _isInvalidUsed e2 = true /\ covers (_invalidRect e2) qx qy).
  { intros Hu Hc He. split; [unfold e2; cbn; congruence|].
    unfold e2. cbn. unfold e1. rewrite InvalidOffset_rect by exact Hu.
    apply clampTo_covers; [exact Hq|]. cbn [x y].
    revert He. unfold edgesWithin. cbn. intros (Hl & Hr & Ht & Hb).
    rewrite OffsetRect_small by lia.
    revert Hc. unfold covers. cbn. lia. }
  (* one of the three reasons holds *)
  assert (Why : (_isInvalidUsed e2 = true /\ covers (_invalidRect e2) qx qy)
                \/ ~ 0 <= qx - px < cx (_displaySizePixels e)
                \/ ~ 0 <= qy - py < cy (_displaySizePixels e)).
  { destruct Hsrc as [Hout|(Hu & Hc & He)]; [|left; now apply Moved].
    right. revert Hout. rewrite Hd. unfold covers. cbn. lia. }
  assert (Hq2 : covers (_GetDisplayRect e2) qx qy) by now rewrite D2.
  set (revealX := revealRect display px 0).
  set (revealY := revealRect display 0 py).
  assert (StepX : covers revealX qx qy
                  \/ (_isInvalidUsed e2 = true
                      /\ covers (_invalidRect e2) qx qy)
                  \/ ~ 0 <= qy - py < cy (_displaySizePixels e)).
  { destruct Why as [Hm|[Hx|Hy]]; auto.
    left. unfold revealX. rewrite Hd. apply reveal_covers_x; auto. }
  set (e3 := if negb (IsRectEmpty revealX) then _InvalidOr e2 revealX else e2).
  assert (After3 : _GetDisplayRect e3 = display
                   /\ ((_isInvalidUsed e3 = true
                        /\ covers (_invalidRect e3) qx qy)
                       \/ ~ 0 <= qy - py < cy (_displaySizePixels e))).
  { assert (D3 : _GetDisplayRect e3 = display).
    { unfold e3. destruct (negb (IsRectEmpty revealX)); [|exact D2].
      now rewrite GetDisplayRect_InvalidOr. }
    split; [exact D3|].
    destruct StepX as [Hx|[Hm|Hy]]; auto.
    - left. destruct (reveal_step e2 revealX qx qy Hq2 (or_introl Hx))
        as (U & C & _). auto.
    - left. destruct (reveal_step e2 revealX qx qy Hq2 (or_intror Hm))
        as (U & C & _). auto. }
  destruct After3 as (D3 & Why3).
  assert (Hq3 : covers (_GetDisplayRect e3) qx qy) by now rewrite D3.
  assert (Last : covers revealY qx qy
                 \/ (_isInvalidUsed e3 = true
                     /\ covers (_invalidRect e3) qx qy)).
  { destruct Why3 as [Hm|Hy]; auto.
    left. unfold revealY. rewrite Hd. apply reveal_covers_y; auto. }
  destruct (reveal_step e3 revealY qx qy Hq3 Last) as (U & C & _).
  auto.
Qed.

(** A line scrolled up by one row: the pixel (5, 370) of the bottom row
    takes its content from below the display. *)
Lemma X13_scroll_keeps_and_reveals_witness :
  let e := engineWith (SIZE.mk 800 384) (SIZE.mk 8 16) in
  let delta := COORD.mk 0 (-1) in
  _isInvalidUsed (snd (InvalidateScroll e delta)) = true
  /\ covers (_invalidRect (snd (InvalidateScroll e delta))) 5 370.
Proof.
  intros e delta.
  apply (X13_scroll_keeps_and_reveals e delta 5 370);
    try (cbn; lia).
  - unfold covers. cbn. lia.
  - left. unfold covers. cbn. lia.
Defined.

End ScrollCoverage.

(** ** The dirty rectangle in characters *)

Section DirtyChars.
Import RECT SIZE IntFacts TrackerFacts.

Lemma quot_bounds a c :
  0 <= a -> 0 < c -> Z.quot a c * c <= a < (Z.quot a c + 1) * c.
Proof.
  intros Ha Hc. rewrite Z.quot_div_nonneg by lia.
  pose proof (Z.mul_div_le a c Hc).
  pose proof (Z.mul_succ_div_gt a c Hc). lia.
Qed.

(** X14: for a dirty rectangle with no negative edge, a positive glyph
    cell and cell indices that fit 16 bits, [GetDirtyRectInChars] rounds
    every edge down to a cell boundary: the character rectangle starts in
    the cell that holds the left and top edge, and its last column and
    row end at the last cell boundary at or before the right and bottom
    edge, so a cell the dirty rectangle only partly reaches into on the
    right or at the bottom is left out. *)
Theorem X14_dirty_chars_round_down e :
  let r := _invalidRect e in
  let g := _glyphCell e in
  let c := GetDirtyRectInChars e in
  0 < cx g -> 0 < cy g ->
  0 <= left r -> 0 <= top r -> 0 <= right r -> 0 <= bottom r ->
  right r < 2 ^ 15 * cx g -> bottom r < 2 ^ 15 * cy g ->
  left r < 2 ^ 15 * cx g -> top r < 2 ^ 15 * cy g ->
  (SMALL_RECT.Left c * cx g <= left r < (SMALL_RECT.Left c + 1) * cx g)
  /\ (SMALL_RECT.Top c * cy g <= top r < (SMALL_RECT.Top c + 1) * cy g)
  /\ ((SMALL_RECT.Right c + 1) * cx g <= right r
      < (SMALL_RECT.Right c + 2) * cx g)
  /\ ((SMALL_RECT.Bottom c + 1) * cy g <= bottom r
      < (SMALL_RECT.Bottom c + 2) * cy g).
Proof.
  intros r g c Hx Hy Hl Ht Hr Hb Br Bb Bl Bt. subst c.
  unfold GetDirtyRectInChars. fold r g. cbn [SMALL_RECT.Left SMALL_RECT.Top
    SMALL_RECT.Right SMALL_RECT.Bottom].
  assert (Q : forall a c, 0 <= a -> 0 < c -> a < 2 ^ 15 * c ->
                0 <= Z.quot a c < 2 ^ 15).
  { intros a c0 Ha Hc Hlt. rewrite Z.quot_div_nonneg by lia. split.
    - apply Z.div_pos; lia.
    - apply Z.div_lt_upper_bound; lia. }
  pose proof (Q _ _ Hl Hx Bl) as Ql. pose proof (Q _ _ Ht Hy Bt) as Qt.
  pose proof (Q _ _ Hr Hx Br) as Qr. pose proof (Q _ _ Hb Hy Bb) as Qb.
  pose proof (quot_bounds _ _ Hl Hx). pose proof (quot_bounds _ _ Ht Hy).
  pose proof (quot_bounds _ _ Hr Hx). pose proof (quot_bounds _ _ Hb Hy).
  change (2 ^ 15) with 32768 in *.
  rewrite !(SHORT_id (Z.quot _ _)) by (unfold Int.isSHORT; pow2; lia).
  rewrite !SHORT_id by (unfold Int.isSHORT; pow2; lia).
  repeat split; lia.
Qed.

(** A dirty rectangle 12 pixels wide on 8 pixel wide cells: only column
    0 is reported. *)
Lemma X14_dirty_chars_round_down_witness :
  let e := snd (InvalidateSystem (engineWith (SIZE.mk 800 384) (SIZE.mk 8 16))
                                 (RECT.mk 0 0 12 16)) in
  GetDirtyRectInChars e = SMALL_RECT.mk 0 0 0 0
  /\ (SMALL_RECT.Right (GetDirtyRectInChars e) + 1) * 8 <= 12
     < (SMALL_RECT.Right (GetDirtyRectInChars e) + 2) * 8.
Proof.
  intros e. split; [reflexivity|].
  apply (X14_dirty_chars_round_down e); cbn; lia.
Defined.

(** X15: a dirty rectangle whose edges lie on cell boundaries survives
    the way to characters and back: for cell indices that fit 16 bits and
    a positive glyph cell of at most 65535 pixels, the pixel region of
    the character rectangle [GetDirtyRectInChars] returns is the dirty
    rectangle itself. *)
Theorem X15_aligned_pixels_round_trip e (a b c d : Z) :
  let g := _glyphCell e in
  0 < cx g < 2 ^ 16 -> 0 < cy g < 2 ^ 16 ->
  0 <= a < 2 ^ 15 -> 0 <= b < 2 ^ 15 ->
  0 < c < 2 ^ 15 -> 0 < d < 2 ^ 15 ->
  _invalidRect e = RECT.mk (a * cx g) (b * cy g) (c * cx g) (d * cy g) ->
  GetDirtyRectInChars e = SMALL_RECT.mk a b (c - 1) (d - 1)
  /\ cellRegion g (GetDirtyRectInChars e) = _invalidRect e.
Proof.
  intros g Hx Hy Ha Hb Hc Hd HR.
  change (2 ^ 16) with 65536 in *. change (2 ^ 15) with 32768 in *.
  assert (E : GetDirtyRectInChars e = SMALL_RECT.mk a b (c - 1) (d - 1)).
  { unfold GetDirtyRectInChars. fold g. rewrite HR. cbn [left top right bottom].
    rewrite !Z.quot_mul by lia.
    rewrite !(SHORT_id a), !(SHORT_id b), !(SHORT_id c), !(SHORT_id d)
      by (unfold Int.isSHORT; pow2; lia).
    rewrite !SHORT_id by (unfold Int.isSHORT; pow2; lia). reflexivity. }
  split; [exact E|]. rewrite E, HR.
  unfold cellRegion, _ScaleByFont. cbn.
  rewrite (LONG_id (a * cx g)), (LONG_id (b * cy g)),
    (LONG_id ((c - 1) * cx g)), (LONG_id ((d - 1) * cy g))
    by (unfold Int.isLONG; pow2; nia).
  rewrite !LONG_id by (unfold Int.isLONG; pow2; nia).
  f_equal; ring.
Qed.

Lemma X15_aligned_pixels_round_trip_witness :
  let e := snd (InvalidateSystem (engineWith (SIZE.mk 800 384) (SIZE.mk 8 16))
                                 (RECT.mk 24 16 104 48)) in
  GetDirtyRectInChars e = SMALL_RECT.mk 3 1 12 2
  /\ cellRegion (SIZE.mk 8 16) (GetDirtyRectInChars e) = _invalidRect e.
Proof.
  intros e.
  apply (X15_aligned_pixels_round_trip e 3 1 13 3); cbn; try lia.
  reflexivity.
Defined.

End DirtyChars.

(** ** Colour conversion *)

Section Colours.

Lemma testbit_mask c k n :
  0 <= k ->
  Z.testbit (Z.land c (Z.shiftl (Z.ones 8) k)) n
  = Z.testbit c n && ((k <=? n) && (n <? k + 8)).
Proof.
  intros Hk. rewrite Z.land_spec. f_equal.
  destruct (Z.leb_spec k n) as [Hkn|Hkn]; cbn [andb].
  - rewrite Z.shiftl_spec by lia.
    destruct (Z.ltb_spec n (k + 8)).
    + apply Z.ones_spec_low. lia.
    + apply Z.ones_spec_high. lia.
  - destruct (Z.neg_nonneg_cases n) as [Hn|Hn].
    + apply Z.testbit_neg_r. exact Hn.
    + rewrite Z.shiftl_spec by lia. apply Z.testbit_neg_r. lia.
Qed.

(** The bits of the value before it is stored as [UINT32]. *)
Lemma swapped_testbit c n :
  0 <= n ->
  Z.testbit (Z.lor (Z.lor (Z.shiftl (Z.land c 0x0000FF) 16)
                          (Z.land c 0x00FF00))
                   (Z.shiftr (Z.land c 0xFF0000) 16)) n =
  if n <? 8 then Z.testbit c (n + 16)
  else if n <? 16 then Z.testbit c n
  else if n <? 24 then Z.testbit c (n - 16) else false.
Proof.
  intros Hn.
  change 0x0000FF with (Z.shiftl (Z.ones 8) 0).
  change 0x00FF00 with (Z.shiftl (Z.ones 8) 8).
  change 0xFF0000 with (Z.shiftl (Z.ones 8) 16).
  rewrite !Z.lor_spec, Z.shiftr_spec, Z.shiftl_spec by lia.
  rewrite !testbit_mask by lia.
  destruct (Z.ltb_spec n 8), (Z.ltb_spec n 16), (Z.ltb_spec n 24); try lia.
  all: repeat match goal with
         | |- context [?a <=? ?b] => destruct (Z.leb_spec a b); try lia
         | |- context [?a <? ?b] => destruct (Z.ltb_spec a b); try lia
         end;
       cbn [andb orb];
       rewrite ?andb_true_r, ?andb_false_r, ?orb_false_r, ?orb_false_l;
       try reflexivity.
  all: try (rewrite Z.testbit_neg_r by lia; reflexivity).
Qed.

Lemma low_bits_small v k :
  0 <= k -> (forall n, 0 <= n -> Z.testbit v n = Z.testbit v n && (n <? k)) ->
  v = v mod 2 ^ k.
Proof.
  intros Hk H. rewrite <- Z.land_ones by exact Hk.
  apply Z.bits_inj'. intros n Hn. rewrite Z.land_spec, (H n Hn).
  destruct (Z.ltb_spec n k).
  - rewrite Z.ones_spec_low by lia. now rewrite !andb_true_r.
  - rewrite Z.ones_spec_high by lia. now rewrite !andb_false_r.
Qed.

Lemma ColorRef_testbit c n :
  0 <= n ->
  Z.testbit (s_ColorFFromColorRef c) n =
  if n <? 8 then Z.testbit c (n + 16)
  else if n <? 16 then Z.testbit c n
  else if n <? 24 then Z.testbit c (n - 16) else false.
Proof.
  intros Hn. unfold s_ColorFFromColorRef, Int.UINT32.
  rewrite <- Z.land_ones by lia. rewrite Z.land_spec, swapped_testbit by exact Hn.
  destruct (Z.ltb_spec n 8), (Z.ltb_spec n 16), (Z.ltb_spec n 24); try lia;
    rewrite ?Z.ones_spec_low by lia; rewrite ?andb_true_r; reflexivity.
Qed.

Lemma byteAt_testbit k v n :
  0 <= k -> 0 <= n ->
  Z.testbit (byteAt k v) n = Z.testbit v (n + k) && (n <? 8).
Proof.
  intros Hk Hn. unfold byteAt. change 0xFF with (Z.ones 8).
  rewrite Z.land_spec, Z.shiftr_spec by lia. f_equal.
  destruct (Z.ltb_spec n 8).
  - apply Z.ones_spec_low. lia.
  - apply Z.ones_spec_high. lia.
Qed.

(** X16: [s_ColorFFromColorRef] swaps the first and the third byte of a
    colour, keeps the second and drops the fourth: the result is below
    2^24, its byte at bit 16 is the colour's lowest byte (red), its
    lowest byte is the colour's byte at bit 16 (blue), and converting
    twice gives back the colour's low 24 bits. *)
Theorem X16_colour_bytes_swapped c :
  0 <= s_ColorFFromColorRef c < 2 ^ 24
  /\ byteAt 16 (s_ColorFFromColorRef c) = byteAt 0 c
  /\ byteAt 8 (s_ColorFFromColorRef c) = byteAt 8 c
  /\ byteAt 0 (s_ColorFFromColorRef c) = byteAt 16 c
  /\ s_ColorFFromColorRef (s_ColorFFromColorRef c) = c mod 2 ^ 24.
Proof.
  assert (Small : s_ColorFFromColorRef c = s_ColorFFromColorRef c mod 2 ^ 24).
  { apply low_bits_small; [lia|]. intros n Hn.
    rewrite ColorRef_testbit by exact Hn.
    destruct (Z.ltb_spec n 8), (Z.ltb_spec n 16), (Z.ltb_spec n 24); try lia;
      now rewrite ?andb_true_r. }
  split.
  { rewrite Small. apply Z.mod_pos_bound. lia. }
  split; [|split; [|split]].
  - apply Z.bits_inj'. intros n Hn.
    rewrite !byteAt_testbit, ColorRef_testbit by lia.
    destruct (Z.ltb_spec n 8); [|now rewrite !andb_false_r].
    destruct (Z.ltb_spec (n + 16) 8), (Z.ltb_spec (n + 16) 16),
             (Z.ltb_spec (n + 16) 24); try lia.
    now replace (n + 16 - 16) with (n + 0) by lia.
  - apply Z.bits_inj'. intros n Hn.
    rewrite !byteAt_testbit, ColorRef_testbit by lia.
    destruct (Z.ltb_spec n 8); [|now rewrite !andb_false_r].
    destruct (Z.ltb_spec (n + 8) 8), (Z.ltb_spec (n + 8) 16); try lia.
    reflexivity.
  - apply Z.bits_inj'. intros n Hn.
    rewrite !byteAt_testbit, ColorRef_testbit by lia.
    destruct (Z.ltb_spec n 8); [|now rewrite !andb_false_r].
    destruct (Z.ltb_spec (n + 0) 8); try lia.
    now replace (n + 0 + 16) with (n + 16) by lia.
  - rewrite <- Z.land_ones by lia.
    apply Z.bits_inj'. intros n Hn.
    rewrite ColorRef_testbit, Z.land_spec by exact Hn.
    destruct (Z.ltb_spec n 8);
      [|destruct (Z.ltb_spec n 16); [|destruct (Z.ltb_spec n 24)]].
    + rewrite ColorRef_testbit by lia.
      destruct (Z.ltb_spec (n + 16) 8), (Z.ltb_spec (n + 16) 16),
               (Z.ltb_spec (n + 16) 24); try lia.
      replace (n + 16 - 16) with n by lia.
      rewrite Z.ones_spec_low by lia. now rewrite andb_true_r.
    + rewrite ColorRef_testbit by lia.
      destruct (Z.ltb_spec n 8), (Z.ltb_spec n 16); try lia.
      rewrite Z.ones_spec_low by lia. now rewrite andb_true_r.
    + rewrite ColorRef_testbit by lia.
      destruct (Z.ltb_spec (n - 16) 8); try lia.
      replace (n - 16 + 16) with n by lia.
      rewrite Z.ones_spec_low by lia. now rewrite andb_true_r.
    + rewrite Z.ones_spec_high by lia. now rewrite andb_false_r.
Qed.

End Colours.

(** ** The VT engine's rectangle union *)

Section VtFacts.
Import VtEngine.

(** X17: [VtEngine::_OrRect] leaves the smallest rectangle that contains
    both rectangles: it contains each of them and lies within every
    rectangle that contains both; uniting a rectangle with one it
    already contains changes nothing. *)
Theorem X17_or_rect_is_least_upper_bound a b c :
  contains (_OrRect a b) a
  /\ contains (_OrRect a b) b
  /\ (contains c a -> contains c b -> contains c (_OrRect a b))
  /\ (contains a b -> _OrRect a b = a).
Proof.
  unfold contains, _OrRect. destruct a, b, c; cbn.
  repeat split; try lia.
  intros H. f_equal; lia.
Qed.

(** The union of a rectangle with one inside it, within a larger one. *)
Lemma X17_or_rect_is_least_upper_bound_witness :
  let a := SMALL_RECT.mk 0 0 9 9 in
  let b := SMALL_RECT.mk 2 2 5 5 in
  let c := SMALL_RECT.mk 0 0 20 20 in
  contains c (_OrRect a b) /\ _OrRect a b = a.
Proof.
  intros a b c.
  destruct (X17_or_rect_is_least_upper_bound a b c) as (_ & _ & Hc & Ha).
  split; [apply Hc|apply Ha]; unfold contains; cbn; lia.
Defined.

End VtFacts.

(** ** The WDDM console engine *)

Section WddmFacts.
Import WddmCon IntFacts.

Lemma store_app {A : Set} (l1 : list A) y l2 v :
  store (length l1) v (l1 ++ y :: l2) = Some (l1 ++ v :: l2).
Proof.
  induction l1 as [|h l1 IH]; cbn; [reflexivity|]. now rewrite IH.
Qed.

Lemma store_outside {A : Set} (l : list A) i v :
  (length l <= i)%nat -> store i v l = None.
Proof.
  revert i. induction l as [|h l IH]; intros i Hi; [now destruct i|].
  destruct i as [|i]; cbn in *; [lia|]. rewrite IH by lia. reflexivity.
Qed.

Lemma nth_error_middle {A : Type} (l1 : list A) y l2 :
  nth_error (l1 ++ y :: l2) (length l1) = Some y.
Proof.
  rewrite nth_error_app2 by lia. now rewrite Nat.sub_diag.
Qed.

Lemma nth_error_at {A : Type} (l1 : list A) i y l2 :
  length l1 = i -> nth_error (l1 ++ y :: l2) i = Some y.
Proof. intros <-. apply nth_error_middle. Qed.

Lemma shiftCell_at s1 s2 idx o1 y o2 n1 x n2 c :
  length o1 = length n1 ->
  shiftCell (length s1) (length n1) c
            (s1 ++ mkRow idx (o1 ++ y :: o2) (n1 ++ x :: n2) :: s2)
  = Some (s1 ++ mkRow idx (o1 ++ x :: o2) (n1 ++ c :: n2) :: s2).
Proof.
  intros Hl. unfold shiftCell. rewrite nth_error_middle. cbn [New Old Index].
  rewrite nth_error_middle, <- Hl, store_app, Hl, store_app.
  apply store_app.
Qed.

Lemma backgroundCols_row n2 : forall o2 o1 n1 idx s1 s2,
  length o1 = length n1 -> length o2 = length n2 ->
  backgroundCols (length n2) (length s1) (length n1)
                 (s1 ++ mkRow idx (o1 ++ o2) (n1 ++ n2) :: s2)
  = Some (s1 ++ mkRow idx (o1 ++ n2) (n1 ++ repeat blank (length n2)) :: s2).
Proof.
  induction n2 as [|x n2 IH]; intros o2 o1 n1 idx s1 s2 H1 H2.
  - destruct o2; [|discriminate]. reflexivity.
  - destruct o2 as [|y o2]; [discriminate|]. cbn [length backgroundCols].
    rewrite shiftCell_at by exact H1.
    replace (S (length n1)) with (length (n1 ++ [blank]))
      by (rewrite length_app; cbn; lia).
    replace (o1 ++ x :: o2) with ((o1 ++ [x]) ++ o2)
      by (now rewrite <- app_assoc).
    replace (n1 ++ blank :: n2) with ((n1 ++ [blank]) ++ n2)
      by (now rewrite <- app_assoc).
    rewrite IH by (rewrite ?length_app; cbn in *; lia).
    rewrite <- !app_assoc. reflexivity.
Qed.


Lemma backgroundRows_all width s2 : forall s1,
  Forall (fun row => length (Old row) = width /\ length (New row) = width) s2 ->
  backgroundRows (length s2) (length s1) width (s1 ++ s2)
  = Some (s1 ++ map (painted width) s2).
Proof.
  induction s2 as [|row s2 IH]; intros s1 Hall; [reflexivity|].
  inversion Hall as [|? ? [Ho Hn] Hall']; subst.
  cbn [length backgroundRows map].
  destruct row as [idx o n]. cbn [Old New] in *.
  pose proof (backgroundCols_row n o [] [] idx s1 s2 eq_refl) as C.
  cbn [app length] in C. rewrite Hn in C. rewrite C by lia.
  change (mkRow idx n (repeat blank (length o)))
    with (painted (length o) (mkRow idx o n)).
  set (row := painted (length o) (mkRow idx o n)).
  replace (S (length s1)) with (length (s1 ++ [row]))
    by (rewrite length_app; cbn; lia).
  replace (s1 ++ row :: s2) with ((s1 ++ [row]) ++ s2)
    by (now rewrite <- app_assoc).
  rewrite IH by exact Hall'. now rewrite <- app_assoc.
Qed.


Lemma lineCells_row coord attribute t2 : forall t1 t3 oa o2 o3 na n2 n3 idx s1 s2,
  0 <= COORD.X coord -> COORD.Y coord = Z.of_nat (length s1) ->
  length oa = length na ->
  length na = (Z.to_nat (COORD.X coord) + length t1)%nat ->
  length o2 = length t2 -> length n2 = length t2 ->
  lineCells (length t2) (length t1) (t1 ++ t2 ++ t3) coord attribute
            (s1 ++ mkRow idx (oa ++ o2 ++ o3) (na ++ n2 ++ n3) :: s2)
  = Some (s1 ++ mkRow idx (oa ++ n2 ++ o3)
                      (na ++ map (fun ch => mkChar ch attribute) t2 ++ n3) :: s2).
Proof.
  induction t2 as [|ch t2 IH]; intros t1 t3 oa o2 o3 na n2 n3 idx s1 s2 HX HY Ha Hn Ho2 Hn2.
  - destruct o2; [|discriminate]. destruct n2; [|discriminate]. reflexivity.
  - destruct o2 as [|y o2]; [discriminate|]. destruct n2 as [|x n2]; [discriminate|].
    cbn [length lineCells]. unfold arrayIndex.
    replace (0 <=? COORD.Y coord) with true by (symmetry; apply Z.leb_le; lia).
    replace (0 <=? COORD.X coord + Z.of_nat (length t1)) with true
      by (symmetry; apply Z.leb_le; lia).
    replace (Z.to_nat (COORD.Y coord)) with (length s1) by lia.
    replace (Z.to_nat (COORD.X coord + Z.of_nat (length t1))) with (length na) by lia.
    cbn [app]. rewrite nth_error_middle.
    rewrite shiftCell_at by exact Ha.
    replace (S (length t1)) with (length (t1 ++ [ch]))
      by (rewrite length_app; cbn; lia).
    replace (t1 ++ ch :: t2 ++ t3) with ((t1 ++ [ch]) ++ t2 ++ t3)
      by (now rewrite <- app_assoc).
    replace (oa ++ x :: o2 ++ o3) with ((oa ++ [x]) ++ o2 ++ o3)
      by (now rewrite <- app_assoc).
    replace (na ++ mkChar ch attribute :: n2 ++ n3)
      with ((na ++ [mkChar ch attribute]) ++ n2 ++ n3)
      by (now rewrite <- app_assoc).
    rewrite IH; rewrite ?length_app; cbn [length] in *; try lia.
    rewrite <- !app_assoc. reflexivity.
Qed.

Lemma lineCells_add coord attribute text a : forall b i state,
  lineCells (a + b) i text coord attribute state
  = match lineCells a i text coord attribute state with
    | Some state' => lineCells b (i + a) text coord attribute state'
    | None => None
    end.
Proof.
  induction a as [|a IH]; intros b i state.
  - cbn. now rewrite Nat.add_0_r.
  - cbn [Nat.add lineCells].
    destruct (arrayIndex (COORD.Y coord)); [|reflexivity].
    destruct (arrayIndex _); [|reflexivity].
    destruct (nth_error text i); [|reflexivity].
    destruct (shiftCell _ _ _ _); [|reflexivity].
    rewrite IH. now replace (S i + a)%nat with (i + S a)%nat by lia.
Qed.

(** The row [y] of a state, split off. *)
Lemma row_split (state : list CD_IO_ROW_INFORMATION) y row :
  nth_error state y = Some row ->
  state = firstn y state ++ row :: skipn (S y) state /\ length (firstn y state) = y.
Proof.
  intros H. pose proof (nth_error_split state y H) as (l1 & l2 & E & L).
  subst state y. rewrite firstn_app, firstn_all, Nat.sub_diag. cbn [firstn].
  rewrite app_nil_r. split; [|reflexivity].
  do 2 f_equal.
  change (S (length l1)) with (1 + length l1)%nat.
  rewrite <- (length_app [row] l1) || idtac.
  replace (l1 ++ row :: l2) with ((l1 ++ [row]) ++ l2) by (now rewrite <- app_assoc).
  replace (1 + length l1)%nat with (length (l1 ++ [row])) by (rewrite length_app; cbn; lia).
  rewrite skipn_app, skipn_all, Nat.sub_diag. reflexivity.
Qed.

(** What [lineCells] does to a well-formed row when it stays in it. *)
Lemma lineCells_written coord attribute text n state row width :
  0 <= COORD.X coord -> 0 <= COORD.Y coord ->
  nth_error state (Z.to_nat (COORD.Y coord)) = Some row ->
  length (Old row) = width -> length (New row) = width ->
  (n <= length text)%nat -> (Z.to_nat (COORD.X coord) + n <= width)%nat ->
  lineCells n 0 text coord attribute state
  = Some (firstn (Z.to_nat (COORD.Y coord)) state
            ++ written (Z.to_nat (COORD.X coord)) n text attribute row
            :: skipn (S (Z.to_nat (COORD.Y coord))) state).
Proof.
  intros HX HY Hrow Ho Hn Ht Hw.
  set (x := Z.to_nat (COORD.X coord)) in *.
  set (y := Z.to_nat (COORD.Y coord)) in *.
  destruct (row_split state y row Hrow) as [E L].
  assert (y < length state)%nat as Hy by (apply nth_error_Some; congruence).
  rewrite E at 1. destruct row as [idx o nw]. cbn [Old New] in *.
  unfold written. cbn [Index Old New].
  pose proof (lineCells_row coord attribute (firstn n text) [] (skipn n text)
                (firstn x o) (firstn n (skipn x o)) (skipn n (skipn x o))
                (firstn x nw) (firstn n (skipn x nw)) (skipn n (skipn x nw))
                idx (firstn y state) (skipn (S y) state)) as C.
  rewrite !firstn_skipn in C. cbn [app length] in C.
  rewrite !length_firstn, !length_skipn in C.
  rewrite !skipn_skipn in C.
  replace (Init.Nat.min n (length text)) with n in C by lia.
  replace (n + x)%nat with (x + n)%nat in C by lia.
  apply C; subst x y; lia.
Qed.

Lemma initialized_handle e :
  IsInitialized e = negb (_hWddmConCtx e =? INVALID_HANDLE_VALUE).
Proof. reflexivity. Qed.

(** X18: [PaintBackground] on an engine whose rows have the display's
    size: an initialised engine answers [S_OK] and every row's old
    characters become what its new characters were, its new characters
    become blanks and its index stays; an engine without a context
    answers [E_HANDLE] and is left as it was.  No cell outside the rows
    is touched. *)
Theorem X18_background_shifts_and_blanks e :
  wellFormed e ->
  PaintBackground e
  = Some (if IsInitialized e
          then (S_OK, setState (map (painted (Z.to_nat (_displayWidth e)))
                                    (_displayState e)) e)
          else (E_HANDLE, e)).
Proof.
  intros (_ & _ & Hrows & Hall). unfold PaintBackground, IsInitialized.
  destruct (negb _); [|reflexivity].
  rewrite <- Hrows.
  pose proof (backgroundRows_all _ (_displayState e) [] Hall) as R.
  cbn [app length] in R. now rewrite R.
Qed.

Lemma X18_background_shifts_and_blanks_witness :
  wellFormed (showing [mkRow 0 [mkChar 97 7; mkChar 98 7] [mkChar 99 7; mkChar 100 7]] 2)
  /\ PaintBackground (showing [mkRow 0 [mkChar 97 7; mkChar 98 7] [mkChar 99 7; mkChar 100 7]] 2)
     = Some (S_OK, showing [mkRow 0 [mkChar 99 7; mkChar 100 7] [blank; blank]] 2).
Proof.
  assert (wellFormed (showing [mkRow 0 [mkChar 97 7; mkChar 98 7]
                                       [mkChar 99 7; mkChar 100 7]] 2)) as W.
  { unfold wellFormed; cbn. repeat split; try lia. repeat constructor. }
  split; [exact W|].
  exact (X18_background_shifts_and_blanks _ W).
Defined.

(** X19: [PaintBufferLine] when the characters fit the row.  With
    [n] the smaller of [cchLine] and the display width, and the [n]
    characters from column [coord.X] on inside the row, the call answers
    what [WDDMConUpdateDisplay] answers and hands it the row [coord.Y];
    in that row the [n] cells from [coord.X] on have their old character
    set to the former new one and their new character to the text with
    the current colour attribute; every other cell and row is as
    before. *)
Theorem X19_line_written_in_row hrUpdate e pwsLine cchLine coord row :
  wellFormed e -> IsInitialized e = true -> Int.isULONG (_displayWidth e) ->
  0 <= COORD.X coord -> 0 <= COORD.Y coord ->
  nth_error (_displayState e) (Z.to_nat (COORD.Y coord)) = Some row ->
  0 <= cchLine ->
  Z.min cchLine (_displayWidth e) <= Z.of_nat (length pwsLine) ->
  COORD.X coord + Z.min cchLine (_displayWidth e) <= _displayWidth e ->
  let row' := written (Z.to_nat (COORD.X coord))
                      (Z.to_nat (Z.min cchLine (_displayWidth e)))
                      pwsLine (_currentLegacyColorAttribute e) row in
  PaintBufferLine hrUpdate e pwsLine cchLine coord
  = Some (hrUpdate,
          setState (firstn (Z.to_nat (COORD.Y coord)) (_displayState e)
                      ++ row' :: skipn (S (Z.to_nat (COORD.Y coord)))
                                       (_displayState e)) e,
          Some row').
Proof.
  intros (_ & HW & Hrows & Hall) Hinit HU HX HY Hrow Hc Ht Hfit row'.
  unfold PaintBufferLine. rewrite <- initialized_handle, Hinit.
  cbv zeta. unfold Int.size_t.
  rewrite (Z.mod_small (_displayWidth e))
    by (unfold Int.isULONG in HU; change (2 ^ 32) with 4294967296 in HU;
        change (2 ^ 64) with 18446744073709551616; lia).
  pose proof (proj1 (Forall_forall _ _) Hall row (nth_error_In _ _ Hrow)) as [Ho Hn].
  rewrite (lineCells_written coord (_currentLegacyColorAttribute e) pwsLine
             _ (_displayState e) row _ HX HY Hrow Ho Hn) by lia.
  unfold arrayIndex.
  replace (0 <=? COORD.Y coord) with true by (symmetry; apply Z.leb_le; lia).
  destruct (row_split _ _ _ Hrow) as [_ L].
  now rewrite (nth_error_at _ _ _ _ L).
Qed.

Lemma lineCells_no_row coord attribute text c i state :
  0 <= COORD.Y coord ->
  nth_error state (Z.to_nat (COORD.Y coord)) = None ->
  lineCells (S c) i text coord attribute state = None.
Proof.
  intros HY Hrow. cbn [lineCells]. unfold arrayIndex.
  replace (0 <=? COORD.Y coord) with true by (symmetry; apply Z.leb_le; lia).
  destruct (if 0 <=? _ then _ else _); [|reflexivity].
  destruct (nth_error text i); [|reflexivity].
  unfold shiftCell. now rewrite Hrow.
Qed.

Lemma lineCells_outside coord attribute text c i state row :
  0 <= COORD.X coord -> 0 <= COORD.Y coord ->
  nth_error state (Z.to_nat (COORD.Y coord)) = Some row ->
  (length (New row) <= Z.to_nat (COORD.X coord) + i)%nat ->
  lineCells (S c) i text coord attribute state = None.
Proof.
  intros HX HY Hrow Hout. cbn [lineCells]. unfold arrayIndex.
  replace (0 <=? COORD.Y coord) with true by (symmetry; apply Z.leb_le; lia).
  replace (0 <=? COORD.X coord + Z.of_nat i) with true
    by (symmetry; apply Z.leb_le; lia).
  destruct (nth_error text i); [|reflexivity].
  unfold shiftCell. rewrite Hrow.
  replace (nth_error (New row) _) with (@None CD_IO_CHARACTER); [reflexivity|].
  symmetry. apply nth_error_None. lia.
Qed.

(** X20: the loop of [PaintBufferLine] is bounded by the display width,
    not by the columns left after [coord.X]: when the characters to write
    (the smaller of [cchLine] and the width, at least one) do not fit
    between [coord.X] and the end of the row, the call writes past the
    row's character arrays. *)
Theorem X20_line_overruns_row hrUpdate e pwsLine cchLine coord :
  wellFormed e -> IsInitialized e = true -> Int.isULONG (_displayWidth e) ->
  0 <= COORD.X coord ->
  0 < Z.min cchLine (_displayWidth e) <= Z.of_nat (length pwsLine) ->
  _displayWidth e < COORD.X coord + Z.min cchLine (_displayWidth e) ->
  PaintBufferLine hrUpdate e pwsLine cchLine coord = None.
Proof.
  intros (_ & HW & Hrows & Hall) Hinit HU HX Ht Hover.
  unfold PaintBufferLine. rewrite <- initialized_handle, Hinit.
  cbv zeta. unfold Int.size_t.
  rewrite (Z.mod_small (_displayWidth e))
    by (unfold Int.isULONG in HU; change (2 ^ 32) with 4294967296 in HU;
        change (2 ^ 64) with 18446744073709551616; lia).
  set (n := Z.to_nat (Z.min cchLine (_displayWidth e))).
  set (w := Z.to_nat (_displayWidth e)).
  set (x := Z.to_nat (COORD.X coord)).
  assert (n = S (n - 1))%nat as Hn1 by (subst n; lia).
  destruct (0 <=? COORD.Y coord) eqn:HY.
  2:{ rewrite Hn1. cbn [lineCells]. unfold arrayIndex. now rewrite HY. }
  apply Z.leb_le in HY.
  destruct (nth_error (_displayState e) (Z.to_nat (COORD.Y coord))) as [row|] eqn:Hrow.
  2:{ rewrite Hn1. now rewrite lineCells_no_row. }
  pose proof (proj1 (Forall_forall _ _) Hall row (nth_error_In _ _ Hrow)) as [Ho Hn].
  fold w in Ho, Hn.
  destruct (le_lt_dec x w) as [Hin|Hout].
  - set (a := (w - x)%nat).
    assert (n = a + S (n - a - 1))%nat as -> by (subst n a w x; lia).
    rewrite lineCells_add.
    rewrite (lineCells_written coord (_currentLegacyColorAttribute e) pwsLine
               a (_displayState e) row w HX HY Hrow Ho Hn)
      by (subst n a w x; lia).
    fold x.
    destruct (row_split _ _ _ Hrow) as [_ L].
    rewrite (lineCells_outside coord (_currentLegacyColorAttribute e) pwsLine
               _ _ _ (written x a pwsLine (_currentLegacyColorAttribute e) row) HX HY).
    + reflexivity.
    + now apply nth_error_at.
    + unfold written. cbn [New].
      rewrite !length_app, length_map, !length_firstn, length_skipn.
      fold x. subst a. lia.
  - rewrite Hn1.
    rewrite (lineCells_outside coord (_currentLegacyColorAttribute e) pwsLine
               _ _ _ row HX HY Hrow); [reflexivity|]. fold x. lia.
Qed.

Lemma X19_line_written_in_row_witness :
  let row := mkRow 0 [mkChar 97 7; mkChar 98 7; mkChar 99 7]
                     [mkChar 100 7; mkChar 101 7; mkChar 102 7] in
  let row' := mkRow 0 [mkChar 97 7; mkChar 101 7; mkChar 102 7]
                      [mkChar 100 7; mkChar 120 12; mkChar 121 12] in
  PaintBufferLine S_OK (showing [row] 3) [120; 121] 2 (COORD.mk 1 0)
  = Some (S_OK, showing [row'] 3, Some row').
Proof.
  intros row row'.
  apply (X19_line_written_in_row S_OK (showing [row] 3) [120; 121] 2
           (COORD.mk 1 0) row).
  - unfold wellFormed; cbn. repeat split; try lia. repeat constructor.
  - reflexivity.
  - unfold Int.isULONG; cbn; lia.
  - cbn; lia.
  - cbn; lia.
  - reflexivity.
  - lia.
  - cbn; lia.
  - cbn; lia.
Defined.

Lemma X20_line_overruns_row_witness :
  let row := mkRow 0 [mkChar 97 7; mkChar 98 7; mkChar 99 7]
                     [mkChar 100 7; mkChar 101 7; mkChar 102 7] in
  PaintBufferLine S_OK (showing [row] 3) [120; 121; 122] 3 (COORD.mk 1 0) = None.
Proof.
  intros row.
  apply (X20_line_overruns_row S_OK (showing [row] 3) [120; 121; 122] 3
           (COORD.mk 1 0)).
  - unfold wellFormed; cbn. repeat split; try lia. repeat constructor.
  - reflexivity.
  - unfold Int.isULONG; cbn; lia.
  - cbn; lia.
  - cbn; lia.
  - cbn; lia.
Defined.

(** X21: [GetDirtyRectInChars] of the WDDM engine always reports the
    whole display: for a display of at most 32768 columns and rows, a
    cell lies in the (inclusive) rectangle exactly when it is a cell of
    the display; a display without columns or rows still reports one
    column or row. *)
Theorem X21_every_cell_is_dirty e (x y : Z) :
  0 <= _displayWidth e <= 2 ^ 15 -> 0 <= _displayHeight e <= 2 ^ 15 ->
  let r := GetDirtyRectInChars e in
  (SMALL_RECT.Left r <= x <= SMALL_RECT.Right r
   /\ SMALL_RECT.Top r <= y <= SMALL_RECT.Bottom r)
  <-> (0 <= x < Z.max 1 (_displayWidth e) /\ 0 <= y < Z.max 1 (_displayHeight e)).
Proof.
  change (2 ^ 15) with 32768. intros HW HH r. subst r. unfold GetDirtyRectInChars.
  cbn [SMALL_RECT.Left SMALL_RECT.Top SMALL_RECT.Right SMALL_RECT.Bottom].
  destruct (0 <? _displayWidth e) eqn:EW; destruct (0 <? _displayHeight e) eqn:EH;
    try apply Z.ltb_lt in EW; try apply Z.ltb_ge in EW;
    try apply Z.ltb_lt in EH; try apply Z.ltb_ge in EH;
    rewrite ?(IntFacts.LONG_id (_displayWidth e - 1)),
            ?(IntFacts.LONG_id (_displayHeight e - 1)),
            ?(IntFacts.SHORT_id (_displayWidth e - 1)),
            ?(IntFacts.SHORT_id (_displayHeight e - 1));
    unfold Int.isLONG, Int.isSHORT; IntFacts.pow2; lia.
Qed.

Lemma X21_every_cell_is_dirty_witness :
  let r := GetDirtyRectInChars (showing [mkRow 0 [blank; blank] [blank; blank]] 2) in
  r = SMALL_RECT.mk 0 0 1 0
  /\ ((SMALL_RECT.Left r <= 1 <= SMALL_RECT.Right r
       /\ SMALL_RECT.Top r <= 0 <= SMALL_RECT.Bottom r)
      <-> (0 <= 1 < 2 /\ 0 <= 0 < 1)).
Proof.
  intros r. split; [reflexivity|].
  apply (X21_every_cell_is_dirty
           (showing [mkRow 0 [blank; blank] [blank; blank]] 2) 1 0); cbn; lia.
Defined.

(** X22: [GetDisplaySize] takes both its bottom and its right edge from
    the display height.  On a display of 1 to 32768 columns and rows its
    bottom edge is one past the last dirty row, and its right edge is
    one past the last dirty column exactly when the display has as many
    columns as rows. *)
Theorem X22_display_size_is_square e :
  0 < _displayWidth e <= 2 ^ 15 -> 0 < _displayHeight e <= 2 ^ 15 ->
  RECT.bottom (GetDisplaySize e) = SMALL_RECT.Bottom (GetDirtyRectInChars e) + 1
  /\ (RECT.right (GetDisplaySize e) = SMALL_RECT.Right (GetDirtyRectInChars e) + 1
      <-> _displayWidth e = _displayHeight e).
Proof.
  change (2 ^ 15) with 32768. intros HW HH.
  unfold GetDisplaySize, GetDirtyRectInChars.
  cbn [RECT.bottom RECT.right SMALL_RECT.Right SMALL_RECT.Bottom].
  replace (0 <? _displayWidth e) with true by (symmetry; apply Z.ltb_lt; lia).
  replace (0 <? _displayHeight e) with true by (symmetry; apply Z.ltb_lt; lia).
  rewrite !IntFacts.LONG_id, !IntFacts.SHORT_id;
    unfold Int.isLONG, Int.isSHORT; IntFacts.pow2; lia.
Qed.

Lemma X22_display_size_is_square_witness :
  let e := showing [mkRow 0 [blank; blank] [blank; blank]] 2 in
  RECT.bottom (GetDisplaySize e) = SMALL_RECT.Bottom (GetDirtyRectInChars e) + 1
  /\ (RECT.right (GetDisplaySize e) = SMALL_RECT.Right (GetDirtyRectInChars e) + 1
      <-> 2 = 1).
Proof.
  intros e. apply (X22_display_size_is_square e); cbn; lia.
Defined.

End WddmFacts.
